(** * Flight Schedule Parser and Query Tool: a shallow embedding of
      [flight_parser.py] and the properties of its specification.

    The development has two halves.  The first embeds the program: Python
    strings, the fragments of [re], [datetime.strptime], [float] and [json]
    the program calls, and then the program's own functions under their
    source names ([validate_record], [parse_csv_file], [write_db_json],
    [load_db_json], [flight_matches_query], and the parsing part of [main]).
    The second half states and proves the properties.

    Modelling conventions.
    - A Python [str] is a [string]; a character is its code point, so the
      model covers the strings whose code points are below 256.
    - A Python [int] is a [Z]; a Python [float] is a binary64
      [spec_float] (precision 53, [emax] 1024), rounded to nearest even.
    - A call that can raise returns [result]: [Ok v] or [Raise e]. *)

From Stdlib Require Import ZArith NArith List Bool Ascii String Lia.
From Stdlib Require Import Floats.SpecFloat.
From Stdlib Require Import Sorting.Sorted Sorting.Permutation.
Import ListNotations.

#[local] Open Scope string_scope.
#[local] Open Scope Z_scope.
#[local] Open Scope list_scope.

(* ================================================================== *)
(** * Exceptions *)

Inductive exn : Type :=
| ValueError
| TypeError
| OverflowError
| FileNotFoundError
| JSONDecodeError
| UnicodeOutOfModel.

Inductive result (A : Type) : Type :=
| Ok (a : A)
| Raise (e : exn).
Arguments Ok {A} a.
Arguments Raise {A} e.

Definition bind {A B} (r : result A) (k : A -> result B) : result B :=
  match r with
  | Ok a => k a
  | Raise e => Raise e
  end.

Declare Scope py_scope.
Notation "x <- r ;; k" := (bind r (fun x => k))
  (at level 61, r at next level, right associativity) : py_scope.
#[local] Open Scope py_scope.

(** [try: v = r  except Exception: v = d] *)
Definition try_except {A} (r : result A) (d : A) : A :=
  match r with
  | Ok a => a
  | Raise _ => d
  end.

Definition of_option {A} (e : exn) (o : option A) : result A :=
  match o with
  | Some a => Ok a
  | None => Raise e
  end.

(* ================================================================== *)
(** * Python strings *)

Definition code (c : ascii) : N := N_of_ascii c.

Definition in_range (lo hi : N) (c : ascii) : bool :=
  (lo <=? code c)%N && (code c <=? hi)%N.

Definition is_digit (c : ascii) : bool := in_range 48 57 c.
Definition is_upper (c : ascii) : bool := in_range 65 90 c.
Definition is_lower (c : ascii) : bool := in_range 97 122 c.

(** The class [[A-Za-z0-9]]. *)
Definition is_alnum (c : ascii) : bool :=
  is_upper c || is_lower c || is_digit c.

(** [str.isspace] on one character, which is also the class [\s] of a
    [str] pattern: TAB..CR, FS..US, space, NEL and NBSP below 256. *)
Definition isspace (c : ascii) : bool :=
  in_range 9 13 c || in_range 28 32 c ||
  (code c =? 133)%N || (code c =? 160)%N.

(** C's [Py_ISSPACE], the class [float] skips around a number. *)
Definition c_isspace (c : ascii) : bool :=
  in_range 9 13 c || (code c =? 32)%N.

Definition digit_val (c : ascii) : Z := Z.of_N (code c) - 48.

Definition str_empty (s : string) : bool :=
  match s with
  | EmptyString => true
  | String _ _ => false
  end.

Fixpoint lstrip_by (p : ascii -> bool) (s : string) : string :=
  match s with
  | EmptyString => EmptyString
  | String c r => if p c then lstrip_by p r else s
  end.

Fixpoint rstrip_by (p : ascii -> bool) (s : string) : string :=
  match s with
  | EmptyString => EmptyString
  | String c r =>
      let r' := rstrip_by p r in
      if str_empty r' && p c then EmptyString else String c r'
  end.

(** [s.strip()] *)
Definition strip (s : string) : string := rstrip_by isspace (lstrip_by isspace s).

Definition nl : ascii := ascii_of_N 10.
Definition cr : ascii := ascii_of_N 13.

(** [s.rstrip("\n")] *)
Definition rstrip_nl (s : string) : string := rstrip_by (Ascii.eqb nl) s.

(** [s.startswith(p)] *)
Definition startswith (p s : string) : bool := String.prefix p s.

(** [s.split(sep)] for a separator of one character. *)
Fixpoint split (sep : ascii) (s : string) : list string :=
  match s with
  | EmptyString => [EmptyString]
  | String c r =>
      if Ascii.eqb c sep then EmptyString :: split sep r
      else match split sep r with
           | h :: t => String c h :: t
           | [] => [String c EmptyString]
           end
  end.

(** [sep.join(l)] *)
Fixpoint join (sep : string) (l : list string) : string :=
  match l with
  | [] => EmptyString
  | [x] => x
  | x :: rest => (x ++ sep ++ join sep rest)%string
  end.

(** Comparison of two [str]: lexicographic on code points. *)
Fixpoint str_compare (s t : string) : comparison :=
  match s, t with
  | EmptyString, EmptyString => Eq
  | EmptyString, String _ _ => Lt
  | String _ _, EmptyString => Gt
  | String a s', String b t' =>
      match (code a ?= code b)%N with
      | Eq => str_compare s' t'
      | o => o
      end
  end.

Definition str_ltb (s t : string) : bool :=
  match str_compare s t with Lt => true | _ => false end.
Definition str_leb (s t : string) : bool :=
  match str_compare s t with Gt => false | _ => true end.

(** The lines a text-mode file object yields (universal newlines): a
    line ends after LF, CR or CR LF, each read as one LF; a last line
    without a terminator is yielded as it is. *)
Fixpoint file_lines (s : string) : list string :=
  let cons_char c ls :=
    match ls with
    | h :: t => String c h :: t
    | [] => [String c EmptyString]
    end in
  match s with
  | EmptyString => []
  | String c r =>
      if Ascii.eqb c nl then String nl EmptyString :: file_lines r
      else if Ascii.eqb c cr then
        match r with
        | String c2 r2 =>
            if Ascii.eqb c2 nl then String nl EmptyString :: file_lines r2
            else String nl EmptyString :: file_lines r
        | EmptyString => [String nl EmptyString]
        end
      else cons_char c (file_lines r)
  end.

(** The text of [s] that precedes the suffix [rest]. *)
Definition consumed (s rest : string) : string :=
  String.substring 0 (String.length s - String.length rest) s.

(** [int(s)] for a string of decimal digits with optional surrounding
    whitespace (all the callers below pass); anything else is a
    [ValueError]. *)
Fixpoint digits_value (acc : Z) (s : string) : option Z :=
  match s with
  | EmptyString => Some acc
  | String c r =>
      if is_digit c then digits_value (acc * 10 + digit_val c) r else None
  end.

Definition py_int (s : string) : result Z :=
  let t := strip s in
  if str_empty t then Raise ValueError
  else of_option ValueError (digits_value 0 t).

(* ================================================================== *)
(** * Regular expressions ([re.match])

    A backtracking matcher in the order of Python's [re]: [run r s]
    lists, in the order the engine tries them, the ways [r] matches at
    the start of [s], each as the text matched and the text left.
    [re.match] takes the first. *)

Inductive regex : Type :=
| RChar (p : ascii -> bool)               (* one character of a class *)
| RSeq (a b : regex)                      (* [ab] *)
| RAlt (a b : regex)                      (* [a|b], [a] tried first *)
| RRep (p : ascii -> bool) (lo hi : nat)  (* [[p]{lo,hi}], greedy *)
| RPlus (p : ascii -> bool)               (* [[p]+], greedy *)
| RDollar.                                (* [$] *)

Definition span_of : Type := (string * string)%type.

(** One more matched character in front of every way. *)
Definition shift (c : ascii) (l : list span_of) : list span_of :=
  map (fun '(m, rest) => (String c m, rest)) l.

(** [[p]{lo,hi}]: the longer repetitions come first. *)
Fixpoint run_rep (p : ascii -> bool) (lo hi : nat) (s : string) : list span_of :=
  (match hi, s with
   | S hi', String c r => if p c then shift c (run_rep p (Nat.pred lo) hi' r) else []
   | _, _ => []
   end) ++ (if Nat.eqb lo 0 then [(EmptyString, s)] else []).

(** [[p]*], greedy. *)
Fixpoint run_star (p : ascii -> bool) (s : string) : list span_of :=
  (match s with
   | String c r => if p c then shift c (run_star p r) else []
   | EmptyString => []
   end) ++ [(EmptyString, s)].

(** [$] matches at the end of the string and just before a newline that
    is the last character of the string. *)
Definition at_dollar (s : string) : bool :=
  match s with
  | EmptyString => true
  | String c EmptyString => Ascii.eqb c nl
  | _ => false
  end.

Fixpoint run (r : regex) (s : string) : list span_of :=
  match r with
  | RChar p =>
      match s with
      | String c rest => if p c then [(String c EmptyString, rest)] else []
      | EmptyString => []
      end
  | RSeq a b =>
      flat_map (fun '(m1, r1) =>
                  map (fun '(m2, r2) => ((m1 ++ m2)%string, r2)) (run b r1))
               (run a s)
  | RAlt a b => run a s ++ run b s
  | RRep p lo hi => run_rep p lo hi s
  | RPlus p =>
      match s with
      | String c rest => if p c then shift c (run_star p rest) else []
      | EmptyString => []
      end
  | RDollar => if at_dollar s then [(EmptyString, s)] else []
  end.

(** [re.match(r, s)]: the first way, if any.  A leading [^] holds at the
    position [re.match] starts from and is left out of the patterns
    below. *)
Definition re_match (r : regex) (s : string) : option span_of :=
  hd_error (run r s).

Definition matches (r : regex) (s : string) : bool :=
  match re_match r s with Some _ => true | None => false end.

Definition chr (c : ascii) : regex := RChar (Ascii.eqb c).
Definition rng (lo hi : N) : regex := RChar (in_range lo hi).

(** [^[A-Za-z0-9]{2,8}$] *)
Definition flight_id_re : regex := RSeq (RRep is_alnum 2 8) RDollar.
(** [^[A-Z]{3}$] *)
Definition airport_re : regex := RSeq (RRep is_upper 3 3) RDollar.

(* ================================================================== *)
(** * [datetime.strptime(s, "%Y-%m-%d %H:%M")] *)

Record datetime : Type := mk_datetime {
  year : Z; month : Z; day : Z; hour : Z; minute : Z
}.

(** The regular expressions of the directives, from [_strptime.TimeRE]:
    [%Y] is [\d\d\d\d], [%m] is [1[0-2]|0[1-9]|[1-9]], [%d] is
    [3[0-1]|[1-2]\d|0[1-9]|[1-9]| [1-9]], [%H] is [2[0-3]|[0-1]\d|\d],
    [%M] is [[0-5]\d|\d]; a space of the format is [\s+]. *)
Definition dig : regex := RChar is_digit.
Definition re_Y : regex := RSeq dig (RSeq dig (RSeq dig dig)).
Definition re_m : regex :=
  RAlt (RSeq (chr "1") (rng 48 50))
       (RAlt (RSeq (chr "0") (rng 49 57)) (rng 49 57)).
Definition re_d : regex :=
  RAlt (RSeq (chr "3") (rng 48 49))
    (RAlt (RSeq (rng 49 50) dig)
       (RAlt (RSeq (chr "0") (rng 49 57))
          (RAlt (rng 49 57) (RSeq (chr " ") (rng 49 57))))).
Definition re_H : regex :=
  RAlt (RSeq (chr "2") (rng 48 51))
       (RAlt (RSeq (rng 48 49) dig) dig).
Definition re_M : regex := RAlt (RSeq (rng 48 53) dig) dig.

(** The groups of a match and the text left after it. *)
Record found : Type := mk_found {
  g_Y : string; g_m : string; g_d : string; g_H : string; g_M : string;
  unconverted : string
}.

(** The ways the compiled format
    [(Y)-(m)-(d)\s+(H):(M)] matches, in the engine's order. *)
Definition strptime_run (s : string) : list found :=
  flat_map (fun '(gY, s1) =>
  flat_map (fun '(_, s2) =>
  flat_map (fun '(gm, s3) =>
  flat_map (fun '(_, s4) =>
  flat_map (fun '(gd, s5) =>
  flat_map (fun '(_, s6) =>
  flat_map (fun '(gH, s7) =>
  flat_map (fun '(_, s8) =>
  map (fun '(gM, s9) => mk_found gY gm gd gH gM s9)
    (run re_M s8))
    (run (chr ":") s7))
    (run re_H s6))
    (run (RPlus isspace) s5))
    (run re_d s4))
    (run (chr "-") s3))
    (run re_m s2))
    (run (chr "-") s1))
    (run re_Y s).

Definition is_leap (y : Z) : bool :=
  (y mod 4 =? 0) && (negb (y mod 100 =? 0) || (y mod 400 =? 0)).

Definition days_in_month (y m : Z) : Z :=
  if m =? 2 then (if is_leap y then 29 else 28)
  else if (m =? 4) || (m =? 6) || (m =? 9) || (m =? 11) then 30
  else 31.

(** The checks of the [datetime] constructor. *)
Definition new_datetime (y m d h mi : Z) : result datetime :=
  if (1 <=? y) && (y <=? 9999) && (1 <=? m) && (m <=? 12)
     && (1 <=? d) && (d <=? days_in_month y m)
     && (0 <=? h) && (h <=? 23) && (0 <=? mi) && (mi <=? 59)
  then Ok (mk_datetime y m d h mi)
  else Raise ValueError.

(** The first match must exist and must have consumed the whole string
    ("unconverted data remains" otherwise); the groups are then converted
    with [int] and handed to the constructor. *)
Definition strptime (s : string) : result datetime :=
  match strptime_run s with
  | [] => Raise ValueError
  | f :: _ =>
      if str_empty (unconverted f) then
        y <- py_int (g_Y f) ;; m <- py_int (g_m f) ;; d <- py_int (g_d f) ;;
        h <- py_int (g_H f) ;; mi <- py_int (g_M f) ;;
        new_datetime y m d h mi
      else Raise ValueError
  end.

(** [a > b] on two naive [datetime] values. *)
Definition dt_key (a : datetime) : list Z :=
  [year a; month a; day a; hour a; minute a].

Fixpoint lex_compare (a b : list Z) : comparison :=
  match a, b with
  | [], [] => Eq
  | [], _ :: _ => Lt
  | _ :: _, [] => Gt
  | x :: a', y :: b' =>
      match x ?= y with
      | Eq => lex_compare a' b'
      | o => o
      end
  end.

Definition dt_compare (a b : datetime) : comparison :=
  lex_compare (dt_key a) (dt_key b).

Definition dt_gt (a b : datetime) : bool :=
  match dt_compare a b with Gt => true | _ => false end.
Definition dt_le (a b : datetime) : bool := negb (dt_gt a b).

(* ================================================================== *)
(** * Python floats: [float(s)] and comparison *)

Definition prec : Z := 53.
Definition emax : Z := 1024.

Definition f_zero : spec_float := S754_zero false.

(** [a < b], [a > b], [a <= b] on two floats (all false on a NaN). *)
Definition float_lt (a b : spec_float) : bool := SFltb a b.
Definition float_gt (a b : spec_float) : bool := SFltb b a.
Definition float_le (a b : spec_float) : bool := SFleb a b.

Definition is_nan (a : spec_float) : bool :=
  match a with S754_nan => true | _ => false end.

(** The float nearest to [n * 10^k] for a decimal literal with digits
    [ds] of value [n]; ties go to the even mantissa, a value beyond the
    largest float becomes an infinity and one below half the smallest
    becomes a zero.  The two guards only bound the powers of ten that
    are computed: with [n >= 1], [n * 10^k >= 10^401] when [k > 400], and
    [n * 10^k < 10^-400] when [k + length ds < -400]. *)
Definition decimal_to_float (neg : bool) (ds : string) (k : Z) : spec_float :=
  match digits_value 0 ds with
  | Some (Zpos n) =>
      if 400 <? k then S754_infinity neg
      else if k + Z.of_nat (String.length ds) <? -400 then S754_zero neg
      else if 0 <=? k then
        binary_normalize prec emax
          (if neg then Z.neg n * 10 ^ k else Z.pos n * 10 ^ k) 0 neg
      else
        SFdiv prec emax (S754_finite neg n 0)
                        (S754_finite false (Z.to_pos (10 ^ (- k))) 0)
  | _ => S754_zero neg
  end.

(** The longest prefix of characters of a class, and the rest. *)
Fixpoint span (p : ascii -> bool) (s : string) : string * string :=
  match s with
  | EmptyString => (EmptyString, EmptyString)
  | String c r =>
      if p c then let '(a, b) := span p r in (String c a, b)
      else (EmptyString, s)
  end.

Definition to_lower (c : ascii) : ascii :=
  if is_upper c then ascii_of_N (code c + 32) else c.

(** [s] starts with [pat] (given in lower case), letter case ignored;
    the rest of [s] after it. *)
Fixpoint ci_prefix (pat s : string) : option string :=
  match pat, s with
  | EmptyString, _ => Some s
  | String a pat', String c s' =>
      if Ascii.eqb (to_lower c) a then ci_prefix pat' s' else None
  | String _ _, EmptyString => None
  end.

Definition take_sign (s : string) : bool * string :=
  match s with
  | String c r =>
      if Ascii.eqb c "-" then (true, r)
      else if Ascii.eqb c "+" then (false, r)
      else (false, s)
  | EmptyString => (false, s)
  end.

(** The optional exponent [[eE][+-]?\d+]; without a digit nothing of it
    is consumed. *)
Definition scan_exponent (s : string) : Z * string :=
  match s with
  | String c r =>
      if Ascii.eqb (to_lower c) "e" then
        let '(eneg, r1) := take_sign r in
        let '(ds, r2) := span is_digit r1 in
        match ds, digits_value 0 ds with
        | String _ _, Some e => ((if eneg then - e else e), r2)
        | _, _ => (0, s)
        end
      else (0, s)
  | EmptyString => (0, s)
  end.

(** A decimal literal: sign, digits with an optional point (at least one
    digit), optional exponent. *)
Definition scan_decimal (s : string) : option (spec_float * string) :=
  let '(neg, r0) := take_sign s in
  let '(ip, r1) := span is_digit r0 in
  let '(fp, r2) :=
    match r1 with
    | String c r =>
        if Ascii.eqb c "." then span is_digit r else (EmptyString, r1)
    | EmptyString => (EmptyString, r1)
    end in
  if str_empty ip && str_empty fp then None
  else
    let '(e, r3) := scan_exponent r2 in
    Some (decimal_to_float neg (ip ++ fp)%string (e - Z.of_nat (String.length fp)), r3).

(** [inf], [infinity] and [nan] with an optional sign, any letter case. *)
Definition scan_inf_nan (s : string) : option (spec_float * string) :=
  let '(neg, r0) := take_sign s in
  match ci_prefix "inf" r0 with
  | Some r1 =>
      match ci_prefix "inity" r1 with
      | Some r2 => Some (S754_infinity neg, r2)
      | None => Some (S754_infinity neg, r1)
      end
  | None =>
      match ci_prefix "nan" r0 with
      | Some r1 => Some (S754_nan, r1)
      | None => None
      end
  end.

Definition scan_float (s : string) : option (spec_float * string) :=
  match scan_decimal s with
  | Some r => Some r
  | None => scan_inf_nan s
  end.

(** What [float] makes of a [str] that is not pure ASCII before it
    parses: a non-ASCII space becomes a space, any other character from
    code 127 on ends the text with a [?] (no such character is a decimal
    digit below 256). *)
Fixpoint transform_spaces (s : string) : string :=
  match s with
  | EmptyString => EmptyString
  | String c r =>
      if (code c <? 127)%N then String c (transform_spaces r)
      else if isspace c then String " " (transform_spaces r)
      else "?"
  end.

Fixpoint all_chars (p : ascii -> bool) (s : string) : bool :=
  match s with
  | EmptyString => true
  | String c r => p c && all_chars p r
  end.

Definition is_ascii (s : string) : bool :=
  all_chars (fun c => (code c <? 128)%N) s.

(** Underscores are removed where they stand between two digits; any
    other underscore, or a NUL, is an error. *)
Fixpoint drop_underscores (prev : ascii) (s : string) : option string :=
  match s with
  | EmptyString => if Ascii.eqb prev "_" then None else Some EmptyString
  | String c r =>
      if (code c =? 0)%N then None
      else if Ascii.eqb c "_" then
        if is_digit prev then drop_underscores c r else None
      else if Ascii.eqb prev "_" && negb (is_digit c) then None
      else option_map (String c) (drop_underscores c r)
  end.

Definition has_char (c : ascii) (s : string) : bool :=
  negb (all_chars (fun d => negb (Ascii.eqb d c)) s).

(** [float(s)] for a [str]. *)
Definition float_of_string (s : string) : result spec_float :=
  let s1 := if is_ascii s then s else transform_spaces s in
  match (if has_char "_" s1 then drop_underscores Ascii.zero s1 else Some s1) with
  | None => Raise ValueError
  | Some s2 =>
      match scan_float (lstrip_by c_isspace s2) with
      | Some (x, rest) =>
          if str_empty (lstrip_by c_isspace rest) then Ok x
          else Raise ValueError
      | None => Raise ValueError
      end
  end.

(** [float(n)] for an [int]. *)
Definition float_of_int (n : Z) : result spec_float :=
  match binary_normalize prec emax n 0 false with
  | S754_infinity _ => Raise OverflowError
  | x => Ok x
  end.

(* ================================================================== *)
(** * The record validator *)

(** [validate_record(fields)].  The list [errors] is threaded through
    the checks in the order of the source; unpacking anything but six
    fields raises. *)
Definition validate_record (fields : list string) : result (list string) :=
  match fields with
  | [flight_id; origin; destination; dep_dt; arr_dt; price] =>
      let errors : list string := [] in
      (* flight_id *)
      let errors :=
        if negb (matches flight_id_re flight_id)
        then errors ++ ["Invalid flight_id"] else errors in
      (* origin and destination *)
      let errors :=
        if negb (matches airport_re origin)
        then errors ++ ["Invalid origin"] else errors in
      let errors :=
        if negb (matches airport_re destination)
        then errors ++ ["Invalid destination"] else errors in
      (* departure and arrival datetimes *)
      let '(dep_dt_obj, errors) :=
        match strptime dep_dt with
        | Ok d => (Some d, errors)
        | Raise _ => (None, errors ++ ["Invalid departure_datetime"])
        end in
      let '(arr_dt_obj, errors) :=
        match strptime arr_dt with
        | Ok d => (Some d, errors)
        | Raise _ => (None, errors ++ ["Invalid arrival_datetime"])
        end in
      (* if both parsed, check arrival > departure *)
      let errors :=
        match dep_dt_obj, arr_dt_obj with
        | Some d, Some a =>
            if negb (dt_gt a d)
            then errors ++ ["Arrival not after departure"] else errors
        | _, _ => errors
        end in
      (* price positive float *)
      let errors :=
        match float_of_string price with
        | Ok price_val =>
            if negb (float_gt price_val f_zero)
            then errors ++ ["Invalid price"] else errors
        | Raise _ => errors ++ ["Invalid price"]
        end in
      Ok errors
  | _ => Raise ValueError
  end.

(* ================================================================== *)
(** * Dictionaries, files and the line parser *)

(** A Python [dict] with [str] keys: the items in insertion order, no
    key twice. *)
Definition dict (V : Type) : Type := list (string * V).

Fixpoint dict_get {V} (k : string) (d : dict V) : option V :=
  match d with
  | [] => None
  | (k', v) :: d' => if String.eqb k k' then Some v else dict_get k d'
  end.

(** [k in d] *)
Definition dict_mem {V} (k : string) (d : dict V) : bool :=
  match dict_get k d with Some _ => true | None => false end.

(** [d[k] = v]: a key already there keeps its place. *)
Fixpoint dict_set {V} (k : string) (v : V) (d : dict V) : dict V :=
  match d with
  | [] => [(k, v)]
  | (k', v') :: d' =>
      if String.eqb k k' then (k, v) :: d' else (k', v') :: dict_set k v d'
  end.

Definition keys {V} (d : dict V) : list string := map fst d.

Definition dict_wf {V} (d : dict V) : Prop := NoDup (keys d).

(** A flight as [parse_csv_file] builds it: a [Dict[str, str]]. *)
Definition flight : Type := dict string.

(** An entry of the error list: line number, original line, explanation. *)
Definition error_entry : Type := (Z * string * string)%type.

(** The files the program reads: the decoded text behind a path. *)
Definition filesystem : Type := string -> option string.

Definition fs_write (path text : string) (fs : filesystem) : filesystem :=
  fun p => if String.eqb p path then Some text else fs p.

Record parse_state : Type := mk_state {
  st_valid : list flight;
  st_errors : list error_entry;
  st_ln : Z
}.

Definition add_error (st : parse_state) (line why : string) : parse_state :=
  mk_state (st_valid st) (st_errors st ++ [(st_ln st, line, why)]) (st_ln st).

Definition add_valid (st : parse_state) (f : flight) : parse_state :=
  mk_state (st_valid st ++ [f]) (st_errors st) (st_ln st).

(** [ln += 1] *)
Definition next_line (st : parse_state) : parse_state :=
  mk_state (st_valid st) (st_errors st) (st_ln st + 1).

Definition make_flight (parts : list string) : flight :=
  [ ("flight_id", nth 0 parts EmptyString);
    ("origin", nth 1 parts EmptyString);
    ("destination", nth 2 parts EmptyString);
    ("departure_datetime", nth 3 parts EmptyString);
    ("arrival_datetime", nth 4 parts EmptyString);
    ("price", nth 5 parts EmptyString) ].

(** The body of the loop [for raw in fh] of [parse_csv_file]. *)
Definition parse_line (st : parse_state) (raw : string) : result parse_state :=
  let line := rstrip_nl raw in
  let stripped := strip line in
  (* skip blank lines *)
  if String.eqb stripped EmptyString then Ok (next_line st)
  (* comment lines *)
  else if startswith "#" stripped then
    Ok (next_line (add_error st line "Comment"))
  else
    (* split CSV by comma *)
    let parts := map strip (split "," line) in
    if negb (Nat.eqb (List.length parts) 6) then
      Ok (next_line (add_error st line "Invalid number of fields"))
    else
      issues <- validate_record parts ;;
      match issues with
      | _ :: _ => Ok (next_line (add_error st line (join ", " issues)))
      | [] => Ok (next_line (add_valid st (make_flight parts)))
      end.

Fixpoint for_each {S A} (body : S -> A -> result S) (st : S) (l : list A)
  : result S :=
  match l with
  | [] => Ok st
  | x :: l' => st' <- body st x ;; for_each body st' l'
  end.

(** [parse_csv_file(path, start_line_no)] returns
    [(valid, errors, next_line_no)]. *)
Definition parse_csv_file (fs : filesystem) (path : string) (start_line_no : Z)
  : result (list flight * list error_entry * Z) :=
  match fs path with
  | None => Raise FileNotFoundError
  | Some text =>
      st <- for_each parse_line (mk_state [] [] start_line_no) (file_lines text) ;;
      Ok (st_valid st, st_errors st, st_ln st)
  end.

(* ================================================================== *)
(** * The batch orchestrator: the parsing part of [main] *)

(** Stable insertion sort, standing for [sorted]. *)
Fixpoint insert_by {A} (le : A -> A -> bool) (x : A) (l : list A) : list A :=
  match l with
  | [] => [x]
  | y :: l' => if le x y then x :: y :: l' else y :: insert_by le x l'
  end.

Definition sorted_by {A} (le : A -> A -> bool) (l : list A) : list A :=
  fold_right (insert_by le) [] l.

(** The command line: [-i] and [-d].  [dir_csv] is what
    [glob.glob(os.path.join(d, "*.csv"))] finds in a directory, and
    [None] where [os.path.isdir] is false. *)
Record arguments : Type := mk_args {
  input_file : option string;
  input_dir : option string
}.

Definition directories : Type := string -> option (list string).

Definition batch : Type := (list flight * list error_entry * Z)%type.

(** One pass of [v, e, next_ln = parse_csv_file(p, start_line_no=next_ln)]
    followed by the two [extend] calls; any exception ends the process
    with [sys.exit(2)]. *)
Inductive outcome (A : Type) : Type :=
| Done (a : A)
| Exit (status : Z).
Arguments Done {A} a.
Arguments Exit {A} status.

Definition parse_into (fs : filesystem) (acc : batch) (path : string)
  : outcome batch :=
  let '(flights, all_errors, next_ln) := acc in
  match parse_csv_file fs path next_ln with
  | Ok (v, e, next_ln') => Done (flights ++ v, all_errors ++ e, next_ln')
  | Raise _ => Exit 2
  end.

Fixpoint parse_all (fs : filesystem) (acc : batch) (paths : list string)
  : outcome batch :=
  match paths with
  | [] => Done acc
  | p :: rest =>
      match parse_into fs acc p with
      | Done acc' => parse_all fs acc' rest
      | Exit n => Exit n
      end
  end.

(** [if args.input_file:] holds for an option that was given and is not
    the empty string. *)
Definition given (o : option string) : option string :=
  match o with
  | Some s => if str_empty s then None else Some s
  | None => None
  end.

(** The [else] branch of [main] up to the writing of the outputs. *)
Definition main_parse (fs : filesystem) (dirs : directories) (args : arguments)
  : outcome batch :=
  let acc : batch := ([], [], 1) in
  let after_file :=
    match given (input_file args) with
    | Some p =>
        match fs p with
        | None => Exit 2                       (* not os.path.isfile *)
        | Some _ => parse_into fs acc p
        end
    | None => Done acc
    end in
  match after_file with
  | Exit n => Exit n
  | Done acc1 =>
      match given (input_dir args) with
      | Some d =>
          match dirs d with
          | None => Exit 2                     (* not os.path.isdir *)
          | Some found => parse_all fs acc1 (sorted_by str_leb found)
          end
      | None => Done acc1
      end
  end.

(* ================================================================== *)
(** * Python values as [json] loads them *)

#[local] Set Warnings "-register-all".
Inductive pyval : Type :=
| PNone
| PBool (b : bool)
| PInt (n : Z)
| PFloat (x : spec_float)
| PStr (s : string)
| PList (l : list pyval)
| PDict (d : list (string * pyval)).

(** Numbers: [bool] is a subclass of [int]. *)
Inductive num : Type :=
| NInt (n : Z)
| NFloat (x : spec_float).

Definition as_num (v : pyval) : option num :=
  match v with
  | PBool b => Some (NInt (if b then 1 else 0))
  | PInt n => Some (NInt n)
  | PFloat x => Some (NFloat x)
  | _ => None
  end.

(** An [int] against a [float], compared exactly; [None] on a NaN. *)
Definition int_float_compare (n : Z) (x : spec_float) : option comparison :=
  match x with
  | S754_nan => None
  | S754_infinity s => Some (if s then Gt else Lt)
  | S754_zero _ => Some (n ?= 0)
  | S754_finite s m e =>
      let v := if s then Z.neg m else Z.pos m in
      Some (if 0 <=? e then n ?= v * 2 ^ e else n * 2 ^ (- e) ?= v)
  end.

Definition num_compare (a b : num) : option comparison :=
  match a, b with
  | NInt x, NInt y => Some (x ?= y)
  | NFloat x, NFloat y => SFcompare x y
  | NInt x, NFloat y => int_float_compare x y
  | NFloat x, NInt y => option_map CompOpp (int_float_compare y x)
  end.

Definition comparison_eqb (a b : comparison) : bool :=
  match a, b with
  | Eq, Eq | Lt, Lt | Gt, Gt => true
  | _, _ => false
  end.

Definition num_is (want : comparison) (a b : num) : bool :=
  match num_compare a b with
  | Some c => comparison_eqb c want
  | None => false
  end.

(** The decoder shares one NaN object among all the values it returns,
    and a container compares its items by identity before [==]. *)
Definition same_nan (a b : pyval) : bool :=
  match a, b with
  | PFloat x, PFloat y => is_nan x && is_nan y
  | _, _ => false
  end.

(** [a == b] *)
Fixpoint py_eq (a b : pyval) : bool :=
  match a, b with
  | PNone, PNone => true
  | PStr s, PStr t => String.eqb s t
  | PList l1, PList l2 =>
      (fix items (l1 l2 : list pyval) : bool :=
         match l1, l2 with
         | [], [] => true
         | x :: l1', y :: l2' => (same_nan x y || py_eq x y) && items l1' l2'
         | _, _ => false
         end) l1 l2
  | PDict d1, PDict d2 =>
      Nat.eqb (List.length d1) (List.length d2) &&
      (fix items (d : list (string * pyval)) : bool :=
         match d with
         | [] => true
         | (k, v) :: d' =>
             match dict_get k d2 with
             | Some w => (same_nan v w || py_eq v w) && items d'
             | None => false
             end
         end) d1
  | _, _ =>
      match as_num a, as_num b with
      | Some x, Some y => num_is Eq x y
      | _, _ => false
      end
  end.

(** [a != b] *)
Definition py_ne (a b : pyval) : bool := negb (py_eq a b).

Definition item_eq (a b : pyval) : bool := same_nan a b || py_eq a b.

(** [a < b] for [want = Lt] and [a > b] for [want = Gt]; a pair of
    values without an order raises [TypeError]. *)
Fixpoint py_order (want : comparison) (a b : pyval) : result bool :=
  match a, b with
  | PStr s, PStr t => Ok (comparison_eqb (str_compare s t) want)
  | PList l1, PList l2 =>
      (fix items (l1 l2 : list pyval) : result bool :=
         match l1, l2 with
         | [], [] => Ok false
         | [], _ :: _ => Ok (comparison_eqb Lt want)
         | _ :: _, [] => Ok (comparison_eqb Gt want)
         | x :: l1', y :: l2' =>
             if item_eq x y then items l1' l2' else py_order want x y
         end) l1 l2
  | _, _ =>
      match as_num a, as_num b with
      | Some x, Some y => Ok (num_is want x y)
      | _, _ => Raise TypeError
      end
  end.

Definition py_lt (a b : pyval) : result bool := py_order Lt a b.
Definition py_gt (a b : pyval) : result bool := py_order Gt a b.

(** [float(v)] *)
Definition py_float (v : pyval) : result spec_float :=
  match v with
  | PStr s => float_of_string s
  | PInt n => float_of_int n
  | PBool b => float_of_int (if b then 1 else 0)
  | PFloat x => Ok x
  | _ => Raise TypeError
  end.

(** [f.get(key)] and [f.get(key, default)] *)
Definition get (f : dict pyval) (key : string) : pyval :=
  match dict_get key f with Some v => v | None => PNone end.

Definition get_or (f : dict pyval) (key : string) (default : pyval) : pyval :=
  match dict_get key f with Some v => v | None => default end.

Definition py_of_flight (f : flight) : dict pyval :=
  map (fun '(k, v) => (k, PStr v)) f.

(* ================================================================== *)
(** * The query predicate evaluator *)

(** The loop over [("flight_id", "origin", "destination")]: does some
    key of the query differ from the record? *)
Definition exact_mismatch (f q : dict pyval) : bool :=
  existsb (fun key =>
             match dict_get key q with
             | Some qv => py_ne (get f key) qv
             | None => false
             end)
          ["flight_id"; "origin"; "destination"].

(** The [try] block under [if "price" in q]: does it return [False]? *)
Definition price_rejects (f q : dict pyval) : bool :=
  match dict_get "price" q with
  | Some qv =>
      try_except
        (qprice <- py_float qv ;;
         fprice <- py_float (get_or f "price" (PStr "0")) ;;
         Ok (float_gt fprice qprice))
        true
  | None => false
  end.

Definition departure_rejects (f q : dict pyval) : result bool :=
  match dict_get "departure_datetime" q with
  | Some qv => py_lt (get f "departure_datetime") qv
  | None => Ok false
  end.

Definition arrival_rejects (f q : dict pyval) : result bool :=
  match dict_get "arrival_datetime" q with
  | Some qv => py_gt (get f "arrival_datetime") qv
  | None => Ok false
  end.

(** [flight_matches_query(f, q)] *)
Definition flight_matches_query (f q : dict pyval) : result bool :=
  if exact_mismatch f q then Ok false
  else if price_rejects f q then Ok false
  else
    dep <- departure_rejects f q ;;
    if dep then Ok false
    else
      arr <- arrival_rejects f q ;;
      if arr then Ok false else Ok true.

(* ================================================================== *)
(** * JSON: [json.dump(flights, fh, indent=2, sort_keys=True)] *)

Definition dq : ascii := ascii_of_N 34.   (* the double quote *)
Definition bs : ascii := ascii_of_N 92.   (* the backslash *)

Definition str1 (c : ascii) : string := String c EmptyString.

Definition hex_digit (n : N) : ascii :=
  if (n <? 10)%N then ascii_of_N (48 + n) else ascii_of_N (87 + n).

(** One character under [ensure_ascii]: the short escapes, the
    printable ASCII characters as they are, the rest as [\u00XX]. *)
Definition escape_char (c : ascii) : string :=
  if Ascii.eqb c dq then String bs (str1 dq)
  else if Ascii.eqb c bs then String bs (str1 bs)
  else if (code c =? 10)%N then String bs "n"
  else if (code c =? 13)%N then String bs "r"
  else if (code c =? 9)%N then String bs "t"
  else if (code c =? 12)%N then String bs "f"
  else if (code c =? 8)%N then String bs "b"
  else if in_range 32 126 c then str1 c
  else String bs (String "u" (String "0" (String "0"
         (String (hex_digit (code c / 16)) (str1 (hex_digit (code c mod 16))))))).

Fixpoint escape (s : string) : string :=
  match s with
  | EmptyString => EmptyString
  | String c r => (escape_char c ++ escape r)%string
  end.

Definition dump_str (s : string) : string :=
  String dq (escape s ++ str1 dq)%string.

Definition newline_indent (n : nat) : string :=
  String nl (String.concat EmptyString (repeat " " n)).

Definition key_leb {V} (a b : string * V) : bool := str_leb (fst a) (fst b).

(** The items of a dictionary in the order of [sort_keys=True]. *)
Definition sort_items {V} (d : dict V) : dict V := sorted_by key_leb d.

Definition dump_item (kv : string * string) : string :=
  (dump_str (fst kv) ++ ": " ++ dump_str (snd kv))%string.

(** A dictionary of strings at nesting level 1. *)
Definition dump_flight (f : flight) : string :=
  match sort_items f with
  | [] => "{}"
  | items =>
      ("{" ++ newline_indent 4
           ++ join ("," ++ newline_indent 4) (map dump_item items)
           ++ newline_indent 2 ++ "}")%string
  end.

Definition json_dumps (flights : list flight) : string :=
  match flights with
  | [] => "[]"
  | _ =>
      ("[" ++ newline_indent 2
           ++ join ("," ++ newline_indent 2) (map dump_flight flights)
           ++ newline_indent 0 ++ "]")%string
  end.

(** [write_db_json(flights, path)] *)
Definition write_db_json (fs : filesystem) (flights : list flight) (path : string)
  : filesystem :=
  fs_write path (json_dumps flights) fs.

(* ================================================================== *)
(** * JSON: [json.load] *)

Definition json_ws (c : ascii) : bool :=
  (code c =? 32)%N || (code c =? 9)%N || (code c =? 10)%N || (code c =? 13)%N.

Definition skip_ws (s : string) : string := lstrip_by json_ws s.

Definition hex_val (c : ascii) : option N :=
  if is_digit c then Some (code c - 48)%N
  else if in_range 97 102 c then Some (code c - 87)%N
  else if in_range 65 70 c then Some (code c - 55)%N
  else None.

Definition hex4 (a b c d : ascii) : option N :=
  match hex_val a, hex_val b, hex_val c, hex_val d with
  | Some x, Some y, Some z, Some w => Some (((x * 16 + y) * 16 + z) * 16 + w)%N
  | _, _, _, _ => None
  end.

Definition unescape (e : ascii) : option ascii :=
  if Ascii.eqb e dq then Some dq
  else if Ascii.eqb e bs then Some bs
  else if Ascii.eqb e "/" then Some "/"%char
  else if Ascii.eqb e "b" then Some (ascii_of_N 8)
  else if Ascii.eqb e "f" then Some (ascii_of_N 12)
  else if Ascii.eqb e "n" then Some nl
  else if Ascii.eqb e "r" then Some cr
  else if Ascii.eqb e "t" then Some (ascii_of_N 9)
  else None.

Definition push (c : ascii) (r : result (string * string)) : result (string * string) :=
  p <- r ;; Ok (String c (fst p), snd p).

(** The body of a string literal after its opening quote (strict mode:
    a raw control character is an error).  A [\uXXXX] escape from 256 on
    names a character outside the modelled strings. *)
Fixpoint scan_string (s : string) : result (string * string) :=
  match s with
  | EmptyString => Raise JSONDecodeError
  | String c r =>
      if Ascii.eqb c dq then Ok (EmptyString, r)
      else if Ascii.eqb c bs then
        match r with
        | String e r1 =>
            if Ascii.eqb e "u" then
              match r1 with
              | String h1 (String h2 (String h3 (String h4 r2))) =>
                  match hex4 h1 h2 h3 h4 with
                  | Some n =>
                      if (n <? 256)%N then push (ascii_of_N n) (scan_string r2)
                      else Raise UnicodeOutOfModel
                  | None => Raise JSONDecodeError
                  end
              | _ => Raise JSONDecodeError
              end
            else
              match unescape e with
              | Some ch => push ch (scan_string r1)
              | None => Raise JSONDecodeError
              end
        | EmptyString => Raise JSONDecodeError
        end
      else if (code c <? 32)%N then Raise JSONDecodeError
      else push c (scan_string r)
  end.

(** [s] without the prefix [p], if it starts with it. *)
Fixpoint after_prefix (p s : string) : option string :=
  match p, s with
  | EmptyString, _ => Some s
  | String a p', String c s' =>
      if Ascii.eqb a c then after_prefix p' s' else None
  | String _ _, EmptyString => None
  end.

(** A part [sep digits] of a number that is consumed only with a digit. *)
Definition scan_digits_after (s : string) : option string :=
  let '(ds, r) := span is_digit s in
  if str_empty ds then None else Some r.

(** A number: an optional minus, then 0 or a digit run that starts with
    1..9, then an optional fraction (a point and digits), then an optional
    exponent (e or E, optional sign, digits).  It is an [int] without
    fraction and exponent and a [float] otherwise. *)
Definition scan_number (s : string) : option (result pyval * string) :=
  let '(neg, r0) :=
    match s with
    | String c r => if Ascii.eqb c "-" then (true, r) else (false, s)
    | EmptyString => (false, s)
    end in
  let int_part :=
    match r0 with
    | String c r =>
        if Ascii.eqb c "0" then Some r
        else if in_range 49 57 c then Some (snd (span is_digit r))
        else None
    | EmptyString => None
    end in
  match int_part with
  | None => None
  | Some r1 =>
      let frac :=
        match r1 with
        | String c r => if Ascii.eqb c "." then scan_digits_after r else None
        | EmptyString => None
        end in
      let r2 := match frac with Some r => r | None => r1 end in
      let expo :=
        match r2 with
        | String c r =>
            if Ascii.eqb (to_lower c) "e" then
              match r with
              | String sg r' =>
                  if Ascii.eqb sg "-" || Ascii.eqb sg "+"
                  then scan_digits_after r' else scan_digits_after r
              | EmptyString => None
              end
            else None
        | EmptyString => None
        end in
      let r3 := match expo with Some r => r | None => r2 end in
      match frac, expo with
      | None, None =>
          let n := match digits_value 0 (consumed r0 r1) with
                   | Some n => n | None => 0 end in
          Some (Ok (PInt (if neg then - n else n)), r3)
      | _, _ =>
          Some (x <- float_of_string (consumed s r3) ;; Ok (PFloat x), r3)
      end
  end.

Definition scan_constant (s : string) : option (pyval * string) :=
  match after_prefix "null" s with
  | Some r => Some (PNone, r)
  | None =>
  match after_prefix "true" s with
  | Some r => Some (PBool true, r)
  | None =>
  match after_prefix "false" s with
  | Some r => Some (PBool false, r)
  | None =>
  match after_prefix "NaN" s with
  | Some r => Some (PFloat S754_nan, r)
  | None =>
  match after_prefix "Infinity" s with
  | Some r => Some (PFloat (S754_infinity false), r)
  | None =>
  match after_prefix "-Infinity" s with
  | Some r => Some (PFloat (S754_infinity true), r)
  | None => None
  end end end end end end.

(** One value, the items of an array after its bracket and the pairs of
    an object after its brace.  Every call spends one unit of [fuel]; a
    text of [n] characters needs at most [2 * n + 2]. *)
Fixpoint parse_value (fuel : nat) (s : string) : result (pyval * string) :=
  match fuel with
  | O => Raise JSONDecodeError
  | S fuel' =>
      match s with
      | EmptyString => Raise JSONDecodeError
      | String c r =>
          if Ascii.eqb c dq then
            p <- scan_string r ;; Ok (PStr (fst p), snd p)
          else if Ascii.eqb c "{" then
            match skip_ws r with
            | String c1 r1 =>
                if Ascii.eqb c1 "}" then Ok (PDict [], r1)
                else
                  p <- parse_pairs fuel' (skip_ws r) [] ;;
                  Ok (PDict (fst p), snd p)
            | EmptyString => Raise JSONDecodeError
            end
          else if Ascii.eqb c "[" then
            match skip_ws r with
            | String c1 r1 =>
                if Ascii.eqb c1 "]" then Ok (PList [], r1)
                else
                  p <- parse_items fuel' (skip_ws r) [] ;;
                  Ok (PList (fst p), snd p)
            | EmptyString => Raise JSONDecodeError
            end
          else
            match scan_constant s with
            | Some p => Ok p
            | None =>
                match scan_number s with
                | Some (v, rest) => x <- v ;; Ok (x, rest)
                | None => Raise JSONDecodeError
                end
            end
      end
  end

with parse_items (fuel : nat) (s : string) (acc : list pyval)
  : result (list pyval * string) :=
  match fuel with
  | O => Raise JSONDecodeError
  | S fuel' =>
      p <- parse_value fuel' s ;;
      match skip_ws (snd p) with
      | String c r =>
          if Ascii.eqb c "," then parse_items fuel' (skip_ws r) (acc ++ [fst p])
          else if Ascii.eqb c "]" then Ok (acc ++ [fst p], r)
          else Raise JSONDecodeError
      | EmptyString => Raise JSONDecodeError
      end
  end

with parse_pairs (fuel : nat) (s : string) (acc : dict pyval)
  : result (dict pyval * string) :=
  match fuel with
  | O => Raise JSONDecodeError
  | S fuel' =>
      match s with
      | String c r =>
          if Ascii.eqb c dq then
            k <- scan_string r ;;
            match skip_ws (snd k) with
            | String c1 r1 =>
                if Ascii.eqb c1 ":" then
                  p <- parse_value fuel' (skip_ws r1) ;;
                  let acc' := dict_set (fst k) (fst p) acc in
                  match skip_ws (snd p) with
                  | String c2 r2 =>
                      if Ascii.eqb c2 "," then parse_pairs fuel' (skip_ws r2) acc'
                      else if Ascii.eqb c2 "}" then Ok (acc', r2)
                      else Raise JSONDecodeError
                  | EmptyString => Raise JSONDecodeError
                  end
                else Raise JSONDecodeError
            | EmptyString => Raise JSONDecodeError
            end
          else Raise JSONDecodeError
      | EmptyString => Raise JSONDecodeError
      end
  end.

(** [json.loads(text)]: one value between optional whitespace. *)
Definition json_loads (text : string) : result pyval :=
  p <- parse_value (2 * String.length text + 2) (skip_ws text) ;;
  if str_empty (skip_ws (snd p)) then Ok (fst p) else Raise JSONDecodeError.

(** [load_db_json(path)] *)
Definition load_db_json (fs : filesystem) (path : string) : result (list pyval) :=
  match fs path with
  | None => Raise FileNotFoundError
  | Some text =>
      data <- json_loads text ;;
      match data with
      | PList l => Ok l
      | _ => Raise ValueError
      end
  end.

(** A loaded value read back at the type [List[Dict[str, str]]] that
    [write_db_json] is declared on. *)
Definition str_of_py (v : pyval) : option string :=
  match v with PStr s => Some s | _ => None end.

Fixpoint all_some {A} (l : list (option A)) : option (list A) :=
  match l with
  | [] => Some []
  | Some a :: l' => option_map (cons a) (all_some l')
  | None :: _ => None
  end.

Definition flight_of_py (v : pyval) : option flight :=
  match v with
  | PDict d =>
      all_some (map (fun kv => option_map (pair (fst kv)) (str_of_py (snd kv))) d)
  | _ => None
  end.

Definition flights_of_py (l : list pyval) : option (list flight) :=
  all_some (map flight_of_py l).

(* ================================================================== *)
(** * The rest of the program

    [write_errors_txt], [load_queries], [run_queries_and_write_response]
    and the whole of [main], with what they call: [str] of an [int],
    [repr] of a [float], [json.dump] of any loaded value, the UTF-8
    codec of the files and [strftime].

    Further conventions.
    - A file on disk is its bytes; every [open] of the program names the
      encoding UTF-8.  A file that is read must hold the encoding of a
      text of code points below 256; the model follows no other file.
    - A path names a file by its spelling.
    - What the program prints is not modelled, only its files and the
      way it ends. *)

(* ================================================================== *)
(** ** [str(n)] and [repr(x)] *)

(** The decimal digits of [n] in front of [acc]. *)
Fixpoint digits_of (fuel : nat) (n : N) (acc : string) : string :=
  let acc' := String (ascii_of_N (48 + n mod 10)) acc in
  match fuel with
  | O => acc'
  | S fuel' => if (n <? 10)%N then acc' else digits_of fuel' (n / 10) acc'
  end.

Definition str_of_nat (n : N) : string :=
  digits_of (N.to_nat (N.log2 n)) n EmptyString.

(** [str(n)] *)
Definition str_of_int (n : Z) : string :=
  if n <? 0 then String "-" (str_of_nat (Z.to_N (- n)))
  else str_of_nat (Z.to_N n).

Definition zeros (n : nat) : string := String.concat EmptyString (repeat "0" n).

(** [s] without its trailing zeros. *)
Definition strip_zeros (s : string) : string := rstrip_by (Ascii.eqb "0") s.

(** A positive float is [num / den]. *)
Definition float_num (m : positive) (e : Z) : Z :=
  if 0 <=? e then Z.pos m * 2 ^ e else Z.pos m.
Definition float_den (e : Z) : Z :=
  if 0 <=? e then 1 else 2 ^ (- e).

(** The position of the decimal point: the [p] with
    [10^(p-1) <= num / den < 10^p]. *)
Definition decimal_point (num den : Z) : Z :=
  if den <=? num then Z.of_nat (String.length (str_of_nat (Z.to_N (num / den))))
  else 1 - Z.of_nat (String.length (str_of_nat (Z.to_N ((den - 1) / num)))).

(** The two decimals of [n] digits around [num / den], as integers to be
    scaled by [10^(p - n)], and which of them is nearer ([Eq] when the
    value is halfway). *)
Definition floor_scaled (num den p : Z) (n : Z) : Z :=
  if 0 <=? n - p then (num * 10 ^ (n - p)) / den
  else num / (den * 10 ^ (p - n)).

Definition nearer (num den p n lo : Z) : comparison :=
  if 0 <=? n - p then (2 * num * 10 ^ (n - p) ?= (2 * lo + 1) * den)
  else (2 * num ?= (2 * lo + 1) * den * 10 ^ (p - n)).

(** Does [float] read the decimal [d * 10^k] back as [x]? *)
Definition reads_back (x : spec_float) (d k : Z) : bool :=
  SFeqb (decimal_to_float false (str_of_nat (Z.to_N d)) k) x.

(** The shortest decimal that reads back as the positive float [x], and
    the nearest to [x] among the shortest: its digits [d] and exponent
    [k].  Seventeen digits always suffice. *)
Fixpoint shortest (fuel : nat) (x : spec_float) (num den p n : Z) : Z * Z :=
  let lo := floor_scaled num den p n in
  let hi := lo + 1 in
  let k := p - n in
  let near := nearer num den p n lo in
  let best :=
    match near with
    | Lt => lo
    | Gt => hi
    | Eq => if Z.even lo then lo else hi
    end in
  match fuel with
  | O => (best, k)
  | S fuel' =>
      match reads_back x lo k, reads_back x hi k with
      | true, true => (best, k)
      | true, false => (lo, k)
      | false, true => (hi, k)
      | false, false => shortest fuel' x num den p (n + 1)
      end
  end.

(** The digits of [repr] without trailing zeros, and the position of
    the decimal point in front of them. *)
Definition repr_digits (m : positive) (e : Z) : string * Z :=
  let num := float_num m e in
  let den := float_den e in
  let p := decimal_point num den in
  let '(d, k) := shortest 16 (S754_finite false m e) num den p 1 in
  let ds := str_of_nat (Z.to_N d) in
  (strip_zeros ds, Z.of_nat (String.length ds) + k).

(** The exponent of the scientific form: a sign and at least two
    digits. *)
Definition repr_exponent (x : Z) : string :=
  let a := str_of_nat (Z.to_N (Z.abs x)) in
  String (if x <? 0 then "-"%char else "+"%char)
         (if (String.length a <? 2)%nat then String "0" a else a).

(** The digits laid out as [repr] does: plain between [1e-4] and [1e16],
    scientific outside. *)
Definition repr_layout (ds : string) (decpt : Z) : string :=
  let n := Z.of_nat (String.length ds) in
  if (decpt <=? -4) || (16 <? decpt) then
    match ds with
    | String c EmptyString => (str1 c ++ "e" ++ repr_exponent (decpt - 1))%string
    | String c rest =>
        (str1 c ++ "." ++ rest ++ "e" ++ repr_exponent (decpt - 1))%string
    | EmptyString => EmptyString
    end
  else if decpt <=? 0 then ("0." ++ zeros (Z.to_nat (- decpt)) ++ ds)%string
  else if n <=? decpt then (ds ++ zeros (Z.to_nat (decpt - n)) ++ ".0")%string
  else (String.substring 0 (Z.to_nat decpt) ds ++ "." ++
        String.substring (Z.to_nat decpt) (Z.to_nat (n - decpt)) ds)%string.

(** [repr(x)] *)
Definition float_repr (x : spec_float) : string :=
  match x with
  | S754_nan => "nan"
  | S754_infinity s => if s then "-inf" else "inf"
  | S754_zero s => if s then "-0.0" else "0.0"
  | S754_finite s m e =>
      let '(ds, decpt) := repr_digits m e in
      ((if s then "-" else EmptyString) ++ repr_layout ds decpt)%string
  end.

(* ================================================================== *)
(** ** [json.dump(value, fh, indent=2, sort_keys=True)] for any value *)

(** A float as the encoder writes it. *)
Definition dump_float (x : spec_float) : string :=
  match x with
  | S754_nan => "NaN"
  | S754_infinity s => if s then "-Infinity" else "Infinity"
  | _ => float_repr x
  end.

(** A container with its items [items] already written, one per line
    at nesting level [level + 1]. *)
Definition dump_block (open close : string) (level : nat) (items : list string)
  : string :=
  match items with
  | [] => (open ++ close)%string
  | _ =>
      (open ++ newline_indent (2 * S level)
            ++ join ("," ++ newline_indent (2 * S level)) items
            ++ newline_indent (2 * level) ++ close)%string
  end.

Definition dump_pair (kv : string * string) : string :=
  (dump_str (fst kv) ++ ": " ++ snd kv)%string.

(** The text of [v] at nesting level [level].  The values of a
    dictionary are written first and the pairs sorted by key after,
    which gives the items in the order of [sort_keys=True]. *)
Fixpoint dump_value (level : nat) (v : pyval) : string :=
  match v with
  | PNone => "null"
  | PBool b => if b then "true" else "false"
  | PInt n => str_of_int n
  | PFloat x => dump_float x
  | PStr s => dump_str s
  | PList l => dump_block "[" "]" level (map (dump_value (S level)) l)
  | PDict d =>
      dump_block "{" "}" level
        (map dump_pair
           (sort_items (map (fun kv => (fst kv, dump_value (S level) (snd kv))) d)))
  end.

(** [json.dumps(v, indent=2, sort_keys=True)] *)
Definition json_dumps_py (v : pyval) : string := dump_value 0 v.

(* ================================================================== *)
(** ** Files on disk *)

(** The UTF-8 encoding of a character and of a text. *)
Definition utf8_char (c : ascii) : string :=
  if (code c <? 128)%N then str1 c
  else String (ascii_of_N (192 + code c / 64))
              (str1 (ascii_of_N (128 + code c mod 64))).

Fixpoint utf8_encode (s : string) : string :=
  match s with
  | EmptyString => EmptyString
  | String c r => (utf8_char c ++ utf8_encode r)%string
  end.

(** The text that [bytes] encode, when all its code points are below
    256. *)
Fixpoint utf8_decode (bytes : string) : option string :=
  match bytes with
  | EmptyString => Some EmptyString
  | String b r =>
      if (code b <? 128)%N then option_map (String b) (utf8_decode r)
      else if in_range 194 195 b then
        match r with
        | String b2 r2 =>
            if in_range 128 191 b2 then
              option_map
                (String (ascii_of_N ((code b - 192) * 64 + (code b2 - 128))))
                (utf8_decode r2)
            else None
        | EmptyString => None
        end
      else None
  end.

(** The files by their bytes, and the paths that [open(path, "w")]
    can open. *)
Record world : Type := mk_world {
  files : string -> option string;
  writable : string -> bool
}.

(** What [open(path, "r", encoding="utf-8")] finds. *)
Inductive reading : Type :=
| Absent                 (* no such file *)
| Beyond                 (* bytes that are no text of the model *)
| Text (text : string).

Definition read_text (w : world) (path : string) : reading :=
  match files w path with
  | None => Absent
  | Some bytes =>
      match utf8_decode bytes with
      | Some text => Text text
      | None => Beyond
      end
  end.

(** The decoded texts, as the functions above read them. *)
Definition text_view (w : world) : filesystem :=
  fun path =>
    match read_text w path with
    | Text text => Some text
    | _ => None
    end.

(** [with open(path, "w", encoding="utf-8") as fh: fh.write(...)];
    [None] when the file cannot be opened. *)
Definition write_bytes (w : world) (path bytes : string) : option world :=
  if writable w path
  then Some (mk_world (fs_write path bytes (files w)) (writable w))
  else None.

Definition write_text (w : world) (path text : string) : option world :=
  write_bytes w path (utf8_encode text).

(* ================================================================== *)
(** ** [write_errors_txt] *)

(** The arrow U+2192 of the format, in UTF-8. *)
Definition arrow : string :=
  String (ascii_of_N 226) (String (ascii_of_N 134) (str1 (ascii_of_N 146))).

(** The bytes of [f"Line {ln}: {original} → {explanation}\n"]. *)
Definition error_line (e : error_entry) : string :=
  let '(ln, original, explanation) := e in
  (utf8_encode ("Line " ++ str_of_int ln ++ ": " ++ original ++ " ")
     ++ arrow ++ utf8_encode (" " ++ explanation ++ str1 nl))%string.

Definition errors_bytes (errors : list error_entry) : string :=
  String.concat EmptyString (map error_line errors).

(** [write_errors_txt(errors, path)] *)
Definition write_errors_txt (w : world) (errors : list error_entry) (path : string)
  : option world :=
  write_bytes w path (errors_bytes errors).

(* ================================================================== *)
(** ** The evaluator on any loaded value

    [load_db_json] and [load_queries] hand over whatever the file
    holds, so [flight_matches_query] meets values that are no
    dictionaries. *)

Inductive signal : Type :=
| Python (e : exn)
| AttributeError
| KeyError
| OSError.

Inductive attempt (A : Type) : Type :=
| Returns (a : A)
| Raises (e : signal).
Arguments Returns {A} a.
Arguments Raises {A} e.

Definition attempt_bind {A B} (r : attempt A) (k : A -> attempt B) : attempt B :=
  match r with
  | Returns a => k a
  | Raises e => Raises e
  end.

Notation "x <~ r ;; k" := (attempt_bind r (fun x => k))
  (at level 61, r at next level, right associativity) : py_scope.

Definition lift {A} (r : result A) : attempt A :=
  match r with
  | Ok a => Returns a
  | Raise e => Raises (Python e)
  end.

(** [sub in s] on two [str] *)
Fixpoint substring_of (sub s : string) : bool :=
  String.prefix sub s ||
  match s with
  | String _ r => substring_of sub r
  | EmptyString => false
  end.

(** [key in q] *)
Definition contains (q : pyval) (key : string) : attempt bool :=
  match q with
  | PDict d => Returns (dict_mem key d)
  | PStr s => Returns (substring_of key s)
  | PList l => Returns (existsb (fun x => py_eq x (PStr key)) l)
  | _ => Raises (Python TypeError)
  end.

(** [q[key]] *)
Definition subscript (q : pyval) (key : string) : attempt pyval :=
  match q with
  | PDict d =>
      match dict_get key d with
      | Some v => Returns v
      | None => Raises KeyError
      end
  | _ => Raises (Python TypeError)
  end.

(** [f.get(key, default)] *)
Definition get_method (f : pyval) (key : string) (default : pyval) : attempt pyval :=
  match f with
  | PDict d => Returns (get_or d key default)
  | _ => Raises AttributeError
  end.

(** The loop of the exact matches: has it returned [False]? *)
Fixpoint exact_loop (f q : pyval) (ks : list string) : attempt bool :=
  match ks with
  | [] => Returns false
  | key :: rest =>
      has <~ contains q key ;;
      if has then
        a <~ get_method f key PNone ;;
        b <~ subscript q key ;;
        if py_ne a b then Returns true else exact_loop f q rest
      else exact_loop f q rest
  end.

(** [try: v = r  except Exception: v = d] *)
Definition attempt_or {A} (r : attempt A) (d : A) : A :=
  match r with
  | Returns a => a
  | Raises _ => d
  end.

(** The price filter: has it returned [False]? *)
Definition price_block (f q : pyval) : attempt bool :=
  has <~ contains q "price" ;;
  if has then
    Returns
      (attempt_or
         (qv <~ subscript q "price" ;;
          qprice <~ lift (py_float qv) ;;
          fv <~ get_method f "price" (PStr "0") ;;
          fprice <~ lift (py_float fv) ;;
          Returns (float_gt fprice qprice))
         true)
  else Returns false.

(** A date-time filter: has it returned [False]? *)
Definition date_block (want : comparison) (key : string) (f q : pyval)
  : attempt bool :=
  has <~ contains q key ;;
  if has then
    a <~ get_method f key PNone ;;
    b <~ subscript q key ;;
    lift (py_order want a b)
  else Returns false.

(** [flight_matches_query(f, q)] on any two values. *)
Definition flight_matches_query_py (f q : pyval) : attempt bool :=
  mismatch <~ exact_loop f q ["flight_id"; "origin"; "destination"] ;;
  if mismatch then Returns false
  else
    rejected <~ price_block f q ;;
    if rejected then Returns false
    else
      dep <~ date_block Lt "departure_datetime" f q ;;
      if dep then Returns false
      else
        arr <~ date_block Gt "arrival_datetime" f q ;;
        if arr then Returns false else Returns true.

(* ================================================================== *)
(** ** [load_queries] and [run_queries_and_write_response] *)

(** [load_queries(path)] *)
Definition load_queries (fs : filesystem) (path : string) : result (list pyval) :=
  match fs path with
  | None => Raise FileNotFoundError
  | Some text =>
      data <- json_loads text ;;
      match data with
      | PDict _ => Ok [data]
      | PList l => Ok l
      | _ => Raise ValueError
      end
  end.

Definition STUDENT_ID : string := "241ADB".
Definition STUDENT_NAME : string := "Dev".
Definition STUDENT_LASTNAME : string := "Talati".

(** [[f for f in flights if flight_matches_query(f, q)]] *)
Fixpoint matching (flights : list pyval) (q : pyval) : attempt (list pyval) :=
  match flights with
  | [] => Returns []
  | f :: rest =>
      keep <~ flight_matches_query_py f q ;;
      more <~ matching rest q ;;
      Returns (if keep then f :: more else more)
  end.

(** The loop over the queries, which builds [results]. *)
Fixpoint query_results (flights queries : list pyval) : attempt (list pyval) :=
  match queries with
  | [] => Returns []
  | q :: rest =>
      matches <~ matching flights q ;;
      more <~ query_results flights rest ;;
      Returns (PDict [("query", q); ("matches", PList matches)] :: more)
  end.

(** A field of [strftime] written with two digits. *)
Definition two_digits (n : Z) : string :=
  if n <? 10 then String "0" (str_of_int n) else str_of_int n.

(** [now.strftime("%Y%m%d_%H%M")]; the C library writes the year
    without padding, so with four digits from the year 1000 on. *)
Definition strftime (now : datetime) : string :=
  (str_of_int (year now) ++ two_digits (month now) ++ two_digits (day now)
     ++ "_" ++ two_digits (hour now) ++ two_digits (minute now))%string.

Definition response_name (now : datetime) : string :=
  ("response_" ++ STUDENT_ID ++ "_" ++ STUDENT_NAME ++ "_" ++ STUDENT_LASTNAME
     ++ "_" ++ strftime now ++ ".json")%string.

(** [run_queries_and_write_response(flights, queries)] at the time
    [now]: the files after it and the name it returns. *)
Definition run_queries_and_write_response
    (w : world) (now : datetime) (flights queries : list pyval)
  : attempt (world * string) :=
  results <~ query_results flights queries ;;
  let filename := response_name now in
  match write_text w filename (json_dumps_py (PList results)) with
  | Some w' => Returns (w', filename)
  | None => Raises OSError
  end.

(* ================================================================== *)
(** ** [main] *)

(** The command line as [parse_args] returns it: the two options of
    [arguments] and [-o], [-j], [-q]. *)
Record namespace : Type := mk_namespace {
  parsing : arguments;
  output_db : option string;
  json_db : option string;
  query_file : option string
}.

(** How a run ends: [main] returns (after it printed the name of the
    response file, if it wrote one), or [sys.exit(status)] ends it, or
    it met a file the model does not follow. *)
Inductive finish : Type :=
| Finished (w : world) (response : option string)
| Exited (status : Z) (w : world)
| Unmodelled.

(** One source parsed into the accumulator, from the disk. *)
Definition parse_source (w : world) (acc : batch) (path : string) : option (outcome batch) :=
  match read_text w path with
  | Beyond => None
  | _ => Some (parse_into (text_view w) acc path)
  end.

Fixpoint parse_sources (w : world) (acc : batch) (paths : list string)
  : option (outcome batch) :=
  match paths with
  | [] => Some (Done acc)
  | p :: rest =>
      match parse_source w acc p with
      | Some (Done acc') => parse_sources w acc' rest
      | other => other
      end
  end.

(** The parsing of the [else] branch, from the disk: [-i] first, then
    the files of [-d] in sorted order. *)
Definition parse_stage (w : world) (dirs : directories) (args : arguments)
  : option (outcome batch) :=
  let acc : batch := ([], [], 1) in
  let after_file :=
    match given (input_file args) with
    | Some p =>
        match files w p with
        | None => Some (Exit 2)                (* not os.path.isfile *)
        | Some _ => parse_source w acc p
        end
    | None => Some (Done acc)
    end in
  match after_file with
  | Some (Done acc1) =>
      match given (input_dir args) with
      | Some d =>
          match dirs d with
          | None => Some (Exit 2)              (* not os.path.isdir *)
          | Some found => parse_sources w acc1 (sorted_by str_leb found)
          end
      | None => Some (Done acc1)
      end
  | other => other
  end.

(** A file loaded as JSON by [load]: the value, a failure that ends
    the run, or a text the model does not follow. *)
Definition load_from {A} (load : filesystem -> string -> result A)
    (w : world) (path : string) : option (result A) :=
  match read_text w path with
  | Beyond => None
  | _ =>
      match load (text_view w) path with
      | Raise UnicodeOutOfModel => None
      | r => Some r
      end
  end.

(** The last part of [main]: the queries, if [-q] was given. *)
Definition query_stage (w : world) (now : datetime) (args : namespace)
    (flights : list pyval) : finish :=
  match given (query_file args) with
  | None => Finished w None
  | Some qpath =>
      match flights with
      | [] => Exited 2 w                       (* no flights loaded *)
      | _ =>
          match load_from load_queries w qpath with
          | None => Unmodelled
          | Some (Raise _) => Exited 2 w
          | Some (Ok queries) =>
              match run_queries_and_write_response w now flights queries with
              | Returns (w', resp) => Finished w' (Some resp)
              | Raises _ => Exited 2 w
              end
          end
      end
  end.

(** The middle part: [errors.txt], written only for a list that is
    not empty. *)
Definition errors_stage (w : world) (now : datetime) (args : namespace)
    (flights : list pyval) (all_errors : list error_entry) : finish :=
  match all_errors with
  | [] => query_stage w now args flights
  | _ =>
      match write_errors_txt w all_errors "errors.txt" with
      | None => Exited 2 w
      | Some w' => query_stage w' now args flights
      end
  end.

(** [main()], given the command line, the files, what [glob] finds and
    the time. *)
Definition main (w : world) (dirs : directories) (now : datetime)
    (args : namespace) : finish :=
  let db_path :=
    match given (output_db args) with Some p => p | None => "db.json" end in
  match given (json_db args) with
  | Some jpath =>
      match load_from load_db_json w jpath with
      | None => Unmodelled
      | Some (Raise _) => Exited 2 w
      | Some (Ok flights) => errors_stage w now args flights []
      end
  | None =>
      match parse_stage w dirs (parsing args) with
      | None => Unmodelled
      | Some (Exit status) => Exited status w
      | Some (Done (flights, all_errors, _)) =>
          let had_parsing :=
            match given (input_file (parsing args)), given (input_dir (parsing args)) with
            | None, None => false
            | _, _ => true
            end in
          match given (query_file args), had_parsing with
          | Some _, false => Exited 2 w
          | _, _ =>
              match write_text w db_path (json_dumps flights) with
              | None => Exited 2 w
              | Some w' =>
                  errors_stage w' now args
                    (map (fun f => PDict (py_of_flight f)) flights) all_errors
              end
          end
      end
  end.
(* ================================================================== *)
(** * The specification's vocabulary

    Definitions that follow the words of the specification, to be
    compared with the embedding above. *)

(** A reason that is reported when its rule is violated. *)
Definition reason_if (violated : bool) (reason : string) : list string :=
  if violated then [reason] else [].

Definition parses (s : string) : bool :=
  match strptime s with Ok _ => true | Raise _ => false end.

(** Rule 6 fires: both date-times parsed and the arrival is not strictly
    later than the departure. *)
Definition not_after (dep arr : string) : bool :=
  match strptime dep, strptime arr with
  | Ok d, Ok a => negb (dt_gt a d)
  | _, _ => false
  end.

(** Rule 7 is violated: the price does not parse or is not above 0.0. *)
Definition bad_price (price : string) : bool :=
  match float_of_string price with
  | Ok v => negb (float_gt v f_zero)
  | Raise _ => true
  end.

(** The reasons of the seven rules, in the order of the specification. *)
Definition rule_reasons (flight_id origin destination dep arr price : string)
  : list string :=
  reason_if (negb (matches flight_id_re flight_id)) "Invalid flight_id" ++
  reason_if (negb (matches airport_re origin)) "Invalid origin" ++
  reason_if (negb (matches airport_re destination)) "Invalid destination" ++
  reason_if (negb (parses dep)) "Invalid departure_datetime" ++
  reason_if (negb (parses arr)) "Invalid arrival_datetime" ++
  reason_if (not_after dep arr) "Arrival not after departure" ++
  reason_if (bad_price price) "Invalid price".


(** The five ways the line parser classifies a line. *)
Inductive line_class : Type :=
| Blank
| Comment
| WrongFieldCount
| Violations (reasons : list string)
| Valid (record : flight).

(** The fields of a line: split on [,], each trimmed of whitespace. *)
Definition fields_of (line : string) : list string :=
  map strip (split "," line).

(** The classification of one physical line, in the words of the
    specification: blank, comment, wrong number of fields, or a
    candidate that the record validator rejects or accepts. *)
Definition classify (raw : string) : line_class :=
  let line := rstrip_nl raw in
  if str_empty (strip line) then Blank
  else if startswith "#" (strip line) then Comment
  else
    match fields_of line with
    | [a; b; c; d; e; f] =>
        match rule_reasons a b c d e f with
        | [] => Valid [ ("flight_id", a); ("origin", b); ("destination", c);
                        ("departure_datetime", d); ("arrival_datetime", e);
                        ("price", f) ]
        | reasons => Violations reasons
        end
    | _ => WrongFieldCount
    end.

(** What a line contributes to the records and to the error entries
    when it carries the number [ln]. *)
Definition record_of (raw : string) : list flight :=
  match classify raw with
  | Valid record => [record]
  | _ => []
  end.

Definition entry_of (ln : Z) (raw : string) : list error_entry :=
  match classify raw with
  | Blank => []
  | Comment => [(ln, rstrip_nl raw, "Comment")]
  | WrongFieldCount => [(ln, rstrip_nl raw, "Invalid number of fields")]
  | Violations reasons => [(ln, rstrip_nl raw, join ", " reasons)]
  | Valid _ => []
  end.

Fixpoint entries_from (ln : Z) (lines : list string) : list error_entry :=
  match lines with
  | [] => []
  | raw :: rest => entry_of ln raw ++ entries_from (ln + 1) rest
  end.

Definition line_no (e : error_entry) : Z := fst (fst e).

Definition line_numbers (es : list error_entry) : list Z := map line_no es.

(** A source with a comment line, a blank line, a valid record, a line
    with two fields and a record that breaks three rules. *)
Definition sample_text : string :=
  String.concat (str1 nl)
    [ "#comment"; "";
      "AB12,JFK,LAX,2025-12-01 09:00,2025-12-01 12:00,199.99";
      "a,b";
      " A!, jkf ,LAX,2025-12-01 09:00,2025-12-01 12:00,0" ].

Definition second_text : string :=
  String.concat (str1 nl)
    [ "CD34,SFO,LAX,2025/12/01 09:00,2025-12-01 08:00,100";
      "# trailing note"; "" ].

Definition sample_fs : filesystem :=
  fun p =>
    if String.eqb p "a.csv" then Some sample_text
    else if String.eqb p "dir/b.csv" then Some second_text
    else None.

Definition sample_dirs : directories :=
  fun d => if String.eqb d "dir" then Some ["dir/b.csv"] else None.

(** "A string of 2 to 8 alphanumeric characters" and "exactly 3
    uppercase letters", as the specification words the fields. *)
Definition alnum_2_8 (s : string) : bool :=
  all_chars is_alnum s && Nat.leb 2 (String.length s) && Nat.leb (String.length s) 8.

Definition upper_3 (s : string) : bool :=
  all_chars is_upper s && Nat.eqb (String.length s) 3.

Definition with_newline (s : string) : string := (s ++ str1 nl)%string.

(** The value of a string of decimal digits. *)
Definition dec (s : string) : Z :=
  match digits_value 0 s with Some n => n | None => 0 end.

(** A number written with one or two digits, between [lo] and [hi]. *)
Definition num_token (lo hi : Z) (t : string) : Prop :=
  all_chars is_digit t = true /\
  (1 <= String.length t <= 2)%nat /\
  lo <= dec t <= hi.

(** A year written with four digits. *)
Definition year_token (t : string) : Prop :=
  all_chars is_digit t = true /\ String.length t = 4%nat.

(** A day of value [v]: one or two digits, or a space and a digit
    1..9. *)
Definition day_token (t : string) (v : Z) : Prop :=
  (num_token 1 31 t /\ v = dec t) \/
  (exists c, t = String " " (str1 c) /\ in_range 49 57 c = true /\ v = digit_val c).

(** One or more whitespace characters. *)
Definition space_run (w : string) : Prop :=
  w <> EmptyString /\ all_chars isspace w = true.

(** What [strptime] takes for a date-time under ["%Y-%m-%d %H:%M"]: a
    four-digit year from 0001 on, month, day, hour and minute with one
    or two digits each (a leading zero is optional), any run of
    whitespace between date and time, and a day the month has. *)
Definition lenient_datetime (s : string) (dt : datetime) : Prop :=
  exists Y M D W H Mi : string,
    s = (Y ++ "-" ++ M ++ "-" ++ D ++ W ++ H ++ ":" ++ Mi)%string /\
    year_token Y /\ num_token 1 12 M /\ day_token D (day dt) /\
    space_run W /\ num_token 0 23 H /\ num_token 0 59 Mi /\
    dt = mk_datetime (dec Y) (dec M) (day dt) (dec H) (dec Mi) /\
    1 <= dec Y /\ day dt <= days_in_month (dec Y) (dec M).

(** The fixed format of the specification, [YYYY-MM-DD HH:MM]: sixteen
    characters, four digits for the year and two for month, day, hour
    and minute, and a date and a time that exist. *)
Definition fixed_format (s : string) : bool :=
  let Y := String.substring 0 4 s in
  let M := String.substring 5 2 s in
  let D := String.substring 8 2 s in
  let H := String.substring 11 2 s in
  let Mi := String.substring 14 2 s in
  Nat.eqb (String.length s) 16 &&
  all_chars is_digit (Y ++ M ++ D ++ H ++ Mi)%string &&
  String.eqb (String.substring 4 1 s) "-" &&
  String.eqb (String.substring 7 1 s) "-" &&
  String.eqb (String.substring 10 1 s) " " &&
  String.eqb (String.substring 13 1 s) ":" &&
  (1 <=? dec Y) && (1 <=? dec M) && (dec M <=? 12) &&
  (1 <=? dec D) && (dec D <=? days_in_month (dec Y) (dec M)) &&
  (dec H <=? 23) && (dec Mi <=? 59).


(** The valid record of the specification's example. *)
Definition sample_flight : flight :=
  make_flight [ "AB12"; "JFK"; "LAX"; "2025-12-01 09:00";
                "2025-12-01 12:00"; "199.99" ].

(** The six fields of a flight record. *)
Definition record_keys : list string :=
  [ "flight_id"; "origin"; "destination";
    "departure_datetime"; "arrival_datetime"; "price" ].

(** The record contains all six fields as strings. *)
Definition string_record (f : dict pyval) : Prop :=
  forall key, In key record_keys -> exists s, dict_get key f = Some (PStr s).

(** The date-time filters of the query, where present, are strings. *)
Definition text_dates (q : dict pyval) : Prop :=
  forall key v,
    In key ["departure_datetime"; "arrival_datetime"] ->
    dict_get key q = Some v -> exists s, v = PStr s.

Definition raises {A} (r : result A) : Prop := exists e, r = Raise e.

(** [d] without the key [k]. *)
Definition dict_remove {V} (k : string) (d : dict V) : dict V :=
  filter (fun kv => negb (String.eqb k (fst kv))) d.

(** A record that lacks its departure, and one that lacks its price. *)
Definition no_departure : dict pyval :=
  [ ("flight_id", PStr "AB12"); ("origin", PStr "LAX");
    ("destination", PStr "JFK"); ("arrival_datetime", PStr "2025-12-01 12:00");
    ("price", PStr "199.99") ].

Definition no_price : dict pyval :=
  [ ("flight_id", PStr "AB12"); ("origin", PStr "JFK");
    ("destination", PStr "LAX");
    ("departure_datetime", PStr "2025-12-01 09:00");
    ("arrival_datetime", PStr "2025-12-01 12:00") ].

(** What [json.load] returns for a flight that [write_db_json] wrote:
    the same items, in the alphabetical order of the file. *)
Definition loaded_flight (f : flight) : pyval :=
  PDict (py_of_flight (sort_items f)).

Definition sample_flights : list flight :=
  [ sample_flight;
    [ ("b", String dq (String bs (String nl "/ x"))); ("a", "x") ];
    [] ].

(** The separators and closers of the written text: items of an object
    at four spaces, objects of the list at two. *)
Definition sep4 : string := String "," (newline_indent 4).
Definition close2 : string := (newline_indent 2 ++ "}")%string.
Definition sep2 : string := String "," (newline_indent 2).
Definition close0 : string := (newline_indent 0 ++ "]")%string.

(** One pair read into the dictionary under construction. *)
Definition add_item (acc : dict pyval) (kv : string * string) : dict pyval :=
  dict_set (fst kv) (PStr (snd kv)) acc.

(** A list that is sorted step by step. *)
Definition in_order {A} (le : A -> A -> bool) (l : list A) : Prop :=
  LocallySorted (fun a b => le a b = true) l.

(** The largest number of items among the flights. *)
Definition max_items (fl : list flight) : nat :=
  fold_right (fun f m => Nat.max (List.length f) m) 0%nat fl.

(** The two loops inside [py_eq], by name. *)
Definition list_items_eq : list pyval -> list pyval -> bool :=
  fix items (l1 l2 : list pyval) : bool :=
    match l1, l2 with
    | [], [] => true
    | x :: l1', y :: l2' => (same_nan x y || py_eq x y) && items l1' l2'
    | _, _ => false
    end.

Definition dict_items_eq (d2 : list (string * pyval))
  : list (string * pyval) -> bool :=
  fix items (d : list (string * pyval)) : bool :=
    match d with
    | [] => true
    | (k, v) :: d' =>
        match dict_get k d2 with
        | Some w => (same_nan v w || py_eq v w) && items d'
        | None => false
        end
    end.

(** The date-time a text in the fixed format stands for. *)
Definition fixed_value (s : string) : datetime :=
  mk_datetime (dec (String.substring 0 4 s)) (dec (String.substring 5 2 s))
              (dec (String.substring 8 2 s)) (dec (String.substring 11 2 s))
              (dec (String.substring 14 2 s)).

Definition and_then (c k : comparison) : comparison :=
  match c with Eq => k | o => o end.

(** The text of a field of a record of strings. *)
Definition field (f : dict pyval) (key : string) : string :=
  match dict_get key f with Some (PStr s) => s | _ => EmptyString end.

(** The predicates of the specification, one per key of the query:
    exact string equality, [<=] on the prices read as floats, and the
    text order on the date-times. *)
Definition exact_holds (f q : dict pyval) (key : string) : bool :=
  match dict_get key q with
  | None => true
  | Some (PStr t) => String.eqb (field f key) t
  | Some _ => false
  end.

Definition price_holds (f q : dict pyval) : bool :=
  match dict_get "price" q with
  | None => true
  | Some qv =>
      match float_of_string (field f "price"), py_float qv with
      | Ok rp, Ok qp => float_le rp qp
      | _, _ => false
      end
  end.

Definition departure_holds (f q : dict pyval) : bool :=
  match dict_get "departure_datetime" q with
  | None => true
  | Some (PStr t) => str_leb t (field f "departure_datetime")
  | Some _ => false
  end.

Definition arrival_holds (f q : dict pyval) : bool :=
  match dict_get "arrival_datetime" q with
  | None => true
  | Some (PStr t) => str_leb (field f "arrival_datetime") t
  | Some _ => false
  end.

(** Every key present in the query satisfies its predicate. *)
Definition query_holds (f q : dict pyval) : bool :=
  exact_holds f q "flight_id" && exact_holds f q "origin" &&
  exact_holds f q "destination" && price_holds f q &&
  departure_holds f q && arrival_holds f q.

(** Neither price is read as a NaN. *)
Definition no_nan_price (f q : dict pyval) : Prop :=
  forall qv rp qp,
    dict_get "price" q = Some qv ->
    float_of_string (field f "price") = Ok rp -> py_float qv = Ok qp ->
    is_nan rp = false /\ is_nan qp = false.

(** The entries are numbered in increasing order inside [lo, hi). *)
Definition numbered (lo hi : Z) (es : list error_entry) : Prop :=
  StronglySorted Z.lt (line_numbers es) /\
  Forall (fun e => lo <= line_no e < hi) es.

(** The invariant of the orchestrator's accumulator: the entries
    collected so far are numbered below the shared counter. *)
Definition batch_ok (acc : batch) : Prop :=
  let '(_, all_errors, next_ln) := acc in
  1 <= next_ln /\ numbered 1 next_ln all_errors.
(* ================================================================== *)
(** * Vocabulary of the further properties *)

(** A record as the line parser accepts it: the six fields in the order
    of the source, free of surrounding whitespace, and without a
    violation when they are validated again. *)
Definition accepted (f : flight) : Prop :=
  exists a b c d e p : string,
    f = [ ("flight_id", a); ("origin", b); ("destination", c);
          ("departure_datetime", d); ("arrival_datetime", e); ("price", p) ] /\
    validate_record [a; b; c; d; e; p] = Ok [] /\
    Forall (fun x => strip x = x) [a; b; c; d; e; p].

(** A line that the parser skips. *)
Definition is_blank (raw : string) : bool := str_empty (strip (rstrip_nl raw)).

(** The text with Windows line ends: CR LF for every LF. *)
Fixpoint to_crlf (s : string) : string :=
  match s with
  | EmptyString => EmptyString
  | String c r =>
      if Ascii.eqb c nl then String cr (String nl (to_crlf r))
      else String c (to_crlf r)
  end.

(** The last character of a text is an end of line. *)
Fixpoint ends_line (s : string) : bool :=
  match s with
  | EmptyString => false
  | String c EmptyString => Ascii.eqb c nl || Ascii.eqb c cr
  | String _ r => ends_line r
  end.

(** The explanation a line is logged with, if it is logged. *)
Definition explanation_of (raw : string) : option string :=
  match classify raw with
  | Comment => Some "Comment"
  | WrongFieldCount => Some "Invalid number of fields"
  | Violations reasons => Some (join ", " reasons)
  | Blank | Valid _ => None
  end.

(** The inner function of [file_lines], by name: one more character in
    front of the first line. *)
Definition cons_char (c : ascii) (ls : list string) : list string :=
  match ls with
  | h :: t => String c h :: t
  | [] => [String c EmptyString]
  end.

(** Every filter of [q'] is a filter of [q], with the same value. *)
Definition sub_query (q' q : dict pyval) : Prop :=
  forall key v, dict_get key q' = Some v -> dict_get key q = Some v.

(** A value that is no object, string or array. *)
Definition scalar (v : pyval) : bool :=
  match v with
  | PNone | PBool _ | PInt _ | PFloat _ => true
  | PStr _ | PList _ | PDict _ => false
  end.

(** A printable ASCII character or a line feed. *)
Definition plain (c : ascii) : bool := in_range 32 126 c || Ascii.eqb c nl.

(** The flights of a parse as the values that [json] would load. *)
Definition py_of_flights (flights : list flight) : list pyval :=
  map (fun f => PDict (py_of_flight f)) flights.

(** The text has no line feed. *)
Definition one_line (s : string) : bool :=
  all_chars (fun c => negb (Ascii.eqb c nl)) s.

(** How often a character occurs in a text. *)
Fixpoint count_char (c : ascii) (s : string) : nat :=
  match s with
  | EmptyString => 0
  | String d r => ((if Ascii.eqb d c then 1 else 0) + count_char c r)%nat
  end.

(** The explanation of an entry. *)
Definition explanation (e : error_entry) : string := snd e.

(** An entry whose line and explanation have no line feed. *)
Definition loggable (e : error_entry) : Prop :=
  one_line (snd (fst e)) = true /\ one_line (explanation e) = true.

(** The path of the database: [-o], or [db.json]. *)
Definition db_path_of (args : namespace) : string :=
  match given (output_db args) with Some p => p | None => "db.json" end.


(** The command line without its [-q]. *)
Definition without_query (args : namespace) : namespace :=
  mk_namespace (parsing args) (output_db args) (json_db args) None.

(** The command line that loads the database [db] and runs the queries
    of [args]. *)
Definition load_and_query (db : string) (args : namespace) : namespace :=
  mk_namespace (mk_args None None) None (Some db) (query_file args).

(** [-i] or [-d] was given. *)
Definition had_parsing (args : namespace) : bool :=
  match given (input_file (parsing args)), given (input_dir (parsing args)) with
  | None, None => false
  | _, _ => true
  end.

(* ================================================================== *)
(** * Properties of the record validator *)

Lemma in_reason_if (b : bool) (r x : string) :
  In x (reason_if b r) <-> b = true /\ x = r.
Proof.
  destruct b; simpl; split; intros H.
  - destruct H as [H | []]. auto.
  - destruct H as [_ ->]. now left.
  - destruct H.
  - destruct H; discriminate.
Qed.

Lemma validate_record_reasons (flight_id origin destination dep arr price : string) :
  validate_record [flight_id; origin; destination; dep; arr; price] =
  Ok (rule_reasons flight_id origin destination dep arr price).
Proof.
  unfold validate_record, rule_reasons, parses, not_after, bad_price.
  destruct (matches flight_id_re flight_id), (matches airport_re origin),
    (matches airport_re destination), (strptime dep) as [d | ?],
    (strptime arr) as [a | ?]; simpl;
    try destruct (dt_gt a d); simpl;
    destruct (float_of_string price) as [v | ?]; simpl;
    try destruct (float_gt v f_zero); reflexivity.
Qed.

(** C1.  On six fields [validate_record] returns the reasons of the seven
    rules in the fixed order flight_id, origin, destination,
    departure_datetime, arrival_datetime, chronological check, price,
    every rule being evaluated; "Arrival not after departure" is among
    them exactly when both date-times parse and the arrival is not
    strictly later than the departure, and never when one of them failed
    to parse. *)
Theorem validate_record_fixed_order :
  forall flight_id origin destination dep arr price : string,
    validate_record [flight_id; origin; destination; dep; arr; price] =
      Ok (rule_reasons flight_id origin destination dep arr price)
    /\ (In "Arrival not after departure"
           (rule_reasons flight_id origin destination dep arr price)
        <-> exists d a, strptime dep = Ok d /\ strptime arr = Ok a
                        /\ dt_gt a d = false)
    /\ (parses dep = false \/ parses arr = false ->
        ~ In "Arrival not after departure"
            (rule_reasons flight_id origin destination dep arr price)).
Proof.
  intros flight_id origin destination dep arr price.
  assert (Hin : In "Arrival not after departure"
                  (rule_reasons flight_id origin destination dep arr price)
                <-> not_after dep arr = true).
  { unfold rule_reasons. rewrite !in_app_iff, !in_reason_if.
    split.
    - intros H.
      repeat (destruct H as [[_ H] | H]; [discriminate H |]).
      destruct H as [[H _] | [_ H]]; [exact H | discriminate H].
    - intros H. do 5 right. left. split; [exact H | reflexivity]. }
  split; [apply validate_record_reasons |].
  split.
  - rewrite Hin. unfold not_after.
    destruct (strptime dep) as [d | e1], (strptime arr) as [a | e2]; split;
      try (intros H; discriminate H);
      try (intros (d' & a' & H1 & H2 & _); discriminate).
    + intros H. exists d, a. repeat split. now destruct (dt_gt a d).
    + intros (d' & a' & H1 & H2 & H3).
      injection H1 as <-. injection H2 as <-. now rewrite H3.
  - rewrite Hin. unfold parses, not_after.
    intros [H | H];
      destruct (strptime dep), (strptime arr); try discriminate H;
      intros H'; discriminate H'.
Qed.

(* ================================================================== *)
(** * Properties of the line parser *)

Lemma str_empty_eqb (s : string) : String.eqb s EmptyString = str_empty s.
Proof. destruct s; reflexivity. Qed.

Lemma length_six {A} (l : list A) :
  Nat.eqb (List.length l) 6 = true ->
  exists a b c d e f, l = [a; b; c; d; e; f].
Proof.
  intros H. apply Nat.eqb_eq in H.
  do 6 (destruct l as [| ? l]; [discriminate H |]).
  destruct l; [| discriminate H]. repeat eexists.
Qed.

Lemma not_six_fields (l : list string) :
  Nat.eqb (List.length l) 6 = false ->
  match l with [_; _; _; _; _; _] => False | _ => True end.
Proof.
  intros H.
  do 6 (destruct l as [| ? l]; [exact I |]).
  destruct l; [discriminate H | exact I].
Qed.

(** One turn of the loop adds what the classification says and moves
    the counter by one. *)
Lemma parse_line_classify (st : parse_state) (raw : string) :
  parse_line st raw =
  Ok (mk_state (st_valid st ++ record_of raw)
               (st_errors st ++ entry_of (st_ln st) raw)
               (st_ln st + 1)).
Proof.
  unfold parse_line, record_of, entry_of, classify, fields_of.
  rewrite str_empty_eqb.
  destruct (str_empty (strip (rstrip_nl raw))).
  { unfold next_line. now rewrite !app_nil_r. }
  destruct (startswith "#" (strip (rstrip_nl raw))).
  { unfold next_line, add_error. simpl. now rewrite app_nil_r. }
  destruct (Nat.eqb (List.length (map strip (split "," (rstrip_nl raw)))) 6) eqn:Hlen.
  - apply length_six in Hlen as (a & b & c & d & e & f & ->). simpl negb. cbv iota.
    rewrite validate_record_reasons. simpl bind.
    destruct (rule_reasons a b c d e f); unfold next_line, add_error, add_valid; simpl;
      now rewrite ?app_nil_r.
  - simpl negb. cbv iota. apply not_six_fields in Hlen.
    destruct (map strip (split "," (rstrip_nl raw))) as [| ? [| ? [| ? [| ? [| ? [| ? [| ? ?]]]]]]];
      try contradiction; unfold next_line, add_error; simpl; now rewrite ?app_nil_r.
Qed.

Lemma for_each_parse_line (lines : list string) (st : parse_state) :
  for_each parse_line st lines =
  Ok (mk_state (st_valid st ++ flat_map record_of lines)
               (st_errors st ++ entries_from (st_ln st) lines)
               (st_ln st + Z.of_nat (List.length lines))).
Proof.
  revert st. induction lines as [| raw lines IH]; intros st.
  - simpl. rewrite !app_nil_r, Z.add_0_r. now destruct st.
  - cbn [for_each]. rewrite parse_line_classify. cbn [bind].
    rewrite IH. cbn [st_valid st_errors st_ln flat_map entries_from].
    rewrite <- !app_assoc. cbn [List.length]. rewrite Nat2Z.inj_succ.
    f_equal. f_equal. lia.
Qed.

(** C3.  [parse_csv_file] classifies every physical line of the source
    exactly one way and the result is what the classes say, line by
    line: a blank line gives nothing, a comment line an entry "Comment",
    a line without six fields an entry "Invalid number of fields", a
    rejected candidate an entry with its reasons joined by ", ", an
    accepted one a flight record; the counter advances by one for every
    line, whatever its class. *)
Theorem parse_csv_file_classifies :
  forall (fs : filesystem) (path text : string) (n : Z),
    fs path = Some text ->
    parse_csv_file fs path n =
      Ok (flat_map record_of (file_lines text),
          entries_from n (file_lines text),
          n + Z.of_nat (List.length (file_lines text))).
Proof.
  intros fs path text n Hfs. unfold parse_csv_file. rewrite Hfs.
  rewrite for_each_parse_line. reflexivity.
Qed.

Lemma parse_csv_file_classifies_witness :
  sample_fs "a.csv" = Some sample_text /\
  parse_csv_file sample_fs "a.csv" 1 =
    Ok (flat_map record_of (file_lines sample_text),
        entries_from 1 (file_lines sample_text),
        1 + Z.of_nat (List.length (file_lines sample_text))).
Proof.
  split; [reflexivity |].
  apply (parse_csv_file_classifies sample_fs "a.csv" sample_text 1).
  reflexivity.
Defined.

(** The example of the specification: a comment line, a blank line and
    records; the blank line leaves no trace but is counted. *)
Example parse_sample :
  parse_csv_file sample_fs "a.csv" 1 =
  Ok ([ [ ("flight_id", "AB12"); ("origin", "JFK"); ("destination", "LAX");
          ("departure_datetime", "2025-12-01 09:00");
          ("arrival_datetime", "2025-12-01 12:00"); ("price", "199.99") ] ],
      [ (1, "#comment", "Comment");
        (4, "a,b", "Invalid number of fields");
        (5, " A!, jkf ,LAX,2025-12-01 09:00,2025-12-01 12:00,0",
         "Invalid flight_id, Invalid origin, Invalid price") ],
      6).
Proof. vm_compute. reflexivity. Qed.

(* ================================================================== *)
(** * The line counter across sources *)

Lemma entry_of_cases (ln : Z) (raw : string) :
  entry_of ln raw = [] \/ exists line why, entry_of ln raw = [(ln, line, why)].
Proof.
  unfold entry_of. destruct (classify raw); eauto.
Qed.

Lemma numbered_weaken (lo lo' hi hi' : Z) (es : list error_entry) :
  lo' <= lo -> hi <= hi' -> numbered lo hi es -> numbered lo' hi' es.
Proof.
  intros Hlo Hhi [Hs Hf]. split; [exact Hs |].
  eapply Forall_impl; [| exact Hf]. simpl. intros e He. lia.
Qed.

Lemma numbered_nil (lo hi : Z) : numbered lo hi [].
Proof. split; constructor. Qed.

Lemma numbered_cons (lo hi ln : Z) (line why : string) (es : list error_entry) :
  lo <= ln < hi -> numbered (ln + 1) hi es ->
  numbered lo hi ((ln, line, why) :: es).
Proof.
  intros Hln [Hs Hf]. split.
  - cbn. constructor; [exact Hs |].
    unfold line_numbers. apply Forall_map.
    eapply Forall_impl; [| exact Hf]. simpl. intros e He. lia.
  - constructor; [unfold line_no; simpl; lia |].
    eapply Forall_impl; [| exact Hf]. simpl. intros e He. lia.
Qed.

Lemma numbered_app (lo mid hi : Z) (es1 es2 : list error_entry) :
  lo <= mid <= hi ->
  numbered lo mid es1 -> numbered mid hi es2 -> numbered lo hi (es1 ++ es2).
Proof.
  intros Hmid [Hs1 Hf1] H2.
  induction es1 as [| [[ln line] why] es1 IH].
  - simpl. eapply numbered_weaken; [| | exact H2]; lia.
  - cbn in Hs1. inversion Hs1 as [| ? ? Hs1' Hlt]; subst.
    inversion Hf1 as [| ? ? Hln Hf1']; subst. unfold line_no in Hln. simpl in Hln.
    specialize (IH Hs1' Hf1'). destruct IH as [Hs Hf].
    split.
    + cbn. unfold line_numbers in *. rewrite map_app. constructor.
      * rewrite <- map_app. exact Hs.
      * apply Forall_app. split; [exact Hlt |].
        apply Forall_map. destruct H2 as [_ Hf2].
        eapply Forall_impl; [| exact Hf2]. simpl. intros e He. lia.
    + simpl. constructor; [unfold line_no; simpl; lia | exact Hf].
Qed.

Lemma entries_from_numbered (lines : list string) (n : Z) :
  numbered n (n + Z.of_nat (List.length lines)) (entries_from n lines).
Proof.
  revert n. induction lines as [| raw lines IH]; intros n.
  - apply numbered_nil.
  - cbn [entries_from List.length]. rewrite Nat2Z.inj_succ.
    specialize (IH (n + 1)).
    replace (n + Z.succ (Z.of_nat (List.length lines)))
      with (n + 1 + Z.of_nat (List.length lines)) by lia.
    destruct (entry_of_cases n raw) as [-> | (line & why & ->)]; simpl.
    + eapply numbered_weaken; [| | exact IH]; lia.
    + apply numbered_cons; [lia | exact IH].
Qed.

Lemma strictly_sorted_NoDup (l : list Z) : StronglySorted Z.lt l -> NoDup l.
Proof.
  induction 1 as [| x l Hs IH Hlt]; constructor; [| exact IH].
  intros Hin. rewrite Forall_forall in Hlt. specialize (Hlt x Hin). lia.
Qed.

Lemma parse_into_ok (fs : filesystem) (acc acc' : batch) (path : string) :
  batch_ok acc -> parse_into fs acc path = Done acc' -> batch_ok acc'.
Proof.
  destruct acc as [[flights all_errors] next_ln]. intros [Hn Hnum].
  unfold parse_into, parse_csv_file.
  destruct (fs path) as [text |]; [| discriminate].
  rewrite for_each_parse_line. cbn. intros H. injection H as <-.
  pose proof (entries_from_numbered (file_lines text) next_ln) as He.
  split; [lia |].
  eapply numbered_app; [| exact Hnum | exact He]. lia.
Qed.

Lemma parse_all_ok (fs : filesystem) (paths : list string) (acc acc' : batch) :
  batch_ok acc -> parse_all fs acc paths = Done acc' -> batch_ok acc'.
Proof.
  revert acc. induction paths as [| p paths IH]; intros acc Hok.
  - simpl. intros H. injection H as <-. exact Hok.
  - simpl. destruct (parse_into fs acc p) as [acc1 |] eqn:Hp; [| discriminate].
    apply IH. eapply parse_into_ok; eassumption.
Qed.

Lemma main_parse_ok (fs : filesystem) (dirs : directories) (args : arguments)
      (acc : batch) :
  main_parse fs dirs args = Done acc -> batch_ok acc.
Proof.
  unfold main_parse.
  assert (H0 : batch_ok ([], [], 1)).
  { split; [lia | apply numbered_nil]. }
  destruct (given (input_file args)) as [p |].
  - destruct (fs p) as [text |] eqn:Hfs; [| discriminate].
    destruct (parse_into fs ([], [], 1) p) as [acc1 |] eqn:Hp; [| discriminate].
    pose proof (parse_into_ok _ _ _ _ H0 Hp) as H1.
    destruct (given (input_dir args)) as [d |].
    + destruct (dirs d) as [found |]; [| discriminate].
      intros H. eapply parse_all_ok; eassumption.
    + intros H. injection H as <-. exact H1.
  - destruct (given (input_dir args)) as [d |].
    + destruct (dirs d) as [found |]; [| discriminate].
      intros H. eapply parse_all_ok; eassumption.
    + intros H. injection H as <-. exact H0.
Qed.

(** C4.  Called with the starting number [n], [parse_csv_file] returns a
    next number [m] and error entries whose line numbers increase
    strictly and lie in [n, m - 1]; and when [main] threads the returned
    number from source to source, the line numbers of the combined error
    list increase strictly over the whole batch (so none occurs twice),
    from 1 up to the final counter, with no restart at a later source. *)
Theorem line_numbers_increase :
  forall (fs : filesystem) (dirs : directories) (args : arguments)
         (path text : string) (n : Z)
         (flights : list flight) (all_errors : list error_entry) (next_ln : Z),
    fs path = Some text ->
    main_parse fs dirs args = Done (flights, all_errors, next_ln) ->
    (exists v e m,
        parse_csv_file fs path n = Ok (v, e, m) /\
        n <= m /\
        StronglySorted Z.lt (line_numbers e) /\
        Forall (fun x => n <= line_no x <= m - 1) e)
    /\ StronglySorted Z.lt (line_numbers all_errors)
    /\ NoDup (line_numbers all_errors)
    /\ Forall (fun x => 1 <= line_no x <= next_ln - 1) all_errors.
Proof.
  intros fs dirs args path text n flights all_errors next_ln Hfs Hmain.
  split.
  - unfold parse_csv_file. rewrite Hfs, for_each_parse_line. cbn.
    destruct (entries_from_numbered (file_lines text) n) as [Hs Hf].
    do 3 eexists. split; [reflexivity |]. split; [lia |]. split; [exact Hs |].
    eapply Forall_impl; [| exact Hf]. simpl. intros x Hx. lia.
  - apply main_parse_ok in Hmain. destruct Hmain as [_ [Hs Hf]].
    split; [exact Hs |]. split; [apply strictly_sorted_NoDup, Hs |].
    eapply Forall_impl; [| exact Hf]. simpl. intros x Hx. lia.
Qed.

Lemma line_numbers_increase_witness :
  sample_fs "a.csv" = Some sample_text /\
  main_parse sample_fs sample_dirs (mk_args (Some "a.csv") (Some "dir")) =
    Done ([ make_flight ["AB12"; "JFK"; "LAX"; "2025-12-01 09:00";
                         "2025-12-01 12:00"; "199.99"] ],
          [ (1, "#comment", "Comment");
            (4, "a,b", "Invalid number of fields");
            (5, " A!, jkf ,LAX,2025-12-01 09:00,2025-12-01 12:00,0",
             "Invalid flight_id, Invalid origin, Invalid price");
            (6, "CD34,SFO,LAX,2025/12/01 09:00,2025-12-01 08:00,100",
             "Invalid departure_datetime");
            (7, "# trailing note", "Comment") ],
          8) /\
  StronglySorted Z.lt [1; 4; 5; 6; 7].
Proof.
  split; [reflexivity |].
  assert (Hmain :
    main_parse sample_fs sample_dirs (mk_args (Some "a.csv") (Some "dir")) =
    Done ([ make_flight ["AB12"; "JFK"; "LAX"; "2025-12-01 09:00";
                         "2025-12-01 12:00"; "199.99"] ],
          [ (1, "#comment", "Comment");
            (4, "a,b", "Invalid number of fields");
            (5, " A!, jkf ,LAX,2025-12-01 09:00,2025-12-01 12:00,0",
             "Invalid flight_id, Invalid origin, Invalid price");
            (6, "CD34,SFO,LAX,2025/12/01 09:00,2025-12-01 08:00,100",
             "Invalid departure_datetime");
            (7, "# trailing note", "Comment") ],
          8)) by (vm_compute; reflexivity).
  split; [exact Hmain |].
  exact (proj1 (proj2 (line_numbers_increase sample_fs sample_dirs
                         (mk_args (Some "a.csv") (Some "dir"))
                         "a.csv" sample_text 1 _ _ _ eq_refl Hmain))).
Defined.

(* ================================================================== *)
(** * The matcher: what [run] lists *)

Lemma in_shift (c : ascii) (l : list span_of) (m rest : string) :
  In (m, rest) (shift c l) <-> exists m', m = String c m' /\ In (m', rest) l.
Proof.
  unfold shift. rewrite in_map_iff. split.
  - intros ([m' r'] & Heq & Hin). injection Heq as <- <-. eauto.
  - intros (m' & -> & Hin). exists (m', rest). auto.
Qed.

(** A bounded repetition lists exactly the prefixes in the class whose
    length is within the bounds. *)
Lemma in_run_rep (p : ascii -> bool) (hi lo : nat) (s m rest : string) :
  In (m, rest) (run_rep p lo hi s) <->
  s = (m ++ rest)%string /\ all_chars p m = true /\
  (lo <= String.length m <= hi)%nat.
Proof.
  revert lo s m. induction hi as [| hi IH]; intros lo s m.
  - simpl. destruct s as [| c r]; simpl;
      (destruct (Nat.eqb_spec lo 0) as [-> | Hlo]; simpl; split;
       [ intros [H | []]; injection H as <- <-; repeat split; simpl; lia
       | intros (Hs & Hall & Hlen); destruct m; simpl in Hlen; [| lia];
         simpl in Hs; left; now subst
       | intros []
       | intros (Hs & Hall & Hlen); lia ]).
  - cbn [run_rep]. rewrite in_app_iff. split.
    + intros [H | H].
      * destruct s as [| c r]; [destruct H |].
        destruct (p c) eqn:Hc; [| destruct H].
        apply in_shift in H as (m' & -> & H). apply IH in H as (-> & Hall & Hlen).
        simpl. rewrite Hc, Hall. repeat split; lia.
      * destruct (Nat.eqb_spec lo 0) as [-> | Hlo]; [| destruct H].
        destruct H as [H | []]. injection H as <- <-. simpl. repeat split; lia.
    + intros (-> & Hall & Hlen). destruct m as [| c m']; simpl in *.
      * right. assert (lo = 0)%nat as -> by lia. now left.
      * apply andb_true_iff in Hall as [Hc Hall]. left. rewrite Hc.
        apply in_shift. exists m'. split; [reflexivity |].
        apply IH. repeat split; [exact Hall | lia | lia].
Qed.

Lemma matches_true_iff (r : regex) (s : string) :
  matches r s = true <-> exists x, In x (run r s).
Proof.
  unfold matches, re_match. destruct (run r s) as [| x l]; simpl; split.
  - discriminate.
  - intros [x []].
  - eauto.
  - reflexivity.
Qed.

Lemma at_dollar_iff (s : string) :
  at_dollar s = true <-> s = EmptyString \/ s = str1 nl.
Proof.
  destruct s as [| c [| c' r]]; simpl.
  - split; auto.
  - rewrite Ascii.eqb_eq. unfold str1. split.
    + intros ->. now right.
    + intros [H | H]; [discriminate | now injection H].
  - split; [discriminate |]. unfold str1. intros [H | H]; discriminate.
Qed.

(** A pattern [[p]{lo,hi}$] accepts the strings of [lo] to [hi]
    characters of the class and the same strings followed by one
    newline, and nothing else. *)
Lemma anchored_rep_accepts (p : ascii -> bool) (lo hi : nat) (s : string) :
  matches (RSeq (RRep p lo hi) RDollar) s = true <->
  exists body, all_chars p body = true /\
               (lo <= String.length body <= hi)%nat /\
               (s = body \/ s = with_newline body).
Proof.
  rewrite matches_true_iff. cbn [run]. split.
  - intros ([m rest] & Hin). apply in_flat_map in Hin as ([m1 r1] & H1 & H2).
    apply in_run_rep in H1 as (-> & Hall & Hlen).
    destruct (at_dollar r1) eqn:Hd; [| destruct H2].
    apply at_dollar_iff in Hd. exists m1. repeat split; try assumption; try lia.
    destruct Hd as [-> | ->]; [left | right; reflexivity].
    clear. induction m1; simpl; congruence.
  - intros (body & Hall & Hlen & Hs).
    assert (Hd : exists rest, s = (body ++ rest)%string /\ at_dollar rest = true).
    { destruct Hs as [-> | ->].
      - exists EmptyString. split; [| reflexivity]. clear. induction body; simpl; congruence.
      - exists (str1 nl). split; reflexivity. }
    destruct Hd as (rest & -> & Hd).
    exists ((body ++ EmptyString)%string, rest). apply in_flat_map.
    exists (body, rest). split.
    + apply in_run_rep. repeat split; try assumption; lia.
    + rewrite Hd. now left.
Qed.

Lemma flight_id_re_accepts (s : string) :
  matches flight_id_re s = true <->
  exists body, alnum_2_8 body = true /\ (s = body \/ s = with_newline body).
Proof.
  unfold flight_id_re. rewrite anchored_rep_accepts. unfold alnum_2_8.
  split; intros (body & H); exists body.
  - destruct H as (Hall & Hlen & Hs). split; [| exact Hs].
    rewrite Hall. cbn [andb]. apply andb_true_iff. split; apply Nat.leb_le; lia.
  - destruct H as (H & Hs). apply andb_true_iff in H as [H H3].
    apply andb_true_iff in H as [H1 H2].
    apply Nat.leb_le in H2, H3. auto.
Qed.

Lemma airport_re_accepts (s : string) :
  matches airport_re s = true <->
  exists body, upper_3 body = true /\ (s = body \/ s = with_newline body).
Proof.
  unfold airport_re. rewrite anchored_rep_accepts. unfold upper_3.
  split; intros (body & H); exists body.
  - destruct H as (Hall & Hlen & Hs). split; [| exact Hs].
    rewrite Hall. cbn [andb]. apply Nat.eqb_eq. lia.
  - destruct H as (H & Hs). apply andb_true_iff in H as [H1 H2].
    apply Nat.eqb_eq in H2. repeat split; try assumption; lia.
Qed.

(** C7.  The three patterns are not full-string matches: a field made of
    an accepted text and one trailing newline passes as well, so
    [validate_record] reports no violation for a flight_id, an origin
    and a destination that are not 2 to 8 alphanumeric characters or 3
    uppercase letters. *)
Theorem trailing_newline_accepted :
  alnum_2_8 (with_newline "AB12") = false /\
  upper_3 (with_newline "JFK") = false /\
  upper_3 (with_newline "LAX") = false /\
  validate_record [ with_newline "AB12"; with_newline "JFK"; with_newline "LAX";
                    "2025-12-01 09:00"; "2025-12-01 12:00"; "199.99" ] = Ok [].
Proof. vm_compute. repeat split. Qed.

(* ================================================================== *)
(** * What [strptime] accepts *)

Lemma append_assoc (a b c : string) : ((a ++ b) ++ c = a ++ (b ++ c))%string.
Proof. induction a as [| x a IH]; simpl; [reflexivity | now rewrite IH]. Qed.

Lemma append_nil_r (a : string) : (a ++ EmptyString)%string = a.
Proof. induction a as [| x a IH]; simpl; [reflexivity | now rewrite IH]. Qed.

Lemma all_chars_app (p : ascii -> bool) (a b : string) :
  all_chars p (a ++ b) = all_chars p a && all_chars p b.
Proof.
  induction a as [| x a IH]; simpl; [reflexivity |].
  rewrite IH. apply andb_assoc.
Qed.

Lemma length_app (a b : string) :
  String.length (a ++ b) = (String.length a + String.length b)%nat.
Proof. induction a as [| x a IH]; simpl; [reflexivity | now rewrite IH]. Qed.



Lemma in_range_iff (lo hi : N) (c : ascii) :
  in_range lo hi c = true <-> (lo <= code c <= hi)%N.
Proof.
  unfold in_range. rewrite andb_true_iff, !N.leb_le. tauto.
Qed.



Lemma dec_two (a b : ascii) :
  is_digit a = true -> is_digit b = true ->
  dec (String a (str1 b)) = 10 * digit_val a + digit_val b.
Proof.
  intros Ha Hb. unfold dec, str1. cbn [digits_value]. rewrite Ha, Hb. lia.
Qed.

Lemma digit_val_code (c : ascii) : digit_val c = Z.of_N (code c) - 48.
Proof. reflexivity. Qed.




Lemma two_digit_token (lo hi : Z) (a b : ascii) :
  is_digit a = true -> is_digit b = true ->
  lo <= 10 * digit_val a + digit_val b <= hi ->
  num_token lo hi (String a (str1 b)).
Proof.
  intros Ha Hb Hv. unfold num_token. rewrite (dec_two a b Ha Hb).
  split; [unfold str1; cbn [all_chars]; now rewrite Ha, Hb |].
  split; [simpl; lia | exact Hv].
Qed.







(** [int] on the text of a group. *)
Lemma digit_not_space (c : ascii) : is_digit c = true -> isspace c = false.
Proof.
  destruct c as [[] [] [] [] [] [] [] []]; intros H; try discriminate H; reflexivity.
Qed.

Lemma rstrip_digits (t : string) :
  all_chars is_digit t = true -> rstrip_by isspace t = t.
Proof.
  induction t as [| c t IH]; [reflexivity |]. cbn [all_chars rstrip_by].
  intros H. apply andb_true_iff in H as [Hc Ht].
  rewrite (IH Ht), (digit_not_space c Hc), andb_false_r. reflexivity.
Qed.

Lemma digits_value_some (t : string) (acc : Z) :
  all_chars is_digit t = true -> exists n, digits_value acc t = Some n.
Proof.
  revert acc. induction t as [| c t IH]; intros acc; cbn [all_chars digits_value].
  - eauto.
  - intros H. apply andb_true_iff in H as [Hc Ht]. rewrite Hc. now apply IH.
Qed.

Lemma py_int_digits (t : string) :
  all_chars is_digit t = true -> t <> EmptyString -> py_int t = Ok (dec t).
Proof.
  intros Hd Hne. unfold py_int, strip.
  assert (Hl : lstrip_by isspace t = t).
  { destruct t as [| c t]; [reflexivity |]. cbn [all_chars] in Hd.
    apply andb_true_iff in Hd as [Hc _]. cbn [lstrip_by].
    now rewrite (digit_not_space c Hc). }
  rewrite Hl, (rstrip_digits t Hd).
  destruct t as [| c t]; [contradiction |]. cbn [str_empty].
  unfold dec. destruct (digits_value_some (String c t) 0 Hd) as [n ->]. reflexivity.
Qed.

Lemma py_int_token (lo hi : Z) (t : string) :
  num_token lo hi t -> py_int t = Ok (dec t).
Proof.
  intros (Hd & Hl & _). apply py_int_digits; [exact Hd |].
  intros ->. simpl in Hl. lia.
Qed.

Lemma py_int_year (t : string) : year_token t -> py_int t = Ok (dec t).
Proof.
  intros [Hd Hl]. apply py_int_digits; [exact Hd |].
  intros ->. discriminate Hl.
Qed.

Lemma py_int_space_digit (c : ascii) :
  in_range 49 57 c = true -> py_int (String " " (str1 c)) = Ok (digit_val c).
Proof.
  intros Hc.
  assert (Hd : is_digit c = true) by (revert Hc; unfold is_digit; rewrite !in_range_iff; lia).
  unfold py_int, strip, str1. cbn [lstrip_by]. change (isspace " ") with true. cbv iota.
  rewrite (digit_not_space c Hd).
  replace (rstrip_by isspace (String c EmptyString)) with (String c EmptyString)
    by (symmetry; apply rstrip_digits; cbn [all_chars]; now rewrite Hd).
  cbn [str_empty digits_value]. rewrite Hd. reflexivity.
Qed.


Lemma new_datetime_ok (y m d h mi : Z) (dt : datetime) :
  new_datetime y m d h mi = Ok dt <->
  dt = mk_datetime y m d h mi /\
  1 <= y <= 9999 /\ 1 <= m <= 12 /\ 1 <= d <= days_in_month y m /\
  0 <= h <= 23 /\ 0 <= mi <= 59.
Proof.
  unfold new_datetime.
  destruct ((1 <=? y) && (y <=? 9999) && (1 <=? m) && (m <=? 12) && (1 <=? d)
            && (d <=? days_in_month y m) && (0 <=? h) && (h <=? 23)
            && (0 <=? mi) && (mi <=? 59)) eqn:E.
  - repeat (apply andb_true_iff in E as [E ?]).
    repeat match goal with H : (_ <=? _) = true |- _ => apply Z.leb_le in H end.
    split; [intros H'; injection H' as <-; repeat split; lia | intros [-> _]; reflexivity].
  - split; [discriminate |]. intros (_ & H1 & H2 & H3 & H4 & H5).
    assert (E' : (1 <=? y) && (y <=? 9999) && (1 <=? m) && (m <=? 12) && (1 <=? d)
            && (d <=? days_in_month y m) && (0 <=? h) && (h <=? 23)
            && (0 <=? mi) && (mi <=? 59) = true).
    { repeat (apply andb_true_iff; split); apply Z.leb_le; lia. }
    congruence.
Qed.



(** ** The first match of a text of the lenient shape *)

Lemma is_digit_cases (c : ascii) :
  is_digit c = true ->
  In c ["0"; "1"; "2"; "3"; "4"; "5"; "6"; "7"; "8"; "9"]%char.
Proof.
  destruct c as [[] [] [] [] [] [] [] []]; intros H; try discriminate H;
    simpl; tauto.
Qed.

Lemma isspace_cases (c : ascii) :
  isspace c = true ->
  In c (map ascii_of_N [9; 10; 11; 12; 13; 28; 29; 30; 31; 32; 133; 160]%N).
Proof.
  destruct c as [[] [] [] [] [] [] [] []]; intros H; try discriminate H;
    simpl; tauto.
Qed.

(** The one- and two-digit tokens, one concrete text per goal. *)
Ltac enum_digit H :=
  apply is_digit_cases in H; cbn [In] in H;
  repeat (destruct H as [<- | H]); [.. | contradiction].

Ltac enum_token Hd Hl :=
  match type of Hd with
  | all_chars is_digit ?t = true =>
      destruct t as [| ?a [| ?b [| ? ?]]]; cbn in Hl; try lia;
      cbn [all_chars] in Hd;
      repeat (let Hc := fresh "Hc" in apply andb_true_iff in Hd as [Hc Hd];
              enum_digit Hc)
  end.

Ltac out_of_range Hv := unfold dec in Hv; cbn in Hv; lia.

Lemma run_chr (c : ascii) (r : string) : run (chr c) (String c r) = [(str1 c, r)].
Proof. unfold chr. cbn [run]. now rewrite Ascii.eqb_refl. Qed.

Lemma stage_Y (Y r : string) :
  year_token Y -> run re_Y (Y ++ r) = [(Y, r)].
Proof.
  intros [Hd Hl].
  do 4 (destruct Y as [| ? Y]; [discriminate Hl |]).
  destruct Y; [| discriminate Hl].
  cbn [all_chars] in Hd.
  repeat (let Hc := fresh "Hc" in apply andb_true_iff in Hd as [Hc Hd]).
  unfold re_Y, dig. cbn [run String.append].
  rewrite Hc. cbn [flat_map map]. rewrite Hc0. cbn [flat_map map app].
  rewrite Hc1. cbn [flat_map map app]. rewrite Hc2. reflexivity.
Qed.

Lemma stage_m {A} (M r : string) (K : string -> string -> list A) :
  num_token 1 12 M ->
  flat_map (fun '(gm, s3) =>
              flat_map (fun '(_, s4) => K gm s4) (run (chr "-") s3))
           (run re_m (M ++ String "-" r)) = K M r.
Proof.
  intros (Hd & Hl & Hv).
  enum_token Hd Hl; try (exfalso; out_of_range Hv);
    simpl; rewrite ?app_nil_r; reflexivity.
Qed.

Lemma stage_H {A} (H r : string) (K : string -> string -> list A) :
  num_token 0 23 H ->
  flat_map (fun '(gH, s7) =>
              flat_map (fun '(_, s8) => K gH s8) (run (chr ":") s7))
           (run re_H (H ++ String ":" r)) = K H r.
Proof.
  intros (Hd & Hl & Hv).
  enum_token Hd Hl; try (exfalso; out_of_range Hv);
    simpl; rewrite ?app_nil_r; reflexivity.
Qed.

Lemma stage_M (Mi : string) :
  num_token 0 59 Mi -> exists tl, run re_M Mi = (Mi, EmptyString) :: tl.
Proof.
  intros (Hd & Hl & Hv).
  enum_token Hd Hl; try (exfalso; out_of_range Hv);
    simpl; eexists; reflexivity.
Qed.

Ltac enum_space H :=
  apply isspace_cases in H; cbn [In map] in H;
  repeat (destruct H as [<- | H]); [.. | contradiction].

Lemma stage_d {A} (D r : string) (v : Z) (w : ascii)
      (K : string -> string -> list A) :
  day_token D v -> isspace w = true ->
  flat_map (fun '(gd, s5) =>
              flat_map (fun '(_, s6) => K gd s6) (run (RPlus isspace) s5))
           (run re_d (D ++ String w r)) =
  flat_map (fun '(_, s6) => K D s6) (run (RPlus isspace) (String w r)).
Proof.
  intros [[(Hd & Hl & Hv) _] | (c & -> & Hc & _)] Hw.
  - enum_space Hw;
      enum_token Hd Hl; try (exfalso; out_of_range Hv);
      simpl; rewrite ?app_nil_r; reflexivity.
  - assert (Hd : is_digit c = true)
      by (revert Hc; unfold is_digit; rewrite !in_range_iff; lia).
    enum_space Hw; enum_digit Hd; try discriminate Hc;
      simpl; rewrite ?app_nil_r; reflexivity.
Qed.

(** After a run of whitespace that a non-space character follows, the
    greedy [\s+] is tried with the whole run first, and every shorter
    try leaves a space in front. *)
Lemma run_star_greedy (p : ascii -> bool) (W r : string) :
  all_chars p W = true ->
  match r with String c _ => p c = false | EmptyString => True end ->
  exists tl, run_star p (W ++ r) = (W, r) :: tl /\
             Forall (fun x => exists c y, snd x = String c y /\ p c = true) tl.
Proof.
  intros HW Hr. induction W as [| c W IH].
  - exists []. split; [| constructor]. destruct r as [| c r]; simpl; [reflexivity |].
    now rewrite Hr.
  - cbn [all_chars] in HW. apply andb_true_iff in HW as [Hc HW].
    destruct (IH HW) as (tl & E & Htl).
    exists (shift c tl ++ [(EmptyString, String c (W ++ r))]).
    cbn [String.append run_star]. rewrite Hc, E. split; [reflexivity |].
    apply Forall_app. split.
    + unfold shift. apply Forall_map. eapply Forall_impl; [| exact Htl].
      intros [m x]. simpl. auto.
    + constructor; [| constructor]. simpl. eauto.
Qed.

Lemma flat_map_vanish {A B} (g : A -> list B) (l : list A) :
  Forall (fun x => g x = []) l -> flat_map g l = [].
Proof.
  induction 1 as [| x l Hx _ IH]; simpl; [reflexivity |]. now rewrite Hx, IH.
Qed.

Lemma stage_ws {A} (W r : string) (G : string -> list A) :
  space_run W ->
  (forall c y, isspace c = true -> G (String c y) = []) ->
  match r with String c _ => isspace c = false | EmptyString => True end ->
  flat_map (fun '(_, s6) => G s6) (run (RPlus isspace) (W ++ r)) = G r.
Proof.
  intros [Hne HW] HG Hr. destruct W as [| c W]; [contradiction |].
  cbn [all_chars] in HW. apply andb_true_iff in HW as [Hc HW].
  cbn [run String.append]. rewrite Hc.
  destruct (run_star_greedy isspace W r HW Hr) as (tl & -> & Htl).
  cbn [shift map flat_map].
  rewrite flat_map_vanish; [apply app_nil_r |].
  apply Forall_map. eapply Forall_impl; [| exact Htl].
  intros [m x] (c' & y & Hx & Hc'). simpl in Hx. subst x. now apply HG.
Qed.

Lemma run_re_H_space (c : ascii) (y : string) :
  isspace c = true -> run re_H (String c y) = [].
Proof. intros Hc. enum_space Hc; reflexivity. Qed.

Lemma token_head_digit (lo hi : Z) (t r : string) :
  num_token lo hi t ->
  match (t ++ r)%string with
  | String c _ => isspace c = false
  | EmptyString => True
  end.
Proof.
  intros (Hd & Hl & _). destruct t as [| c t]; [simpl in Hl; lia |].
  cbn [all_chars] in Hd. apply andb_true_iff in Hd as [Hc _].
  simpl. now apply digit_not_space.
Qed.

(** The matches of a text of the lenient shape: the groups are the
    tokens, and only the minute may be matched in more than one way. *)
Lemma strptime_run_tokens (Y M D W H Mi : string) (v : Z) :
  year_token Y -> num_token 1 12 M -> day_token D v -> space_run W ->
  num_token 0 23 H ->
  strptime_run (Y ++ "-" ++ M ++ "-" ++ D ++ W ++ H ++ ":" ++ Mi) =
  map (fun '(gM, s9) => mk_found Y M D H gM s9) (run re_M Mi).
Proof.
  intros HY HM HD HW HH. unfold strptime_run.
  rewrite (stage_Y Y _ HY). cbn [flat_map String.append]. rewrite app_nil_r.
  rewrite run_chr. cbn [flat_map]. rewrite app_nil_r.
  rewrite (stage_m M _ _ HM).
  destruct W as [| w W'] eqn:EW; [destruct HW as [HW _]; contradiction |].
  assert (Hw : isspace w = true).
  { destruct HW as [_ HW]. cbn [all_chars] in HW.
    now apply andb_true_iff in HW as [HW _]. }
  cbn [String.append].
  rewrite (stage_d D _ v w _ HD Hw).
  change (String w (W' ++ H ++ String ":" Mi))%string
    with (String w W' ++ (H ++ String ":" Mi))%string.
  rewrite (stage_ws (String w W') _ _ HW).
  - now rewrite (stage_H H _ _ HH).
  - intros c y Hc. now rewrite run_re_H_space.
  - eapply token_head_digit; exact HH.
Qed.

Lemma digit_val_range (c : ascii) : is_digit c = true -> 0 <= digit_val c <= 9.
Proof. unfold is_digit. rewrite in_range_iff, digit_val_code. lia. Qed.

Lemma dec_year (a b c d : ascii) :
  is_digit a = true -> is_digit b = true -> is_digit c = true -> is_digit d = true ->
  dec (String a (String b (String c (str1 d)))) =
  1000 * digit_val a + 100 * digit_val b + 10 * digit_val c + digit_val d.
Proof.
  intros Ha Hb Hc Hd. unfold dec, str1. cbn [digits_value].
  rewrite Ha, Hb, Hc, Hd. lia.
Qed.

Lemma dec_year_bound (Y : string) : year_token Y -> 0 <= dec Y <= 9999.
Proof.
  intros [Hd Hl].
  do 4 (destruct Y as [| ? Y]; [discriminate Hl |]).
  destruct Y; [| discriminate Hl].
  cbn [all_chars] in Hd.
  repeat (let Hc := fresh "Hc" in apply andb_true_iff in Hd as [Hc Hd]).
  change (String a2 EmptyString) with (str1 a2).
  rewrite dec_year by assumption.
  pose proof (digit_val_range _ Hc). pose proof (digit_val_range _ Hc0).
  pose proof (digit_val_range _ Hc1). pose proof (digit_val_range _ Hc2). lia.
Qed.

Lemma day_token_value (D : string) (v : Z) :
  day_token D v -> py_int D = Ok v /\ 1 <= v.
Proof.
  intros [[H ->] | (c & -> & Hc & ->)].
  - split; [eapply py_int_token; exact H | destruct H as (_ & _ & H); lia].
  - split; [now apply py_int_space_digit |].
    revert Hc. rewrite in_range_iff, digit_val_code. lia.
Qed.

(** A text of the lenient shape is read by [strptime]. *)
Lemma strptime_complete (s : string) (dt : datetime) :
  lenient_datetime s dt -> strptime s = Ok dt.
Proof.
  intros (Y & M & D & W & H & Mi & -> & HY & HM & HD & HW & HH & HMi & Hdt & Hy & Hday).
  unfold strptime. rewrite (strptime_run_tokens Y M D W H Mi _ HY HM HD HW HH).
  destruct (stage_M Mi HMi) as [tl ->]. cbn [map unconverted str_empty g_Y g_m g_d g_H g_M].
  destruct (day_token_value D _ HD) as [HDv Hd1].
  rewrite (py_int_year _ HY), (py_int_token _ _ _ HM), HDv,
    (py_int_token _ _ _ HH), (py_int_token _ _ _ HMi).
  cbn [bind]. apply new_datetime_ok.
  pose proof (dec_year_bound Y HY).
  destruct HM as (_ & _ & HM). destruct HH as (_ & _ & HH). destruct HMi as (_ & _ & HMi).
  split; [exact Hdt | lia].
Qed.






(** C5.  A departure with a one-digit month, day and hour and an
    arrival with two spaces and a one-digit minute are not written in
    the fixed format [YYYY-MM-DD HH:MM], and [validate_record] reports
    neither: the line becomes a flight record. *)
Theorem one_digit_fields_accepted :
  fixed_format "2025-1-5 9:05" = false /\
  fixed_format "2025-01-05  12:5" = false /\
  validate_record [ "AB12"; "JFK"; "LAX"; "2025-1-5 9:05";
                    "2025-01-05  12:5"; "199.99" ] = Ok [] /\
  classify "AB12,JFK,LAX,2025-1-5 9:05,2025-01-05  12:5,199.99" =
    Valid (make_flight [ "AB12"; "JFK"; "LAX"; "2025-1-5 9:05";
                         "2025-01-05  12:5"; "199.99" ]).
Proof. vm_compute. repeat split; reflexivity. Qed.

(** ** The fixed format *)

Lemma eqb_str1 (c d : ascii) : String.eqb (str1 c) (str1 d) = true -> c = d.
Proof. intros H. apply String.eqb_eq in H. now injection H. Qed.

(** A text in the fixed format, taken apart. *)
Lemma fixed_format_inv (s : string) :
  fixed_format s = true ->
  exists y1 y2 y3 y4 m1 m2 d1 d2 h1 h2 n1 n2 : ascii,
    s = String y1 (String y2 (String y3 (String y4 (String "-"
        (String m1 (String m2 (String "-" (String d1 (String d2 (String " "
        (String h1 (String h2 (String ":" (String n1 (str1 n2)))))))))))))))
    /\ Forall (fun c => is_digit c = true)
              [y1; y2; y3; y4; m1; m2; d1; d2; h1; h2; n1; n2]
    /\ 1 <= dec (String y1 (String y2 (String y3 (str1 y4))))
    /\ 1 <= dec (String m1 (str1 m2)) <= 12
    /\ 1 <= dec (String d1 (str1 d2))
       <= days_in_month (dec (String y1 (String y2 (String y3 (str1 y4)))))
                        (dec (String m1 (str1 m2)))
    /\ dec (String h1 (str1 h2)) <= 23
    /\ dec (String n1 (str1 n2)) <= 59.
Proof.
  unfold fixed_format. intros H.
  repeat (apply andb_true_iff in H as [H ?]).
  apply Nat.eqb_eq in H.
  do 16 (destruct s as [| ? s]; [discriminate H |]).
  destruct s; [| discriminate H].
  cbn [String.substring String.append all_chars] in *.
  repeat match goal with
  | H : String.eqb (String _ EmptyString) _ = true |- _ =>
      apply eqb_str1 in H; subst
  | H : (_ <=? _) = true |- _ => apply Z.leb_le in H
  | H : _ && _ = true |- _ => apply andb_true_iff in H as [? H]
  end.
  do 12 eexists. split; [reflexivity |].
  split; [repeat constructor; assumption |].
  unfold str1. repeat split; assumption.
Qed.

Lemma two_digits_token (lo hi : Z) (a b : ascii) :
  is_digit a = true -> is_digit b = true ->
  lo <= dec (String a (str1 b)) <= hi -> num_token lo hi (String a (str1 b)).
Proof.
  intros Ha Hb Hv. rewrite (dec_two a b Ha Hb) in Hv. now apply two_digit_token.
Qed.

Lemma dec_two_nonneg (a b : ascii) :
  is_digit a = true -> is_digit b = true -> 0 <= dec (String a (str1 b)).
Proof.
  intros Ha Hb. rewrite (dec_two a b Ha Hb).
  pose proof (digit_val_range a Ha). pose proof (digit_val_range b Hb). lia.
Qed.

Lemma days_in_month_max (y m : Z) : days_in_month y m <= 31.
Proof.
  unfold days_in_month.
  destruct (m =? 2); [destruct (is_leap y); lia |].
  destruct ((m =? 4) || (m =? 6) || (m =? 9) || (m =? 11)); lia.
Qed.

(** Every text in the fixed format is read by [strptime], field by
    field. *)
Lemma fixed_format_strptime (s : string) :
  fixed_format s = true -> strptime s = Ok (fixed_value s).
Proof.
  intros H. apply fixed_format_inv in H.
  destruct H as (y1 & y2 & y3 & y4 & m1 & m2 & d1 & d2 & h1 & h2 & n1 & n2
                 & -> & Hd & Hy & Hm & Hday & Hh & Hn).
  repeat match goal with
  | H : Forall _ (_ :: _) |- _ =>
      let Hc := fresh "Hc" in inversion H as [| ? ? Hc H']; subst; clear H; rename H' into H
  end.
  apply strptime_complete. unfold fixed_value. cbn [String.substring].
  change (String ?a EmptyString) with (str1 a).
  exists (String y1 (String y2 (String y3 (str1 y4)))), (String m1 (str1 m2)),
    (String d1 (str1 d2)), " "%string, (String h1 (str1 h2)), (String n1 (str1 n2)).
  cbn [day].
  split; [reflexivity |].
  split; [split; [unfold str1; cbn [all_chars]; now rewrite Hc, Hc0, Hc1, Hc2 | reflexivity] |].
  split; [now apply two_digits_token |].
  split.
  { left. split; [| reflexivity]. apply two_digits_token; auto.
    pose proof (days_in_month_max
                  (dec (String y1 (String y2 (String y3 (str1 y4)))))
                  (dec (String m1 (str1 m2)))). lia. }
  split; [split; [discriminate | reflexivity] |].
  split; [apply two_digits_token; auto; split; [now apply dec_two_nonneg | lia] |].
  split; [apply two_digits_token; auto; split; [now apply dec_two_nonneg | lia] |].
  split; [reflexivity |]. lia.
Qed.

(** ** Text order and time order on the fixed format *)

Lemma str_compare_cons (a b : ascii) (s t : string) :
  str_compare (String a s) (String b t) =
  and_then (code a ?= code b)%N (str_compare s t).
Proof. cbn [str_compare]. now destruct (code a ?= code b)%N. Qed.

Lemma lex_compare_cons (x y : Z) (a b : list Z) :
  lex_compare (x :: a) (y :: b) = and_then (x ?= y) (lex_compare a b).
Proof. cbn [lex_compare]. now destruct (x ?= y). Qed.

Lemma digit_compare (a b : ascii) :
  (code a ?= code b)%N = (digit_val a ?= digit_val b).
Proof.
  rewrite !digit_val_code, <- N2Z.inj_compare.
  destruct (Z.compare_spec (Z.of_N (code a)) (Z.of_N (code b)));
    symmetry; [apply Z.compare_eq_iff | apply Z.compare_lt_iff | apply Z.compare_gt_iff]; lia.
Qed.

Ltac compare_cases :=
  repeat match goal with
  | |- context [?x ?= ?y] =>
      destruct (Z.compare_spec x y); cbn [and_then]
  end; try reflexivity; try lia.

Lemma compare_two (a b a' b' : ascii) (K : comparison) :
  is_digit a = true -> is_digit b = true ->
  is_digit a' = true -> is_digit b' = true ->
  and_then (code a ?= code a')%N (and_then (code b ?= code b')%N K) =
  and_then (dec (String a (str1 b)) ?= dec (String a' (str1 b'))) K.
Proof.
  intros Ha Hb Ha' Hb'. rewrite !digit_compare, !dec_two by assumption.
  pose proof (digit_val_range a Ha). pose proof (digit_val_range b Hb).
  pose proof (digit_val_range a' Ha'). pose proof (digit_val_range b' Hb').
  compare_cases.
Qed.

Lemma compare_four (a b c d a' b' c' d' : ascii) (K : comparison) :
  is_digit a = true -> is_digit b = true -> is_digit c = true -> is_digit d = true ->
  is_digit a' = true -> is_digit b' = true -> is_digit c' = true -> is_digit d' = true ->
  and_then (code a ?= code a')%N (and_then (code b ?= code b')%N
    (and_then (code c ?= code c')%N (and_then (code d ?= code d')%N K))) =
  and_then (dec (String a (String b (String c (str1 d))))
            ?= dec (String a' (String b' (String c' (str1 d'))))) K.
Proof.
  intros Ha Hb Hc Hd Ha' Hb' Hc' Hd'.
  rewrite !digit_compare, !dec_year by assumption.
  pose proof (digit_val_range a Ha). pose proof (digit_val_range b Hb).
  pose proof (digit_val_range c Hc). pose proof (digit_val_range d Hd).
  pose proof (digit_val_range a' Ha'). pose proof (digit_val_range b' Hb').
  pose proof (digit_val_range c' Hc'). pose proof (digit_val_range d' Hd').
  compare_cases.
Qed.

Lemma and_then_same (c : ascii) (K : comparison) :
  and_then (code c ?= code c)%N K = K.
Proof. now rewrite N.compare_refl. Qed.

(** On two texts in the fixed format the order of the texts is the
    order of the date-times. *)
Lemma fixed_format_order (s t : string) :
  fixed_format s = true -> fixed_format t = true ->
  str_compare s t = dt_compare (fixed_value s) (fixed_value t).
Proof.
  intros Hs Ht. apply fixed_format_inv in Hs, Ht.
  destruct Hs as (y1 & y2 & y3 & y4 & m1 & m2 & d1 & d2 & h1 & h2 & n1 & n2
                  & -> & Hd & _).
  destruct Ht as (y1' & y2' & y3' & y4' & m1' & m2' & d1' & d2' & h1' & h2' & n1' & n2'
                  & -> & Hd' & _).
  repeat match goal with
  | H : Forall _ (_ :: _) |- _ =>
      let Hc := fresh "Hc" in inversion H as [| ? ? Hc H']; subst; clear H; rename H' into H
  end.
  unfold dt_compare, dt_key, fixed_value, str1.
  cbn [String.substring year month day hour minute].
  rewrite !str_compare_cons, !lex_compare_cons.
  change (String ?a EmptyString) with (str1 a).
  rewrite compare_four by assumption. rewrite and_then_same.
  rewrite compare_two by assumption. rewrite and_then_same.
  rewrite compare_two by assumption. rewrite and_then_same.
  rewrite compare_two by assumption. rewrite and_then_same.
  rewrite compare_two by assumption. reflexivity.
Qed.

Lemma fixed_format_le (s t : string) :
  fixed_format s = true -> fixed_format t = true ->
  strptime s = Ok (fixed_value s) /\ strptime t = Ok (fixed_value t) /\
  str_leb s t = dt_le (fixed_value s) (fixed_value t).
Proof.
  intros Hs Ht. split; [now apply fixed_format_strptime |].
  split; [now apply fixed_format_strptime |].
  unfold str_leb, dt_le, dt_gt. rewrite (fixed_format_order s t Hs Ht).
  now destruct (dt_compare (fixed_value s) (fixed_value t)).
Qed.

(* ================================================================== *)
(** * Properties of the query predicate evaluator *)

(** The record of the specification's example, as a dictionary. *)
Lemma sample_record_valid :
  validate_record [ "AB12"; "JFK"; "LAX"; "2025-12-01 09:00";
                    "2025-12-01 12:00"; "199.99" ] = Ok [].
Proof. vm_compute. reflexivity. Qed.

(** The examples of the specification: an origin filter and a price
    filter given as a number. *)
Example query_origin :
  flight_matches_query (py_of_flight sample_flight) [("origin", PStr "JFK")] = Ok true /\
  flight_matches_query (py_of_flight sample_flight) [("origin", PStr "LAX")] = Ok false.
Proof. vm_compute. split; reflexivity. Qed.

Example query_price :
  flight_matches_query (py_of_flight sample_flight) [("price", PInt 200)] = Ok true /\
  flight_matches_query
    (py_of_flight (make_flight [ "AB12"; "JFK"; "LAX"; "2025-12-01 09:00";
                                 "2025-12-01 12:00"; "250.00" ]))
    [("price", PInt 200)] = Ok false.
Proof. vm_compute. split; reflexivity. Qed.

(** C2.  A query price that is not a number, the text [nan], is taken
    by [float] for a NaN; no record price is greater than a NaN, so the
    evaluator matches every record with a readable price, although the
    record's price is not [<=] the query's and the query's price is no
    real number. *)
Theorem nan_query_price_matches :
  float_of_string "nan" = Ok S754_nan /\
  (forall x, float_le x S754_nan = false) /\
  flight_matches_query (py_of_flight sample_flight) [("price", PStr "nan")] = Ok true /\
  flight_matches_query (py_of_flight sample_flight) [("price", PFloat S754_nan)] = Ok true.
Proof.
  split; [vm_compute; reflexivity |].
  split; [intros x; now destruct x |].
  split; vm_compute; reflexivity.
Qed.

(** C6.  A departure with a one-digit month passes the validator, and
    the evaluator, comparing texts, takes 1 September for not earlier
    than 1 October. *)
Theorem text_order_is_not_time_order :
  validate_record [ "AB12"; "JFK"; "LAX"; "2025-9-01 10:00";
                    "2025-9-01 12:00"; "199.99" ] = Ok [] /\
  strptime "2025-9-01 10:00" = Ok (mk_datetime 2025 9 1 10 0) /\
  strptime "2025-10-01 00:00" = Ok (mk_datetime 2025 10 1 0 0) /\
  dt_le (mk_datetime 2025 9 1 10 0) (mk_datetime 2025 10 1 0 0) = true /\
  str_leb "2025-9-01 10:00" "2025-10-01 00:00" = false /\
  flight_matches_query
    (py_of_flight (make_flight [ "AB12"; "JFK"; "LAX"; "2025-9-01 10:00";
                                 "2025-9-01 12:00"; "199.99" ]))
    [("departure_datetime", PStr "2025-10-01 00:00")] = Ok true.
Proof. vm_compute. repeat split; reflexivity. Qed.

(** ** Totality *)

Lemma py_order_text (want : comparison) (s t : string) :
  py_order want (PStr s) (PStr t) = Ok (comparison_eqb (str_compare s t) want).
Proof. reflexivity. Qed.

Lemma py_order_none (want : comparison) (v : pyval) :
  py_order want PNone v = Raise TypeError.
Proof. destruct v; reflexivity. Qed.

Lemma departure_total (f q : dict pyval) :
  string_record f -> text_dates q -> exists b, departure_rejects f q = Ok b.
Proof.
  intros Hf Hq. unfold departure_rejects, get, py_lt.
  destruct (dict_get "departure_datetime" q) as [qv |] eqn:E; [| eauto].
  destruct (Hq "departure_datetime" qv ltac:(simpl; tauto) E) as [t ->].
  destruct (Hf "departure_datetime" ltac:(simpl; tauto)) as [s ->].
  rewrite py_order_text. eauto.
Qed.

Lemma arrival_total (f q : dict pyval) :
  string_record f -> text_dates q -> exists b, arrival_rejects f q = Ok b.
Proof.
  intros Hf Hq. unfold arrival_rejects, get, py_gt.
  destruct (dict_get "arrival_datetime" q) as [qv |] eqn:E; [| eauto].
  destruct (Hq "arrival_datetime" qv ltac:(simpl; tauto) E) as [t ->].
  destruct (Hf "arrival_datetime" ltac:(simpl; tauto)) as [s ->].
  rewrite py_order_text. eauto.
Qed.

(** C9.  With all six fields of the record present
    as strings and the query's date-time filters given as strings, the
    evaluator returns a boolean.  A record without its
    departure_datetime makes a query with that key raise [TypeError]
    once the exact-match and price predicates have passed, and a record
    without its arrival_datetime once the departure predicate has passed
    as well; a predicate that fails earlier returns [False] before the
    missing field is looked at. *)
Theorem evaluator_totality :
  forall f q : dict pyval,
    (string_record f -> text_dates q ->
     exists b, flight_matches_query f q = Ok b)
    /\ (dict_get "departure_datetime" f = None ->
        dict_mem "departure_datetime" q = true ->
        exact_mismatch f q = false -> price_rejects f q = false ->
        flight_matches_query f q = Raise TypeError)
    /\ (dict_get "arrival_datetime" f = None ->
        dict_mem "arrival_datetime" q = true ->
        exact_mismatch f q = false -> price_rejects f q = false ->
        departure_rejects f q = Ok false ->
        flight_matches_query f q = Raise TypeError)
    /\ (exact_mismatch f q = true \/ price_rejects f q = true ->
        flight_matches_query f q = Ok false).
Proof.
  intros f q. unfold flight_matches_query. repeat split.
  - intros Hf Hq.
    destruct (exact_mismatch f q); [eauto |].
    destruct (price_rejects f q); [eauto |].
    destruct (departure_total f q Hf Hq) as [[] ->]; cbn [bind]; [eauto |].
    destruct (arrival_total f q Hf Hq) as [[] ->]; cbn [bind]; eauto.
  - intros Hf Hq -> ->. unfold departure_rejects, get, py_lt.
    unfold dict_mem in Hq.
    destruct (dict_get "departure_datetime" q); [| discriminate].
    rewrite Hf, py_order_none. reflexivity.
  - intros Hf Hq -> -> ->. cbn [bind]. unfold arrival_rejects, get, py_gt.
    unfold dict_mem in Hq.
    destruct (dict_get "arrival_datetime" q); [| discriminate].
    rewrite Hf, py_order_none. reflexivity.
  - intros [-> | ->]; [reflexivity |]. now destruct (exact_mismatch f q).
Qed.

Lemma sample_string_record : string_record (py_of_flight sample_flight).
Proof.
  intros key Hkey. cbn in Hkey.
  repeat (destruct Hkey as [<- | Hkey]; [eexists; reflexivity |]). contradiction.
Qed.

Lemma evaluator_totality_witness :
  (exists b,
     flight_matches_query (py_of_flight sample_flight)
       [("departure_datetime", PStr "2025-01-01 00:00")] = Ok b)
  /\ flight_matches_query no_departure
       [("departure_datetime", PStr "2025-01-01 00:00")] = Raise TypeError
  /\ flight_matches_query no_departure
       [("origin", PStr "JFK"); ("departure_datetime", PStr "2025-01-01 00:00")]
     = Ok false.
Proof.
  split; [| split].
  - apply (proj1 (evaluator_totality (py_of_flight sample_flight)
                    [("departure_datetime", PStr "2025-01-01 00:00")])).
    + exact sample_string_record.
    + intros key v Hkey Hv. cbn in Hkey.
      destruct Hkey as [<- | [<- | []]]; cbn in Hv;
        [injection Hv as <-; eauto | discriminate Hv].
  - apply (proj1 (proj2 (evaluator_totality no_departure
                    [("departure_datetime", PStr "2025-01-01 00:00")])));
      vm_compute; reflexivity.
  - apply (proj2 (proj2 (proj2 (evaluator_totality no_departure
              [("origin", PStr "JFK");
               ("departure_datetime", PStr "2025-01-01 00:00")])))).
    left. vm_compute. reflexivity.
Defined.

(** The wording of the specification fails twice: a record that lacks its departure still
    gets a decision when an earlier predicate fails, and a record with
    all six fields as strings raises on a date-time filter that is a
    number. *)
Lemma missing_field_not_always_error :
  ~ ((forall f q, string_record f -> exists b, flight_matches_query f q = Ok b)
     \/ (forall f q, dict_get "departure_datetime" f = None ->
                     dict_mem "departure_datetime" q = true ->
                     raises (flight_matches_query f q))).
Proof.
  intros [H | H].
  - destruct (H (py_of_flight sample_flight) [("departure_datetime", PInt 5)]
                sample_string_record) as [b Hb].
    vm_compute in Hb. discriminate Hb.
  - destruct (H no_departure
                [("origin", PStr "JFK");
                 ("departure_datetime", PStr "2025-01-01 00:00")]
                eq_refl eq_refl) as [e He].
    vm_compute in He. discriminate He.
Qed.

(** ** The price predicate *)

Lemma dict_get_remove_same {V} (k : string) (d : dict V) :
  dict_get k (dict_remove k d) = None.
Proof.
  induction d as [| [k' v] d IH]; [reflexivity |]. unfold dict_remove in *.
  cbn [filter fst]. destruct (String.eqb k k') eqn:E; cbn [negb]; [exact IH |].
  cbn [dict_get]. now rewrite E.
Qed.

Lemma dict_get_remove_other {V} (k k' : string) (d : dict V) :
  String.eqb k k' = false ->
  dict_get k' (dict_remove k d) = dict_get k' d.
Proof.
  intros Hk. induction d as [| [k0 v] d IH]; [reflexivity |]. unfold dict_remove in *.
  cbn [filter fst dict_get]. destruct (String.eqb k k0) eqn:E; cbn [negb].
  - apply String.eqb_eq in E. subst k0. rewrite String.eqb_sym, Hk. exact IH.
  - cbn [dict_get]. now rewrite IH.
Qed.

Lemma zero_not_above (x : spec_float) :
  float_le f_zero x = true -> float_gt f_zero x = false.
Proof. destruct x as [| [] | | [] ? ?]; intros H; try discriminate H; reflexivity. Qed.

(** Without the price filter the other predicates see the same query. *)
Lemma remove_price_others (f q : dict pyval) :
  exact_mismatch f (dict_remove "price" q) = exact_mismatch f q /\
  departure_rejects f (dict_remove "price" q) = departure_rejects f q /\
  arrival_rejects f (dict_remove "price" q) = arrival_rejects f q /\
  price_rejects f (dict_remove "price" q) = false.
Proof.
  unfold exact_mismatch, departure_rejects, arrival_rejects, price_rejects.
  cbn [existsb].
  rewrite !(dict_get_remove_other "price") by reflexivity.
  rewrite dict_get_remove_same. auto.
Qed.

(** What holds of the price filter.  With a price filter in the query
    the evaluator returns [False] when [float] raises on the query's
    price and also when it raises on the record's; and a record without
    a price is evaluated with the default ["0"], so that for every query
    price of value [>= 0] the price predicate holds and the decision is
    that of the query without its price filter. *)
Theorem price_filter_defaults :
  forall (f q : dict pyval) (qv : pyval),
    dict_get "price" q = Some qv ->
    (raises (py_float qv) -> flight_matches_query f q = Ok false)
    /\ (raises (py_float (get_or f "price" (PStr "0"))) ->
        flight_matches_query f q = Ok false)
    /\ (dict_get "price" f = None ->
        get_or f "price" (PStr "0") = PStr "0" /\
        float_of_string "0" = Ok f_zero /\
        forall qp, py_float qv = Ok qp -> float_le f_zero qp = true ->
                   price_rejects f q = false /\
                   flight_matches_query f q =
                   flight_matches_query f (dict_remove "price" q)).
Proof.
  intros f q qv Hq.
  assert (Hfalse : price_rejects f q = true -> flight_matches_query f q = Ok false).
  { intros H. unfold flight_matches_query. rewrite H. now destruct (exact_mismatch f q). }
  split; [| split].
  - intros [e He]. apply Hfalse. unfold price_rejects. rewrite Hq, He. reflexivity.
  - intros [e He]. apply Hfalse. unfold price_rejects. rewrite Hq, He.
    destruct (py_float qv); reflexivity.
  - intros Hf.
    assert (Hdef : get_or f "price" (PStr "0") = PStr "0")
      by (unfold get_or; now rewrite Hf).
    split; [exact Hdef |]. split; [vm_compute; reflexivity |].
    intros qp Hqp Hle.
    assert (Hp : price_rejects f q = false).
    { unfold price_rejects. rewrite Hq, Hqp, Hdef. cbn [bind py_float].
      change (float_of_string "0") with (Ok f_zero). cbn [bind try_except].
      now apply zero_not_above. }
    split; [exact Hp |].
    unfold flight_matches_query.
    destruct (remove_price_others f q) as (-> & -> & -> & ->). now rewrite Hp.
Qed.

Lemma price_filter_defaults_witness :
  flight_matches_query (py_of_flight sample_flight) [("price", PStr "cheap")] = Ok false
  /\ flight_matches_query [("price", PStr "n/a")] [("price", PInt 200)] = Ok false
  /\ (price_rejects no_price [("origin", PStr "JFK"); ("price", PInt 0)] = false /\
      flight_matches_query no_price [("origin", PStr "JFK"); ("price", PInt 0)] =
      flight_matches_query no_price
        (dict_remove "price" [("origin", PStr "JFK"); ("price", PInt 0)])).
Proof.
  split; [| split].
  - apply (proj1 (price_filter_defaults (py_of_flight sample_flight)
                    [("price", PStr "cheap")] (PStr "cheap") eq_refl)).
    exists ValueError. vm_compute. reflexivity.
  - apply (proj1 (proj2 (price_filter_defaults [("price", PStr "n/a")]
                           [("price", PInt 200)] (PInt 200) eq_refl))).
    exists ValueError. vm_compute. reflexivity.
  - apply (proj2 (proj2 (proj2 (proj2 (price_filter_defaults no_price
              [("origin", PStr "JFK"); ("price", PInt 0)] (PInt 0) eq_refl))
              eq_refl)) f_zero); vm_compute; reflexivity.
Defined.

(** C10.  A record price that [float] reads without raising need not
    be a real number: the text [nan] is read as a NaN.  No NaN is
    greater than the query's price, so the evaluator matches such a
    record under a price filter, although its price cannot be parsed as
    a real number and is not [<=] the query's.  (The validator rejects
    the price [nan]; such a record comes from a loaded database.) *)
Theorem nan_record_price_matches :
  float_of_string "nan" = Ok S754_nan /\
  (forall x, float_le S754_nan x = false) /\
  bad_price "nan" = true /\
  flight_matches_query
    (py_of_flight (make_flight [ "AB12"; "JFK"; "LAX"; "2025-12-01 09:00";
                                 "2025-12-01 12:00"; "nan" ]))
    [("price", PInt 200)] = Ok true /\
  flight_matches_query [("price", PStr "nan")] [("price", PInt 200)] = Ok true.
Proof.
  split; [vm_compute; reflexivity |].
  split; [intros x; reflexivity |].
  repeat split; vm_compute; reflexivity.
Qed.

(* ================================================================== *)
(** * The database artifact: write, load, write again *)

(** ** Strings *)

Lemma scan_escape_char (c : ascii) (r : string) :
  scan_string (escape_char c ++ r) = push c (scan_string r).
Proof.
  destruct c as [[] [] [] [] [] [] [] []]; reflexivity.
Qed.

Lemma scan_escape (s rest : string) :
  scan_string (escape s ++ String dq rest) = Ok (s, rest).
Proof.
  induction s as [| c s IH].
  - reflexivity.
  - cbn [escape]. rewrite append_assoc, scan_escape_char, IH. reflexivity.
Qed.

Lemma dump_str_head (s rest : string) :
  (dump_str s ++ rest)%string = String dq (escape s ++ String dq rest).
Proof.
  unfold dump_str, str1. cbn [String.append]. now rewrite append_assoc.
Qed.

Lemma dump_item_head (k v T : string) :
  (dump_item (k, v) ++ T)%string =
  String dq (escape k ++ String dq (String ":" (String " "
    (String dq (escape v ++ String dq T))))).
Proof.
  unfold dump_item. cbn [fst snd]. rewrite !append_assoc.
  rewrite dump_str_head. cbn [String.append]. rewrite dump_str_head. reflexivity.
Qed.

(** The equations of the decoder, one call at a time. *)
Lemma parse_pairs_eq (fuel : nat) (r : string) (acc : dict pyval) :
  parse_pairs (S fuel) (String dq r) acc =
  (k <- scan_string r ;;
   match skip_ws (snd k) with
   | String c1 r1 =>
       if Ascii.eqb c1 ":" then
         p <- parse_value fuel (skip_ws r1) ;;
         match skip_ws (snd p) with
         | String c2 r2 =>
             if Ascii.eqb c2 ","
             then parse_pairs fuel (skip_ws r2) (dict_set (fst k) (fst p) acc)
             else if Ascii.eqb c2 "}" then Ok (dict_set (fst k) (fst p) acc, r2)
             else Raise JSONDecodeError
         | EmptyString => Raise JSONDecodeError
         end
       else Raise JSONDecodeError
   | EmptyString => Raise JSONDecodeError
   end).
Proof. reflexivity. Qed.

Lemma parse_value_str (fuel : nat) (r : string) :
  parse_value (S fuel) (String dq r) =
  (p <- scan_string r ;; Ok (PStr (fst p), snd p)).
Proof. reflexivity. Qed.

Lemma parse_value_obj (fuel : nat) (r : string) :
  parse_value (S fuel) (String "{" r) =
  match skip_ws r with
  | String c1 r1 =>
      if Ascii.eqb c1 "}" then Ok (PDict [], r1)
      else p <- parse_pairs fuel (skip_ws r) [] ;; Ok (PDict (fst p), snd p)
  | EmptyString => Raise JSONDecodeError
  end.
Proof. reflexivity. Qed.

Lemma parse_value_arr (fuel : nat) (r : string) :
  parse_value (S fuel) (String "[" r) =
  match skip_ws r with
  | String c1 r1 =>
      if Ascii.eqb c1 "]" then Ok (PList [], r1)
      else p <- parse_items fuel (skip_ws r) [] ;; Ok (PList (fst p), snd p)
  | EmptyString => Raise JSONDecodeError
  end.
Proof. reflexivity. Qed.

Lemma parse_items_eq (fuel : nat) (s : string) (acc : list pyval) :
  parse_items (S fuel) s acc =
  (p <- parse_value fuel s ;;
   match skip_ws (snd p) with
   | String c r =>
       if Ascii.eqb c "," then parse_items fuel (skip_ws r) (acc ++ [fst p])
       else if Ascii.eqb c "]" then Ok (acc ++ [fst p], r)
       else Raise JSONDecodeError
   | EmptyString => Raise JSONDecodeError
   end).
Proof. reflexivity. Qed.

Lemma parse_pair_step (fuel : nat) (k v T : string) (acc : dict pyval) :
  parse_pairs (S (S fuel)) (dump_item (k, v) ++ T) acc =
  match skip_ws T with
  | String c2 r2 =>
      if Ascii.eqb c2 "," then parse_pairs (S fuel) (skip_ws r2) (add_item acc (k, v))
      else if Ascii.eqb c2 "}" then Ok (add_item acc (k, v), r2)
      else Raise JSONDecodeError
  | EmptyString => Raise JSONDecodeError
  end.
Proof.
  rewrite dump_item_head, parse_pairs_eq, scan_escape.
  cbn [bind fst snd]. change (skip_ws (String ":" ?x)) with (String ":" x).
  change (Ascii.eqb ":" ":") with true. cbv iota.
  change (skip_ws (String " " (String dq ?x))) with (String dq x).
  rewrite parse_value_str, scan_escape. reflexivity.
Qed.

Lemma join_cons (sep x : string) (y : string) (l : list string) :
  join sep (x :: y :: l) = (x ++ sep ++ join sep (y :: l))%string.
Proof. reflexivity. Qed.

Lemma dump_item_starts (kv : string * string) (T : string) :
  exists r, (dump_item kv ++ T)%string = String dq r.
Proof. destruct kv as [k v]. rewrite dump_item_head. eauto. Qed.

Lemma join_items_starts (sep : string) (kv : string * string)
      (items : list (string * string)) (T : string) :
  exists r, (join sep (map dump_item (kv :: items)) ++ T)%string = String dq r.
Proof.
  destruct items as [| kv' items]; cbn [map].
  - apply dump_item_starts.
  - rewrite join_cons, append_assoc. apply dump_item_starts.
Qed.

Lemma skip_ws_indent4 (x : string) : skip_ws (newline_indent 4 ++ x) = skip_ws x.
Proof. reflexivity. Qed.

Lemma skip_ws_indent2 (x : string) : skip_ws (newline_indent 2 ++ x) = skip_ws x.
Proof. reflexivity. Qed.

Lemma skip_ws_indent0 (x : string) : skip_ws (newline_indent 0 ++ x) = skip_ws x.
Proof. reflexivity. Qed.

(** The pairs of an object, up to its closing brace. *)
Lemma parse_pairs_items (items : list (string * string)) :
  forall (k v rest : string) (acc : dict pyval) (fuel : nat),
    (List.length items + 2 <= fuel)%nat ->
    parse_pairs fuel
      (join sep4 (map dump_item ((k, v) :: items)) ++ close2 ++ rest) acc =
    Ok (fold_left add_item ((k, v) :: items) acc, rest).
Proof.
  induction items as [| [k' v'] items IH]; intros k v rest acc fuel Hfuel.
  - destruct fuel as [| [| fuel]]; try (simpl in Hfuel; lia).
    cbn [map join]. rewrite parse_pair_step. reflexivity.
  - destruct fuel as [| [| fuel]]; try (simpl in Hfuel; lia).
    cbn [map]. rewrite join_cons, !append_assoc, parse_pair_step.
    unfold sep4 at 1. cbn [String.append].
    change (skip_ws (String "," ?x)) with (String "," x).
    change (Ascii.eqb "," ",") with true. cbv iota.
    rewrite skip_ws_indent4.
    destruct (join_items_starts sep4 (k', v') items (close2 ++ rest)) as [r Hr].
    cbn [map] in Hr. rewrite Hr. change (skip_ws (String dq r)) with (String dq r).
    rewrite <- Hr. rewrite (IH k' v' rest _ (S fuel)); [reflexivity |].
    cbn [List.length] in Hfuel. lia.
Qed.

(** ** Sorting the items *)

Lemma insert_by_perm {A} (le : A -> A -> bool) (x : A) (l : list A) :
  Permutation (insert_by le x l) (x :: l).
Proof.
  induction l as [| y l IH]; cbn [insert_by]; [reflexivity |].
  destruct (le x y); [reflexivity |].
  rewrite IH. apply perm_swap.
Qed.

Lemma sorted_by_perm {A} (le : A -> A -> bool) (l : list A) :
  Permutation (sorted_by le l) l.
Proof.
  induction l as [| x l IH]; cbn; [reflexivity |].
  fold (sorted_by le l). rewrite insert_by_perm. now constructor.
Qed.

Lemma sort_items_length {V} (d : dict V) :
  List.length (sort_items d) = List.length d.
Proof. apply Permutation_length, sorted_by_perm. Qed.

Lemma str_compare_antisym (s t : string) :
  str_compare t s = CompOpp (str_compare s t).
Proof.
  revert t. induction s as [| a s IH]; intros [| b t]; cbn [str_compare]; try reflexivity.
  rewrite (N.compare_antisym (code a) (code b)).
  destruct (code a ?= code b)%N; cbn [CompOpp]; [apply IH | reflexivity | reflexivity].
Qed.

Lemma str_leb_total (s t : string) : str_leb s t = false -> str_leb t s = true.
Proof.
  unfold str_leb. rewrite (str_compare_antisym s t).
  destruct (str_compare s t); cbn; congruence.
Qed.

Lemma insert_by_in_order {A} (le : A -> A -> bool) (x : A) (l : list A) :
  (forall a b, le a b = false -> le b a = true) ->
  in_order le l -> in_order le (insert_by le x l).
Proof.
  intros Htot Hl. induction Hl as [| a | a b l Hl IH Hab]; cbn [insert_by].
  - constructor.
  - destruct (le x a) eqn:E; repeat constructor; auto.
  - destruct (le x a) eqn:E.
    + constructor; [now constructor | exact E].
    + cbn [insert_by] in IH. destruct (le x b) eqn:E'.
      * constructor; [exact IH | now apply Htot].
      * constructor; [exact IH | exact Hab].
Qed.

Lemma sorted_by_in_order {A} (le : A -> A -> bool) (l : list A) :
  (forall a b, le a b = false -> le b a = true) ->
  in_order le (sorted_by le l).
Proof.
  intros Htot. induction l as [| x l IH]; cbn; [constructor |].
  now apply insert_by_in_order.
Qed.

Lemma sorted_by_fixed {A} (le : A -> A -> bool) (l : list A) :
  in_order le l -> sorted_by le l = l.
Proof.
  induction 1 as [| a | a b l Hl IH Hab]; cbn; try reflexivity.
  cbn in IH. unfold sorted_by in IH. rewrite IH. cbn [insert_by]. now rewrite Hab.
Qed.

Lemma sort_items_idem {V} (d : dict V) : sort_items (sort_items d) = sort_items d.
Proof.
  apply sorted_by_fixed, sorted_by_in_order.
  intros a b. unfold key_leb. apply str_leb_total.
Qed.

Lemma sort_items_wf {V} (d : dict V) : dict_wf d -> dict_wf (sort_items d).
Proof.
  unfold dict_wf, keys. intros H.
  eapply Permutation_NoDup; [| exact H].
  apply Permutation_map, Permutation_sym, sorted_by_perm.
Qed.

(** ** Dictionaries *)

Lemma dict_set_fresh {V} (k : string) (v : V) (d : dict V) :
  ~ In k (keys d) -> dict_set k v d = d ++ [(k, v)].
Proof.
  induction d as [| [k' v'] d IH]; cbn; [reflexivity |].
  intros H. destruct (String.eqb_spec k k') as [-> | Hne]; [tauto |].
  rewrite IH; tauto.
Qed.

Lemma keys_py_of_flight (f : flight) : keys (py_of_flight f) = keys f.
Proof.
  unfold keys, py_of_flight. rewrite map_map. apply map_ext. now intros [k v].
Qed.

Lemma fold_add_item (items : flight) (acc : dict pyval) :
  NoDup (keys acc ++ keys items) ->
  fold_left add_item items acc = acc ++ py_of_flight items.
Proof.
  revert acc. induction items as [| [k v] items IH]; intros acc H; cbn.
  - now rewrite app_nil_r.
  - unfold add_item at 2. cbn [fst snd].
    assert (Hk : ~ In k (keys acc)).
    { apply NoDup_remove_2 in H. intros Hin. apply H, in_or_app. now left. }
    rewrite (dict_set_fresh k _ acc Hk), IH.
    + now rewrite <- app_assoc.
    + unfold keys in *. rewrite map_app. cbn [map fst]. rewrite <- app_assoc. exact H.
Qed.

Lemma dict_get_in {V} (k : string) (v : V) (d : dict V) :
  dict_wf d -> In (k, v) d -> dict_get k d = Some v.
Proof.
  unfold dict_wf, keys. induction d as [| [k' v'] d IH]; cbn; [tauto |].
  intros Hnd [Heq | Hin].
  - injection Heq as -> ->. now rewrite String.eqb_refl.
  - inversion Hnd as [| ? ? Hk Hnd']; subst.
    destruct (String.eqb_spec k k') as [-> | Hne]; [| now apply IH].
    exfalso. apply Hk. change k' with (fst (k', v)). now apply in_map.
Qed.

(** ** One flight *)

Lemma dump_flight_cases (f : flight) (rest : string) :
  (sort_items f = [] /\ (dump_flight f ++ rest)%string = String "{" (String "}" rest))
  \/ exists k v items,
       sort_items f = (k, v) :: items /\
       (dump_flight f ++ rest)%string =
       String "{" (newline_indent 4 ++
                   (join sep4 (map dump_item ((k, v) :: items)) ++ close2 ++ rest)).
Proof.
  unfold dump_flight. destruct (sort_items f) as [| [k v] items].
  - left. split; reflexivity.
  - right. exists k, v, items. split; [reflexivity |].
    cbn [String.append]. f_equal. rewrite !append_assoc. reflexivity.
Qed.

Lemma parse_flight (f : flight) (rest : string) (fuel : nat) :
  dict_wf f -> (List.length f + 3 <= fuel)%nat ->
  parse_value fuel (dump_flight f ++ rest) = Ok (loaded_flight f, rest).
Proof.
  intros Hwf Hfuel. destruct fuel as [| fuel]; [lia |].
  unfold loaded_flight.
  destruct (dump_flight_cases f rest) as [[E ->] | (k & v & items & E & ->)].
  - rewrite E. reflexivity.
  - rewrite parse_value_obj, skip_ws_indent4.
    destruct (join_items_starts sep4 (k, v) items (close2 ++ rest)) as [r Hr].
    rewrite Hr. change (skip_ws (String dq r)) with (String dq r).
    change (Ascii.eqb dq "}") with false. cbv iota. rewrite <- Hr.
    rewrite parse_pairs_items.
    + cbn [bind fst snd]. rewrite fold_add_item, E; [reflexivity |].
      rewrite <- E. change (NoDup (keys (sort_items f))). apply sort_items_wf, Hwf.
    + pose proof (sort_items_length f) as Hl. rewrite E in Hl. cbn [List.length] in Hl. lia.
Qed.

(** ** The list of flights *)

Lemma dump_flight_starts (f : flight) (T : string) :
  exists r, (dump_flight f ++ T)%string = String "{" r.
Proof.
  destruct (dump_flight_cases f T) as [[_ ->] | (k & v & items & _ & ->)]; eauto.
Qed.

Lemma join_flights_starts (f : flight) (fl : list flight) (T : string) :
  exists r, (join sep2 (map dump_flight (f :: fl)) ++ T)%string = String "{" r.
Proof.
  destruct fl as [| f' fl]; cbn [map].
  - apply dump_flight_starts.
  - rewrite join_cons, append_assoc. apply dump_flight_starts.
Qed.

Lemma parse_items_flights (fl : list flight) :
  forall (f : flight) (rest : string) (acc : list pyval) (fuel : nat),
    Forall dict_wf (f :: fl) ->
    (List.length (f :: fl) + max_items (f :: fl) + 3 <= fuel)%nat ->
    parse_items fuel
      (join sep2 (map dump_flight (f :: fl)) ++ close0 ++ rest) acc =
    Ok (acc ++ map loaded_flight (f :: fl), rest).
Proof.
  induction fl as [| f' fl IH]; intros f rest acc fuel Hwf Hfuel;
    inversion Hwf as [| ? ? Hf Hwf']; subst;
    destruct fuel as [| fuel]; try lia;
    cbn [max_items fold_right List.length] in Hfuel.
  - cbn [map join]. rewrite parse_items_eq, parse_flight; [| exact Hf | lia].
    reflexivity.
  - cbn [map]. rewrite join_cons, !append_assoc, parse_items_eq.
    rewrite parse_flight; [| exact Hf | lia].
    cbn [bind fst snd]. unfold sep2 at 1. cbn [String.append].
    change (skip_ws (String "," ?x)) with (String "," x).
    change (Ascii.eqb "," ",") with true. cbv iota.
    rewrite skip_ws_indent2.
    destruct (join_flights_starts f' fl (close0 ++ rest)) as [r Hr].
    cbn [map] in Hr. rewrite Hr. change (skip_ws (String "{" r)) with (String "{" r).
    rewrite <- Hr. rewrite (IH f' rest _ fuel Hwf').
    + cbn [map]. now rewrite <- app_assoc.
    + cbn [max_items fold_right List.length]. fold (max_items fl) in *. lia.
Qed.

(** ** Enough fuel *)

Lemma length_join_cons (sep x : string) (l : list string) :
  (String.length x + String.length (join sep l) <= String.length (join sep (x :: l)))%nat.
Proof.
  destruct l as [| y l]; [simpl; lia |].
  rewrite join_cons, !length_app. lia.
Qed.

Lemma dump_item_length (kv : string * string) : (1 <= String.length (dump_item kv))%nat.
Proof. destruct kv as [k v]. unfold dump_item, dump_str. simpl. lia. Qed.

Lemma join_items_length (sep : string) (items : list (string * string)) :
  (List.length items <= String.length (join sep (map dump_item items)))%nat.
Proof.
  induction items as [| kv items IH]; [simpl; lia |].
  cbn [map List.length].
  pose proof (length_join_cons sep (dump_item kv) (map dump_item items)).
  pose proof (dump_item_length kv). lia.
Qed.

Lemma dump_flight_length (f : flight) :
  (List.length f + 1 <= String.length (dump_flight f))%nat.
Proof.
  rewrite <- (sort_items_length f). unfold dump_flight.
  destruct (sort_items f) as [| kv items] eqn:E; [simpl; lia |].
  rewrite !length_app. pose proof (join_items_length ("," ++ newline_indent 4) (kv :: items)).
  simpl String.length at 1. lia.
Qed.

Lemma join_flights_length (sep : string) (fl : list flight) :
  (List.length fl + max_items fl <= String.length (join sep (map dump_flight fl)))%nat.
Proof.
  induction fl as [| f fl IH]; [simpl; lia |].
  cbn [map List.length max_items fold_right]. fold (max_items fl).
  pose proof (length_join_cons sep (dump_flight f) (map dump_flight fl)).
  pose proof (dump_flight_length f). lia.
Qed.

(** ** Write, then load *)

Lemma json_loads_dumps (flights : list flight) :
  Forall dict_wf flights ->
  json_loads (json_dumps flights) = Ok (PList (map loaded_flight flights)).
Proof.
  intros Hwf. destruct flights as [| f fl]; [reflexivity |].
  unfold json_loads.
  set (text := json_dumps (f :: fl)).
  assert (Htext : text = String "[" (newline_indent 2 ++
             (join sep2 (map dump_flight (f :: fl)) ++ close0 ++ EmptyString))).
  { unfold text, json_dumps. cbn [String.append].
    rewrite ?append_assoc, ?append_nil_r. reflexivity. }
  assert (Hlen : (List.length (f :: fl) + max_items (f :: fl) + 3
                  <= 2 * String.length text + 1)%nat).
  { rewrite Htext. cbn [String.length]. rewrite !length_app.
    pose proof (join_flights_length sep2 (f :: fl)). lia. }
  replace (2 * String.length text + 2)%nat with (S (2 * String.length text + 1)) by lia.
  remember (2 * String.length text + 1)%nat as n eqn:En. clear En.
  rewrite Htext. change (skip_ws (String "[" ?x)) with (String "[" x).
  rewrite parse_value_arr, skip_ws_indent2.
  destruct (join_flights_starts f fl (close0 ++ EmptyString)) as [r Hr].
  rewrite Hr. change (skip_ws (String "{" r)) with (String "{" r).
  change (Ascii.eqb "{" "]") with false. cbv iota. rewrite <- Hr.
  rewrite (parse_items_flights fl f EmptyString [] _ Hwf Hlen).
  reflexivity.
Qed.

(** ** Equality of what was loaded with what was written *)

Lemma py_eq_list (l1 l2 : list pyval) :
  py_eq (PList l1) (PList l2) = list_items_eq l1 l2.
Proof. reflexivity. Qed.

Lemma py_eq_dict (d1 d2 : list (string * pyval)) :
  py_eq (PDict d1) (PDict d2) =
  Nat.eqb (List.length d1) (List.length d2) && dict_items_eq d2 d1.
Proof. reflexivity. Qed.

Lemma dict_items_eq_text (f : flight) (d : flight) :
  (forall k v, In (k, v) d -> dict_get k (py_of_flight f) = Some (PStr v)) ->
  dict_items_eq (py_of_flight f) (py_of_flight d) = true.
Proof.
  induction d as [| [k v] d IH]; intros H; [reflexivity |].
  cbn [py_of_flight map dict_items_eq].
  rewrite (H k v (or_introl eq_refl)). cbn [same_nan orb py_eq].
  rewrite String.eqb_refl. apply IH. intros k' v' Hin. apply H. now right.
Qed.

Lemma loaded_flight_eq (f : flight) :
  dict_wf f -> py_eq (loaded_flight f) (PDict (py_of_flight f)) = true.
Proof.
  intros Hwf. unfold loaded_flight. rewrite py_eq_dict.
  unfold py_of_flight at 1 2. rewrite !length_map, sort_items_length, Nat.eqb_refl.
  apply dict_items_eq_text. intros k v Hin.
  apply dict_get_in.
  - unfold dict_wf. now rewrite keys_py_of_flight.
  - apply (Permutation_in _ (sorted_by_perm key_leb f)) in Hin.
    unfold py_of_flight. apply in_map_iff. now exists (k, v).
Qed.

Lemma loaded_flights_eq (fl : list flight) :
  Forall dict_wf fl ->
  py_eq (PList (map loaded_flight fl))
        (PList (map (fun f => PDict (py_of_flight f)) fl)) = true.
Proof.
  rewrite py_eq_list. induction 1 as [| f fl Hf _ IH]; [reflexivity |].
  cbn [map list_items_eq]. rewrite (loaded_flight_eq f Hf), orb_true_r. exact IH.
Qed.

(** ** Write again *)

Lemma flight_of_py_text (d : flight) : flight_of_py (PDict (py_of_flight d)) = Some d.
Proof.
  unfold flight_of_py, py_of_flight. rewrite map_map.
  induction d as [| [k v] d IH]; [reflexivity |].
  cbn [map all_some fst snd str_of_py option_map]. now rewrite IH.
Qed.

Lemma flights_of_py_loaded (fl : list flight) :
  flights_of_py (map loaded_flight fl) = Some (map sort_items fl).
Proof.
  unfold flights_of_py. rewrite map_map.
  induction fl as [| f fl IH]; [reflexivity |].
  cbn [map all_some]. unfold loaded_flight at 1. rewrite flight_of_py_text, IH.
  reflexivity.
Qed.

Lemma dump_flight_sorted (f : flight) : dump_flight (sort_items f) = dump_flight f.
Proof. unfold dump_flight. now rewrite sort_items_idem. Qed.

Lemma json_dumps_sorted (fl : list flight) :
  json_dumps (map sort_items fl) = json_dumps fl.
Proof.
  unfold json_dumps. rewrite map_map.
  rewrite (map_ext _ dump_flight dump_flight_sorted).
  now destruct fl.
Qed.

Lemma fs_write_read (path text : string) (fs : filesystem) :
  fs_write path text fs path = Some text.
Proof. unfold fs_write. now rewrite String.eqb_refl. Qed.

(** C8.  What [write_db_json] writes, [load_db_json] reads back as the
    same list of records (equal as Python values, the items of every
    record in the alphabetical order of the file), and writing what was
    loaded gives the same text again, character for character. *)
Theorem write_load_write :
  forall (fs : filesystem) (path : string) (flights : list flight),
    Forall dict_wf flights ->
    exists (loaded : list pyval) (again : list flight),
      load_db_json (write_db_json fs flights path) path = Ok loaded
      /\ loaded = map loaded_flight flights
      /\ py_eq (PList loaded)
               (PList (map (fun f => PDict (py_of_flight f)) flights)) = true
      /\ flights_of_py loaded = Some again
      /\ json_dumps again = json_dumps flights
      /\ write_db_json (write_db_json fs flights path) again path path
         = write_db_json fs flights path path.
Proof.
  intros fs path flights Hwf.
  exists (map loaded_flight flights), (map sort_items flights).
  unfold load_db_json, write_db_json. rewrite !fs_write_read.
  rewrite (json_loads_dumps flights Hwf). cbn [bind].
  rewrite json_dumps_sorted.
  repeat split; auto using loaded_flights_eq, flights_of_py_loaded.
Qed.

Lemma sample_flights_wf : Forall dict_wf sample_flights.
Proof.
  unfold sample_flights, dict_wf.
  repeat constructor; cbn; intuition discriminate.
Qed.

Lemma write_load_write_witness :
  exists (loaded : list pyval) (again : list flight),
    load_db_json (write_db_json sample_fs sample_flights "db.json") "db.json" = Ok loaded
    /\ loaded = map loaded_flight sample_flights
    /\ py_eq (PList loaded)
             (PList (map (fun f => PDict (py_of_flight f)) sample_flights)) = true
    /\ flights_of_py loaded = Some again
    /\ json_dumps again = json_dumps sample_flights
    /\ write_db_json (write_db_json sample_fs sample_flights "db.json") again
         "db.json" "db.json"
       = write_db_json sample_fs sample_flights "db.json" "db.json".
Proof.
  exact (write_load_write sample_fs "db.json" sample_flights sample_flights_wf).
Defined.

(** The items of every record are written in the alphabetical order of
    their keys, and the records the line parser builds are dictionaries
    (no key twice), so the round trip applies to what [main] writes. *)
Lemma written_keys_alphabetical (f : flight) : in_order key_leb (sort_items f).
Proof.
  apply sorted_by_in_order. intros a b. unfold key_leb. apply str_leb_total.
Qed.

Lemma make_flight_wf (parts : list string) : dict_wf (make_flight parts).
Proof.
  unfold dict_wf, make_flight. cbn [keys map fst].
  repeat constructor; cbn; intuition discriminate.
Qed.

Lemma parsed_flights_wf (lines : list string) :
  Forall dict_wf (flat_map record_of lines).
Proof.
  induction lines as [| raw lines IH]; [constructor |].
  cbn [flat_map]. apply Forall_app. split; [| exact IH].
  unfold record_of, classify.
  destruct (str_empty (strip (rstrip_nl raw))); [constructor |].
  destruct (startswith "#" (strip (rstrip_nl raw))); [constructor |].
  destruct (fields_of (rstrip_nl raw)) as [| a [| b [| c [| d [| e [| f [| ? ?]]]]]]];
    try constructor.
  destruct (rule_reasons a b c d e f); [| constructor].
  constructor; [| constructor]. apply (make_flight_wf [a; b; c; d; e; f]).
Qed.

(** ** The evaluator against the predicates of the specification *)

Lemma SFcompare_antisym (a b : spec_float) :
  SFcompare b a = option_map CompOpp (SFcompare a b).
Proof.
  destruct a as [sa | sa | | sa ma ea], b as [sb | sb | | sb mb eb];
    try reflexivity;
    try (destruct sa; reflexivity); try (destruct sb; reflexivity);
    try (destruct sa, sb; reflexivity).
  cbn [SFcompare option_map]. f_equal.
  rewrite (Z.compare_antisym ea eb).
  change (Pos.compare_cont Eq mb ma) with (Pos.compare mb ma).
  change (Pos.compare_cont Eq ma mb) with (Pos.compare ma mb).
  rewrite (Pos.compare_antisym ma mb).
  destruct sa, sb, (ea ?= eb), (ma ?= mb)%positive; reflexivity.
Qed.

Lemma float_gt_le (a b : spec_float) :
  is_nan a = false -> is_nan b = false ->
  float_gt a b = negb (float_le a b).
Proof.
  intros Ha Hb. unfold float_gt, float_le, SFltb, SFleb.
  rewrite (SFcompare_antisym a b).
  destruct (SFcompare a b) as [[] |] eqn:E; try reflexivity.
  destruct a, b; try discriminate; try (destruct s; discriminate);
    try (destruct s, s0; discriminate).
Qed.

Lemma py_eq_text (s : string) (v : pyval) :
  py_eq (PStr s) v = match v with PStr t => String.eqb s t | _ => false end.
Proof. now destruct v. Qed.

Lemma get_field (f : dict pyval) (key : string) :
  string_record f -> In key record_keys -> get f key = PStr (field f key).
Proof.
  intros Hf Hkey. unfold get, field. destruct (Hf key Hkey) as [s ->]. reflexivity.
Qed.

Lemma exact_key_holds (f q : dict pyval) (key : string) :
  string_record f -> In key record_keys ->
  match dict_get key q with
  | Some qv => py_ne (get f key) qv
  | None => false
  end = negb (exact_holds f q key).
Proof.
  intros Hf Hkey. unfold exact_holds. rewrite (get_field f key Hf Hkey).
  destruct (dict_get key q) as [qv |]; [| reflexivity].
  unfold py_ne. rewrite py_eq_text. now destruct qv.
Qed.

Lemma exact_mismatch_holds (f q : dict pyval) :
  string_record f ->
  exact_mismatch f q =
  negb (exact_holds f q "flight_id" && exact_holds f q "origin"
        && exact_holds f q "destination").
Proof.
  intros Hf. unfold exact_mismatch. cbn [existsb].
  rewrite !(exact_key_holds f q) by (auto; cbn; tauto).
  destruct (exact_holds f q "flight_id"), (exact_holds f q "origin"),
    (exact_holds f q "destination"); reflexivity.
Qed.

Lemma price_rejects_holds (f q : dict pyval) :
  string_record f -> no_nan_price f q ->
  price_rejects f q = negb (price_holds f q).
Proof.
  intros Hf Hnan. unfold price_rejects, price_holds, get_or.
  destruct (dict_get "price" q) as [qv |] eqn:Eq; [| reflexivity].
  specialize (Hnan qv).
  assert (Hp : dict_get "price" f = Some (PStr (field f "price"))).
  { unfold field. destruct (Hf "price" ltac:(cbn; tauto)) as [s ->]. reflexivity. }
  rewrite Hp. cbn [py_float].
  destruct (py_float qv) as [qp | e]; cbn [bind try_except].
  - destruct (float_of_string (field f "price")) as [rp | e];
      cbn [bind try_except]; [| reflexivity].
    destruct (Hnan rp qp Eq eq_refl eq_refl) as [Hr Hq].
    now apply float_gt_le.
  - now destruct (float_of_string (field f "price")).
Qed.

Lemma departure_rejects_holds (f q : dict pyval) :
  string_record f -> text_dates q ->
  departure_rejects f q = Ok (negb (departure_holds f q)).
Proof.
  intros Hf Hq. unfold departure_rejects, departure_holds, py_lt.
  rewrite (get_field f "departure_datetime" Hf) by (cbn; tauto).
  destruct (dict_get "departure_datetime" q) as [qv |] eqn:E; [| reflexivity].
  destruct (Hq "departure_datetime" qv ltac:(cbn; tauto) E) as [t ->].
  rewrite py_order_text. unfold str_leb.
  rewrite (str_compare_antisym (field f "departure_datetime") t).
  now destruct (str_compare (field f "departure_datetime") t).
Qed.

Lemma arrival_rejects_holds (f q : dict pyval) :
  string_record f -> text_dates q ->
  arrival_rejects f q = Ok (negb (arrival_holds f q)).
Proof.
  intros Hf Hq. unfold arrival_rejects, arrival_holds, py_gt.
  rewrite (get_field f "arrival_datetime" Hf) by (cbn; tauto).
  destruct (dict_get "arrival_datetime" q) as [qv |] eqn:E; [| reflexivity].
  destruct (Hq "arrival_datetime" qv ltac:(cbn; tauto) E) as [t ->].
  rewrite py_order_text. unfold str_leb.
  now destruct (str_compare (field f "arrival_datetime") t).
Qed.

(** Apart from a NaN among the prices, the evaluator decides what the
    specification says: on a record of six strings and a query whose
    date-time filters are strings it returns whether every key present
    in the query satisfies its predicate; in particular the empty query
    matches. *)
Theorem evaluator_meets_spec (f q : dict pyval) :
  string_record f -> text_dates q -> no_nan_price f q ->
  flight_matches_query f q = Ok (query_holds f q).
Proof.
  intros Hf Hq Hnan. unfold flight_matches_query, query_holds.
  rewrite (exact_mismatch_holds f q Hf), (price_rejects_holds f q Hf Hnan),
    (departure_rejects_holds f q Hf Hq), (arrival_rejects_holds f q Hf Hq).
  cbn [bind].
  destruct (exact_holds f q "flight_id"), (exact_holds f q "origin"),
    (exact_holds f q "destination"), (price_holds f q),
    (departure_holds f q), (arrival_holds f q); reflexivity.
Qed.

Lemma empty_query_matches (f : dict pyval) : flight_matches_query f [] = Ok true.
Proof. reflexivity. Qed.

Lemma py_order_text_other (want : comparison) (s : string) (v : pyval) :
  (exists t, v = PStr t) \/ py_order want (PStr s) v = Raise TypeError.
Proof. destruct v; eauto. Qed.

(** X18.  Apart from a NaN among the prices, the evaluator answers
    [True] exactly when the specification's predicates hold.  On a
    record of six strings, and whatever the query is, it returns [True]
    when and only when every key present in the query satisfies its
    predicate (exact equality of texts, [<=] on the prices read as
    floats, the text order on the date-times); with a date-time filter
    that is not a string no predicate holds and the evaluator does not
    answer [True] (it answers [False] or raises). *)
Theorem evaluator_true_iff (f q : dict pyval) :
  string_record f -> no_nan_price f q ->
  (flight_matches_query f q = Ok true <-> query_holds f q = true).
Proof.
  intros Hf Hnan. unfold flight_matches_query, query_holds.
  rewrite (exact_mismatch_holds f q Hf), (price_rejects_holds f q Hf Hnan).
  destruct (exact_holds f q "flight_id" && exact_holds f q "origin"
            && exact_holds f q "destination"); cbn [negb andb];
    [| split; discriminate].
  destruct (price_holds f q); cbn [negb andb]; [| split; discriminate].
  unfold departure_rejects, departure_holds, arrival_rejects, arrival_holds,
    py_lt, py_gt.
  rewrite (get_field f "departure_datetime" Hf) by (cbn; tauto).
  rewrite (get_field f "arrival_datetime" Hf) by (cbn; tauto).
  assert (Harr :
    (a <- match dict_get "arrival_datetime" q with
          | Some qv => py_order Gt (PStr (field f "arrival_datetime")) qv
          | None => Ok false
          end ;; (if a then Ok false else Ok true)) = Ok true <->
    match dict_get "arrival_datetime" q with
    | None => true
    | Some (PStr t) => str_leb (field f "arrival_datetime") t
    | Some _ => false
    end = true).
  { destruct (dict_get "arrival_datetime" q) as [qv |]; [| split; reflexivity].
    destruct (py_order_text_other Gt (field f "arrival_datetime") qv) as [[t ->] | E].
    - rewrite py_order_text. cbn [bind]. unfold str_leb.
      destruct (str_compare (field f "arrival_datetime") t); cbn; split; congruence.
    - rewrite E. cbn [bind]. destruct qv; split; try discriminate;
        try (cbn in E; discriminate E). }
  destruct (dict_get "departure_datetime" q) as [qv |]; cbn [bind andb].
  - destruct (py_order_text_other Lt (field f "departure_datetime") qv) as [[t ->] | E].
    + rewrite py_order_text. cbn [bind]. unfold str_leb at 1.
      rewrite (str_compare_antisym (field f "departure_datetime") t).
      destruct (str_compare (field f "departure_datetime") t); cbn [CompOpp comparison_eqb andb];
        [exact Harr | split; discriminate | exact Harr].
    + rewrite E. cbn [bind]. destruct qv; split; try discriminate;
        try (cbn in E; discriminate E).
  - exact Harr.
Qed.
(* ================================================================== *)
(** * Further properties of the record validator *)

Lemma in_rule_reasons_codes (a b c dep arr p : string) :
  (In "Invalid flight_id" (rule_reasons a b c dep arr p) <->
   matches flight_id_re a = false) /\
  (In "Invalid origin" (rule_reasons a b c dep arr p) <->
   matches airport_re b = false) /\
  (In "Invalid destination" (rule_reasons a b c dep arr p) <->
   matches airport_re c = false).
Proof.
  unfold rule_reasons. rewrite !in_app_iff, !in_reason_if.
  repeat split; intros H.
  - destruct H as [[H _] | H]; [now apply negb_true_iff in H |].
    repeat (destruct H as [[_ H] | H]; [discriminate H |]).
    destruct H as [_ H]; discriminate H.
  - left. split; [now rewrite H | reflexivity].
  - destruct H as [[_ H] | H]; [discriminate H |].
    destruct H as [[H _] | H]; [now apply negb_true_iff in H |].
    repeat (destruct H as [[_ H] | H]; [discriminate H |]).
    destruct H as [_ H]; discriminate H.
  - right. left. split; [now rewrite H | reflexivity].
  - do 2 (destruct H as [[_ H] | H]; [discriminate H |]).
    destruct H as [[H _] | H]; [now apply negb_true_iff in H |].
    repeat (destruct H as [[_ H] | H]; [discriminate H |]).
    destruct H as [_ H]; discriminate H.
  - do 2 right. left. split; [now rewrite H | reflexivity].
Qed.

(** X1.  What the validator takes for the three code fields, exactly.
    [validate_record] reports "Invalid flight_id" when and only when
    the field is not a text of 2 to 8 ASCII letters and digits,
    possibly followed by one newline, and "Invalid origin" ("Invalid
    destination") when and only when the field is not a text of exactly
    3 upper-case ASCII letters, possibly followed by one newline. *)
Theorem code_reasons_exact :
  forall flight_id origin destination dep arr price : string,
  exists errors,
    validate_record [flight_id; origin; destination; dep; arr; price] = Ok errors
    /\ (In "Invalid flight_id" errors <->
        ~ exists body, alnum_2_8 body = true /\
                       (flight_id = body \/ flight_id = with_newline body))
    /\ (In "Invalid origin" errors <->
        ~ exists body, upper_3 body = true /\
                       (origin = body \/ origin = with_newline body))
    /\ (In "Invalid destination" errors <->
        ~ exists body, upper_3 body = true /\
                       (destination = body \/ destination = with_newline body)).
Proof.
  intros a b c dep arr p. eexists. split; [apply validate_record_reasons |].
  destruct (in_rule_reasons_codes a b c dep arr p) as (Ha & Hb & Hc).
  rewrite Ha, Hb, Hc, <- flight_id_re_accepts, <- !airport_re_accepts.
  repeat split; intros H; try (now rewrite H); now apply not_true_is_false.
Qed.
(* ================================================================== *)
(** * Further properties of the line parser *)

Lemma lstrip_by_head (p : ascii -> bool) (s : string) :
  match lstrip_by p s with
  | String c _ => p c = false
  | EmptyString => True
  end.
Proof.
  induction s as [| c r IH]; cbn; [exact I |].
  destruct (p c) eqn:E; [exact IH | exact E].
Qed.

Lemma rstrip_by_idem (p : ascii -> bool) (s : string) :
  rstrip_by p (rstrip_by p s) = rstrip_by p s.
Proof.
  induction s as [| c r IH]; cbn; [reflexivity |].
  destruct (rstrip_by p r) as [| d r'] eqn:E; cbn.
  - destruct (p c) eqn:Ec; cbn; [reflexivity | now rewrite Ec].
  - cbn in IH. now rewrite IH.
Qed.

Lemma rstrip_by_keeps_head (p : ascii -> bool) (c : ascii) (r : string) :
  p c = false -> rstrip_by p (String c r) = String c (rstrip_by p r).
Proof. intros E. cbn. rewrite E. now rewrite andb_false_r. Qed.

Lemma lstrip_by_fixed (p : ascii -> bool) (s : string) :
  match s with String c _ => p c = false | EmptyString => True end ->
  lstrip_by p s = s.
Proof. destruct s as [| c r]; cbn; [reflexivity | now intros ->]. Qed.

Lemma strip_idem (s : string) : strip (strip s) = strip s.
Proof.
  unfold strip.
  assert (H := lstrip_by_head isspace s).
  destruct (lstrip_by isspace s) as [| c r] eqn:E; [reflexivity |].
  rewrite (rstrip_by_keeps_head _ _ _ H).
  rewrite (lstrip_by_fixed isspace (String c _)) by exact H.
  rewrite <- (rstrip_by_keeps_head _ _ _ H). apply rstrip_by_idem.
Qed.

Lemma classify_valid (raw : string) (record : flight) :
  classify raw = Valid record ->
  exists a b c d e p,
    fields_of (rstrip_nl raw) = [a; b; c; d; e; p] /\
    rule_reasons a b c d e p = [] /\
    record = [ ("flight_id", a); ("origin", b); ("destination", c);
               ("departure_datetime", d); ("arrival_datetime", e); ("price", p) ].
Proof.
  unfold classify.
  destruct (str_empty (strip (rstrip_nl raw))); [discriminate |].
  destruct (startswith "#" (strip (rstrip_nl raw))); [discriminate |].
  destruct (fields_of (rstrip_nl raw)) as [| a [| b [| c [| d [| e [| p [| x l]]]]]]];
    try discriminate.
  destruct (rule_reasons a b c d e p) eqn:R; [| discriminate].
  intros [= <-]. now exists a, b, c, d, e, p.
Qed.

Lemma fields_of_stripped (line : string) :
  Forall (fun x => strip x = x) (fields_of line).
Proof.
  unfold fields_of. apply Forall_forall. intros x Hx.
  apply in_map_iff in Hx. destruct Hx as (y & <- & _). apply strip_idem.
Qed.

Lemma record_of_accepted (raw : string) : Forall accepted (record_of raw).
Proof.
  unfold record_of. destruct (classify raw) as [| | | |record] eqn:E;
    try constructor; [| constructor].
  apply classify_valid in E. destruct E as (a & b & c & d & e & p & F & R & ->).
  exists a, b, c, d, e, p. split; [reflexivity |]. split.
  - rewrite validate_record_reasons. now rewrite R.
  - rewrite <- F. apply fields_of_stripped.
Qed.

(** X2.  Every record that [parse_csv_file] returns holds the six
    fields in the order of the source, each free of leading and trailing
    whitespace, and [validate_record] finds no violation when it is run
    on them again: what reaches the database has passed every rule. *)
Theorem parsed_records_accepted :
  forall (fs : filesystem) (path : string) (n : Z)
         (valid : list flight) (errors : list error_entry) (m : Z),
    parse_csv_file fs path n = Ok (valid, errors, m) ->
    Forall accepted valid.
Proof.
  intros fs path n valid errors m. unfold parse_csv_file.
  destruct (fs path) as [text |]; [| discriminate].
  rewrite for_each_parse_line. cbn. intros [= <- _ _].
  induction (file_lines text) as [| raw lines IH]; cbn; [constructor |].
  apply Forall_app. split; [apply record_of_accepted | exact IH].
Qed.

Lemma parsed_records_accepted_witness :
  parse_csv_file sample_fs "a.csv" 1 =
    Ok ([sample_flight],
        [ (1, "#comment", "Comment");
          (4, "a,b", "Invalid number of fields");
          (5, " A!, jkf ,LAX,2025-12-01 09:00,2025-12-01 12:00,0",
           "Invalid flight_id, Invalid origin, Invalid price") ], 6) /\
  Forall accepted [sample_flight].
Proof.
  split; [vm_compute; reflexivity |].
  apply (parsed_records_accepted sample_fs "a.csv" 1 [sample_flight]
           [ (1, "#comment", "Comment");
             (4, "a,b", "Invalid number of fields");
             (5, " A!, jkf ,LAX,2025-12-01 09:00,2025-12-01 12:00,0",
              "Invalid flight_id, Invalid origin, Invalid price") ] 6).
  vm_compute. reflexivity.
Defined.

Lemma in_entry_of (ln : Z) (raw : string) (x : error_entry) :
  In x (entry_of ln raw) <->
  exists why, explanation_of raw = Some why /\ x = (ln, rstrip_nl raw, why).
Proof.
  unfold entry_of, explanation_of. destruct (classify raw); cbn; split;
    try (intros []; fail);
    try (intros (why & [=] & _); fail);
    try (intros [<- | []]; eexists; split; reflexivity);
    intros (why & [= <-] & ->); now left.
Qed.

Lemma in_entries_from (lines : list string) (n : Z) (x : error_entry) :
  In x (entries_from n lines) <->
  exists i raw, nth_error lines i = Some raw /\ In x (entry_of (n + Z.of_nat i) raw).
Proof.
  revert n. induction lines as [| raw0 lines IH]; intros n; cbn.
  - split; [intros [] | intros ([| i] & raw & [=] & _)].
  - rewrite in_app_iff, IH. split.
    + intros [H | (i & raw & Hi & H)].
      * exists 0%nat, raw0. split; [reflexivity |]. now rewrite Z.add_0_r.
      * exists (S i), raw. split; [exact Hi |].
        now replace (n + Z.of_nat (S i)) with (n + 1 + Z.of_nat i) by lia.
    + intros ([| i] & raw & Hi & H); cbn in Hi.
      * injection Hi as <-. left. now rewrite Z.add_0_r in H.
      * right. exists i, raw. split; [exact Hi |].
        now replace (n + 1 + Z.of_nat i) with (n + Z.of_nat (S i)) by lia.
Qed.

(** X3.  The number of an error entry is the position of its line:
    [(ln, line, why)] is among the entries that [parse_csv_file]
    returns for a file read from the number [n] on when and only when
    the file's line number [ln - n] (counting from 0) exists, [line] is
    that line without its line end, and the line is one that is logged
    with the explanation [why] (a comment, a wrong number of fields, or
    violations). *)
Theorem error_entries_locate_lines :
  forall (fs : filesystem) (path text : string) (n : Z)
         (valid : list flight) (errors : list error_entry) (m : Z),
    fs path = Some text ->
    parse_csv_file fs path n = Ok (valid, errors, m) ->
    forall (ln : Z) (line why : string),
      In (ln, line, why) errors <->
      exists raw,
        n <= ln /\
        nth_error (file_lines text) (Z.to_nat (ln - n)) = Some raw /\
        line = rstrip_nl raw /\
        explanation_of raw = Some why.
Proof.
  intros fs path text n valid errors m Hfs. unfold parse_csv_file.
  rewrite Hfs, for_each_parse_line. cbn. intros [= _ <- _] ln line why.
  rewrite in_entries_from. split.
  - intros (i & raw & Hi & H). apply in_entry_of in H.
    destruct H as (why' & Hw & [= -> -> ->]).
    exists raw. split; [lia |]. split; [| now split].
    now replace (Z.to_nat (n + Z.of_nat i - n)) with i by lia.
  - intros (raw & Hn & Hi & -> & Hw).
    exists (Z.to_nat (ln - n)), raw. split; [exact Hi |].
    apply in_entry_of. exists why. split; [exact Hw |].
    now replace (n + Z.of_nat (Z.to_nat (ln - n))) with ln by lia.
Qed.

Lemma error_entries_locate_lines_witness :
  In (4, "a,b", "Invalid number of fields")
     [ (1, "#comment", "Comment");
       (4, "a,b", "Invalid number of fields");
       (5, " A!, jkf ,LAX,2025-12-01 09:00,2025-12-01 12:00,0",
        "Invalid flight_id, Invalid origin, Invalid price") ] <->
  exists raw,
    1 <= 4 /\
    nth_error (file_lines sample_text) (Z.to_nat (4 - 1)) = Some raw /\
    "a,b" = rstrip_nl raw /\
    explanation_of raw = Some "Invalid number of fields".
Proof.
  apply (error_entries_locate_lines sample_fs "a.csv" sample_text 1 [sample_flight]
           [ (1, "#comment", "Comment");
             (4, "a,b", "Invalid number of fields");
             (5, " A!, jkf ,LAX,2025-12-01 09:00,2025-12-01 12:00,0",
              "Invalid flight_id, Invalid origin, Invalid price") ] 6).
  - reflexivity.
  - vm_compute. reflexivity.
Defined.

Lemma line_accounted (ln : Z) (raw : string) :
  (List.length (record_of raw) + List.length (entry_of ln raw)
   + (if is_blank raw then 1 else 0))%nat = 1%nat.
Proof.
  unfold record_of, entry_of, is_blank, classify.
  destruct (str_empty (strip (rstrip_nl raw))); [reflexivity |].
  destruct (startswith "#" (strip (rstrip_nl raw))); [reflexivity |].
  destruct (fields_of (rstrip_nl raw)) as [| a [| b [| c [| d [| e [| p [| x l]]]]]]];
    try reflexivity.
  destruct (rule_reasons a b c d e p); reflexivity.
Qed.

(** X4.  Every line of a file is accounted for once: it gives one
    record, or one error entry, or it is blank and gives nothing.  So
    the records, the entries and the blank lines add up to the number of
    lines, which is also what the counter has advanced by. *)
Theorem every_line_accounted :
  forall (fs : filesystem) (path text : string) (n : Z)
         (valid : list flight) (errors : list error_entry) (m : Z),
    fs path = Some text ->
    parse_csv_file fs path n = Ok (valid, errors, m) ->
    (List.length valid + List.length errors
     + List.length (filter is_blank (file_lines text)))%nat
      = List.length (file_lines text)
    /\ m - n = Z.of_nat (List.length (file_lines text)).
Proof.
  intros fs path text n valid errors m Hfs. unfold parse_csv_file.
  rewrite Hfs, for_each_parse_line. cbn. intros [= <- <- <-].
  split; [| lia]. generalize n.
  induction (file_lines text) as [| raw lines IH]; intros k;
    cbn [flat_map entries_from filter]; [reflexivity |].
  rewrite !List.length_app. specialize (IH (k + 1)).
  pose proof (line_accounted k raw) as H.
  destruct (is_blank raw); cbn [List.length]; lia.
Qed.

Lemma every_line_accounted_witness :
  (List.length [sample_flight]
   + List.length [ (1, "#comment", "Comment");
                   (4, "a,b", "Invalid number of fields");
                   (5, " A!, jkf ,LAX,2025-12-01 09:00,2025-12-01 12:00,0",
                    "Invalid flight_id, Invalid origin, Invalid price") ]
   + List.length (filter is_blank (file_lines sample_text)))%nat
    = List.length (file_lines sample_text)
  /\ 6 - 1 = Z.of_nat (List.length (file_lines sample_text)).
Proof.
  apply (every_line_accounted sample_fs "a.csv" sample_text 1 [sample_flight]
           [ (1, "#comment", "Comment");
             (4, "a,b", "Invalid number of fields");
             (5, " A!, jkf ,LAX,2025-12-01 09:00,2025-12-01 12:00,0",
              "Invalid flight_id, Invalid origin, Invalid price") ] 6).
  - reflexivity.
  - vm_compute. reflexivity.
Defined.
(* ================================================================== *)
(** * Line ends and the concatenation of files *)

Lemma string_pair_ind (P : string -> Prop) :
  P EmptyString ->
  (forall c, P (str1 c)) ->
  (forall c d r, P r -> P (String d r) -> P (String c (String d r))) ->
  forall s, P s.
Proof.
  intros H0 H1 H2 s.
  assert (H : P s /\ forall c, P (String c s)).
  { induction s as [| d r [IH1 IH2]].
    - split; [exact H0 | exact H1].
    - split; [apply IH2 | intros c; apply H2; [exact IH1 | apply IH2]]. }
  apply H.
Qed.

Lemma file_lines_lf (r : string) :
  file_lines (String nl r) = str1 nl :: file_lines r.
Proof. reflexivity. Qed.

Lemma file_lines_crlf (r : string) :
  file_lines (String cr (String nl r)) = str1 nl :: file_lines r.
Proof. reflexivity. Qed.

Lemma file_lines_cr_end : file_lines (str1 cr) = [str1 nl].
Proof. reflexivity. Qed.

Lemma file_lines_cr (d : ascii) (r : string) :
  Ascii.eqb d nl = false ->
  file_lines (String cr (String d r)) = str1 nl :: file_lines (String d r).
Proof.
  intros E. change (file_lines (String cr (String d r))) with
    (if Ascii.eqb d nl then str1 nl :: file_lines r
     else str1 nl :: file_lines (String d r)).
  now rewrite E.
Qed.

Lemma file_lines_char (c : ascii) (r : string) :
  Ascii.eqb c nl = false -> Ascii.eqb c cr = false ->
  file_lines (String c r) = cons_char c (file_lines r).
Proof.
  intros E1 E2.
  change (file_lines (String c r)) with
    (if Ascii.eqb c nl then str1 nl :: file_lines r
     else if Ascii.eqb c cr then
       match r with
       | String c2 r2 =>
           if Ascii.eqb c2 nl then str1 nl :: file_lines r2
           else str1 nl :: file_lines r
       | EmptyString => [str1 nl]
       end
     else cons_char c (file_lines r)).
  now rewrite E1, E2.
Qed.

Lemma file_lines_nonempty (c : ascii) (r : string) : file_lines (String c r) <> [].
Proof.
  destruct (Ascii.eqb c nl) eqn:E1.
  - apply Ascii.eqb_eq in E1. subst c. now rewrite file_lines_lf.
  - destruct (Ascii.eqb c cr) eqn:E2.
    + apply Ascii.eqb_eq in E2. subst c. destruct r as [| d r].
      * now vm_compute.
      * destruct (Ascii.eqb d nl) eqn:E3.
        -- apply Ascii.eqb_eq in E3. subst d. now rewrite file_lines_crlf.
        -- now rewrite file_lines_cr.
    + rewrite file_lines_char by assumption.
      now destruct (file_lines r).
Qed.


Ltac char_case c E :=
  destruct (Ascii.eqb c nl) eqn:E;
  [apply Ascii.eqb_eq in E; subst c |].





Lemma file_lines_to_crlf (t : string) :
  has_char cr t = false -> file_lines (to_crlf t) = file_lines t.
Proof.
  unfold has_char. rewrite negb_false_iff.
  induction t as [| c r IH]; [reflexivity |].
  cbn [all_chars]. rewrite andb_true_iff, negb_true_iff.
  intros [E2 Hr]. cbn [to_crlf]. char_case c E1.
  - now rewrite file_lines_crlf, file_lines_lf, IH.
  - now rewrite !file_lines_char, IH.
Qed.

(** X6.  Windows line ends read as Unix line ends.  A file in which
    every line ends with CR LF gives, from the same starting number,
    the result of the file in which the same lines end with LF: the
    same records, the same entries with the same texts and numbers, the
    same final counter. *)
Theorem crlf_file_parses_alike :
  forall (fs : filesystem) (p1 p2 t : string) (n : Z),
    has_char cr t = false ->
    fs p1 = Some t ->
    fs p2 = Some (to_crlf t) ->
    parse_csv_file fs p2 n = parse_csv_file fs p1 n.
Proof.
  intros fs p1 p2 t n Hcr H1 H2. unfold parse_csv_file.
  now rewrite H1, H2, file_lines_to_crlf.
Qed.

Lemma crlf_file_parses_alike_witness :
  parse_csv_file
    (fun p => if String.eqb p "unix" then Some sample_text
              else Some (to_crlf sample_text)) "dos" 1
  = parse_csv_file
      (fun p => if String.eqb p "unix" then Some sample_text
                else Some (to_crlf sample_text)) "unix" 1.
Proof.
  apply (crlf_file_parses_alike
           (fun p => if String.eqb p "unix" then Some sample_text
                     else Some (to_crlf sample_text))
           "unix" "dos" sample_text 1); reflexivity.
Defined.

Lemma rstrip_nl_idem (s : string) : rstrip_nl (rstrip_nl s) = rstrip_nl s.
Proof. apply rstrip_by_idem. Qed.

Lemma classify_rstrip (raw : string) : classify (rstrip_nl raw) = classify raw.
Proof. unfold classify. now rewrite rstrip_nl_idem. Qed.

Lemma record_of_rstrip (raw : string) : record_of (rstrip_nl raw) = record_of raw.
Proof. unfold record_of. now rewrite classify_rstrip. Qed.

Lemma entry_of_rstrip (ln : Z) (raw : string) :
  entry_of ln (rstrip_nl raw) = entry_of ln raw.
Proof. unfold entry_of. now rewrite classify_rstrip, rstrip_nl_idem. Qed.

Lemma records_by_content (l : list string) :
  flat_map record_of (map rstrip_nl l) = flat_map record_of l.
Proof.
  induction l as [| raw l IH]; [reflexivity |].
  cbn [map flat_map]. now rewrite record_of_rstrip, IH.
Qed.

Lemma entries_by_content (l : list string) (n : Z) :
  entries_from n (map rstrip_nl l) = entries_from n l.
Proof.
  revert n. induction l as [| raw l IH]; intros n; [reflexivity |].
  cbn [map entries_from]. now rewrite entry_of_rstrip, IH.
Qed.

Lemma parse_by_content (fs : filesystem) (p1 p2 t1 t2 : string) (n : Z) :
  fs p1 = Some t1 -> fs p2 = Some t2 ->
  map rstrip_nl (file_lines t2) = map rstrip_nl (file_lines t1) ->
  parse_csv_file fs p2 n = parse_csv_file fs p1 n.
Proof.
  intros H1 H2 E. unfold parse_csv_file.
  rewrite H1, H2, !for_each_parse_line. cbn.
  rewrite <- (records_by_content (file_lines t2)),
          <- (entries_by_content (file_lines t2)), E,
          records_by_content, entries_by_content.
  do 2 f_equal. f_equal.
  now rewrite <- (length_map rstrip_nl (file_lines t2)), E, length_map.
Qed.

Lemma rstrip_nl_cons (c : ascii) (s : string) :
  Ascii.eqb c nl = false -> rstrip_nl (String c s) = String c (rstrip_nl s).
Proof.
  intros E. unfold rstrip_nl. apply rstrip_by_keeps_head.
  now rewrite Ascii.eqb_sym.
Qed.

Lemma map_rstrip_cons_char (c : ascii) (l1 l2 : list string) :
  Ascii.eqb c nl = false -> l1 <> [] -> l2 <> [] ->
  map rstrip_nl l1 = map rstrip_nl l2 ->
  map rstrip_nl (cons_char c l1) = map rstrip_nl (cons_char c l2).
Proof.
  intros E N1 N2 H. destruct l1 as [| h1 t1], l2 as [| h2 t2]; try congruence.
  cbn [cons_char map] in *. rewrite !rstrip_nl_cons by exact E.
  injection H as -> ->. reflexivity.
Qed.

Lemma append_nonempty (c : ascii) (r t : string) :
  exists d r', (String c r ++ t)%string = String d r'.
Proof. now exists c, (r ++ t)%string. Qed.

(** The lines of a text whose last line has no line end, and of the
    text with one added. *)
Lemma file_lines_final_newline (t : string) :
  t <> EmptyString -> ends_line t = false ->
  map rstrip_nl (file_lines (t ++ str1 nl)) = map rstrip_nl (file_lines t).
Proof.
  induction t as [| c | c d r IH1 IH2] using string_pair_ind.
  - congruence.
  - intros _. cbn [ends_line str1]. rewrite orb_false_iff. intros [E1 E2].
    change (str1 c ++ str1 nl)%string with (String c (String nl EmptyString)).
    change (str1 c) with (String c EmptyString).
    rewrite (file_lines_char c (String nl EmptyString)),
            (file_lines_char c EmptyString) by assumption.
    rewrite file_lines_lf. cbn [file_lines cons_char map].
    rewrite !rstrip_nl_cons by assumption. reflexivity.
  - intros _ He.
    change (ends_line (String c (String d r))) with (ends_line (String d r)) in He.
    change (String c (String d r) ++ str1 nl)%string
      with (String c (String d r ++ str1 nl)).
    specialize (IH2 ltac:(discriminate) He).
    char_case c E1; [now rewrite !file_lines_lf; cbn [map]; rewrite IH2 |].
    destruct (Ascii.eqb c cr) eqn:E2.
    + apply Ascii.eqb_eq in E2. subst c.
      change (String d r ++ str1 nl)%string with (String d (r ++ str1 nl)) in *.
      char_case d E3.
      * rewrite !file_lines_crlf. cbn [map]. f_equal.
        destruct r as [| e r']; [discriminate He |].
        apply IH1; [discriminate | exact He].
      * rewrite !file_lines_cr by assumption. cbn [map]. now rewrite IH2.
    + rewrite (file_lines_char c (String d r ++ str1 nl)),
              (file_lines_char c (String d r)) by assumption.
      apply map_rstrip_cons_char; try assumption; apply file_lines_nonempty.
Qed.

(** X7.  The line end of the last line does not matter.  A file whose
    last line lacks its line end gives the result of the same file with
    the line end added: the same records, the same entries, the same
    final counter. *)
Theorem final_newline_optional :
  forall (fs : filesystem) (p1 p2 t : string) (n : Z),
    t <> EmptyString -> ends_line t = false ->
    fs p1 = Some t ->
    fs p2 = Some (t ++ str1 nl)%string ->
    parse_csv_file fs p2 n = parse_csv_file fs p1 n.
Proof.
  intros fs p1 p2 t n Ht He H1 H2.
  apply (parse_by_content fs p1 p2 t (t ++ str1 nl) n H1 H2).
  now apply file_lines_final_newline.
Qed.

Lemma final_newline_optional_witness :
  parse_csv_file
    (fun p => if String.eqb p "cut" then Some sample_text
              else Some (sample_text ++ str1 nl)%string) "whole" 1
  = parse_csv_file
      (fun p => if String.eqb p "cut" then Some sample_text
                else Some (sample_text ++ str1 nl)%string) "cut" 1.
Proof.
  apply (final_newline_optional
           (fun p => if String.eqb p "cut" then Some sample_text
                     else Some (sample_text ++ str1 nl)%string)
           "cut" "whole" sample_text 1);
    [discriminate | reflexivity | reflexivity | reflexivity].
Defined.
(* ================================================================== *)
(** * Further properties of the query predicate evaluator *)

Lemma str_leb_ltb (s t : string) : negb (str_ltb s t) = str_leb t s.
Proof.
  unfold str_ltb, str_leb. rewrite (str_compare_antisym s t).
  now destruct (str_compare s t).
Qed.

Ltac lookup_single :=
  repeat match goal with
         | |- context [dict_get ?k [(?k', ?v)]] =>
             let r := eval vm_compute in (String.eqb k k') in
             change (dict_get k [(k', v)]) with (if r then Some v else @None pyval)
         end;
  cbv iota; cbn [andb].

(** X8.  On the fixed format the date-time filters decide by time.  For
    a record of six strings whose date-times are in the zero-padded
    format [YYYY-MM-DD HH:MM], and a filter value in that format, the
    departure filter answers whether the record departs at or after the
    time of the filter, and the arrival filter whether it arrives at or
    before it, the times being those [strptime] reads. *)
Theorem date_filters_chronological :
  forall (f : dict pyval) (t : string),
    string_record f ->
    fixed_format (field f "departure_datetime") = true ->
    fixed_format (field f "arrival_datetime") = true ->
    fixed_format t = true ->
    strptime t = Ok (fixed_value t)
    /\ strptime (field f "departure_datetime")
       = Ok (fixed_value (field f "departure_datetime"))
    /\ strptime (field f "arrival_datetime")
       = Ok (fixed_value (field f "arrival_datetime"))
    /\ flight_matches_query f [("departure_datetime", PStr t)]
       = Ok (dt_le (fixed_value t) (fixed_value (field f "departure_datetime")))
    /\ flight_matches_query f [("arrival_datetime", PStr t)]
       = Ok (dt_le (fixed_value (field f "arrival_datetime")) (fixed_value t)).
Proof.
  intros f t Hf Hd Ha Ht.
  destruct (fixed_format_le t (field f "departure_datetime") Ht Hd) as (P1 & P2 & L1).
  destruct (fixed_format_le (field f "arrival_datetime") t Ha Ht) as (P3 & _ & L2).
  repeat (split; [assumption |]).
  split.
  - rewrite evaluator_meets_spec; [| exact Hf | |].
    + unfold query_holds, exact_holds, price_holds, departure_holds, arrival_holds.
      lookup_single.
      now rewrite ?andb_true_r, L1.
    + intros key v _. cbn. destruct (String.eqb key "departure_datetime");
        [intros [= <-]; now exists t | discriminate].
    + intros qv rp qp H. discriminate H.
  - rewrite evaluator_meets_spec; [| exact Hf | |].
    + unfold query_holds, exact_holds, price_holds, departure_holds, arrival_holds.
      lookup_single.
      now rewrite ?andb_true_r, L2.
    + intros key v _. cbn. destruct (String.eqb key "arrival_datetime");
        [intros [= <-]; now exists t | discriminate].
    + intros qv rp qp H. discriminate H.
Qed.

Lemma date_filters_chronological_witness :
  strptime "2025-11-30 23:59" = Ok (fixed_value "2025-11-30 23:59")
  /\ strptime (field (py_of_flight sample_flight) "departure_datetime")
     = Ok (fixed_value (field (py_of_flight sample_flight) "departure_datetime"))
  /\ strptime (field (py_of_flight sample_flight) "arrival_datetime")
     = Ok (fixed_value (field (py_of_flight sample_flight) "arrival_datetime"))
  /\ flight_matches_query (py_of_flight sample_flight)
       [("departure_datetime", PStr "2025-11-30 23:59")]
     = Ok (dt_le (fixed_value "2025-11-30 23:59")
                 (fixed_value (field (py_of_flight sample_flight) "departure_datetime")))
  /\ flight_matches_query (py_of_flight sample_flight)
       [("arrival_datetime", PStr "2025-11-30 23:59")]
     = Ok (dt_le (fixed_value (field (py_of_flight sample_flight) "arrival_datetime"))
                 (fixed_value "2025-11-30 23:59")).
Proof.
  apply (date_filters_chronological (py_of_flight sample_flight) "2025-11-30 23:59");
    [apply sample_string_record | reflexivity | reflexivity | reflexivity].
Defined.

Lemma dict_get_set_other {V} (k k' : string) (v : V) (d : dict V) :
  String.eqb k' k = false -> dict_get k' (dict_set k v d) = dict_get k' d.
Proof.
  intros Hk. induction d as [| [k0 v0] d IH]; cbn [dict_set dict_get].
  - now rewrite Hk.
  - destruct (String.eqb k k0) eqn:E; cbn [dict_get].
    + apply String.eqb_eq in E. subst k0. now rewrite Hk.
    + now rewrite IH.
Qed.

Lemma evaluator_by_filters (f q q' : dict pyval) :
  (forall key, In key record_keys -> dict_get key q' = dict_get key q) ->
  flight_matches_query f q' = flight_matches_query f q.
Proof.
  intros H. unfold flight_matches_query, exact_mismatch, price_rejects,
    departure_rejects, arrival_rejects. cbn [existsb].
  rewrite !H by (cbn; tauto). reflexivity.
Qed.

(** X9.  A key that is none of the six filters is ignored: adding it to
    a query, with any value, changes nothing in the answer (nor in the
    exception) for any record.  A misspelt filter therefore filters
    nothing. *)
Theorem unknown_key_ignored :
  forall (f q : dict pyval) (k : string) (v : pyval),
    ~ In k record_keys ->
    flight_matches_query f (dict_set k v q) = flight_matches_query f q.
Proof.
  intros f q k v Hk. apply evaluator_by_filters. intros key Hin.
  apply dict_get_set_other. apply String.eqb_neq. intros ->. now apply Hk.
Qed.

Lemma unknown_key_ignored_witness :
  flight_matches_query (py_of_flight sample_flight)
    (dict_set "orign" (PStr "LAX") [("price", PInt 200)])
  = flight_matches_query (py_of_flight sample_flight) [("price", PInt 200)].
Proof.
  apply (unknown_key_ignored (py_of_flight sample_flight) [("price", PInt 200)]
           "orign" (PStr "LAX")).
  cbn. intros H. repeat (destruct H as [H | H]; [discriminate H |]). exact H.
Defined.

Lemma matches_true_parts (f q : dict pyval) :
  flight_matches_query f q = Ok true <->
  exact_mismatch f q = false /\ price_rejects f q = false /\
  departure_rejects f q = Ok false /\ arrival_rejects f q = Ok false.
Proof.
  unfold flight_matches_query.
  destruct (exact_mismatch f q), (price_rejects f q),
    (departure_rejects f q) as [[] |], (arrival_rejects f q) as [[] |];
    cbn; split; try discriminate; try tauto;
    intros (A & B & C & D); discriminate.
Qed.

(** X10.  The filters are a conjunction: a record that matches a query
    matches every query made of some of its filters.  Dropping filters
    can only add matches, and can raise no exception on a record that
    matched. *)
Theorem fewer_filters_match_more :
  forall (f q q' : dict pyval),
    sub_query q' q ->
    flight_matches_query f q = Ok true ->
    flight_matches_query f q' = Ok true.
Proof.
  intros f q q' Hsub. rewrite !matches_true_parts.
  intros (A & B & C & D). repeat split.
  - unfold exact_mismatch in *. cbn [existsb] in *.
    apply orb_false_iff in A. destruct A as [A1 A].
    apply orb_false_iff in A. destruct A as [A2 A].
    apply orb_false_iff in A. destruct A as [A3 _].
    destruct (dict_get "flight_id" q') eqn:E1;
      [rewrite (Hsub _ _ E1) in A1; rewrite A1 |];
    (destruct (dict_get "origin" q') eqn:E2;
      [rewrite (Hsub _ _ E2) in A2; rewrite A2 |]);
    (destruct (dict_get "destination" q') eqn:E3;
      [rewrite (Hsub _ _ E3) in A3; rewrite A3 |]); reflexivity.
  - unfold price_rejects in *.
    destruct (dict_get "price" q') eqn:E; [| reflexivity].
    now rewrite (Hsub _ _ E) in B.
  - unfold departure_rejects in *.
    destruct (dict_get "departure_datetime" q') eqn:E; [| reflexivity].
    now rewrite (Hsub _ _ E) in C.
  - unfold arrival_rejects in *.
    destruct (dict_get "arrival_datetime" q') eqn:E; [| reflexivity].
    now rewrite (Hsub _ _ E) in D.
Qed.

Lemma fewer_filters_match_more_witness :
  flight_matches_query (py_of_flight sample_flight) [("price", PInt 200)] = Ok true.
Proof.
  apply (fewer_filters_match_more (py_of_flight sample_flight)
           [("origin", PStr "JFK"); ("price", PInt 200)] [("price", PInt 200)]).
  - intros key v. cbn.
    destruct (String.eqb key "price") eqn:E; [| discriminate].
    apply String.eqb_eq in E. subst key. intros H. exact H.
  - vm_compute. reflexivity.
Defined.

(* ------------------------------------------------------------------ *)
(** ** The evaluator on values that are no dictionaries *)

Lemma exact_loop_dicts (f q : dict pyval) (ks : list string) :
  exact_loop (PDict f) (PDict q) ks =
  Returns (existsb (fun key =>
                      match dict_get key q with
                      | Some qv => py_ne (get f key) qv
                      | None => false
                      end) ks).
Proof.
  induction ks as [| key ks IH]; [reflexivity |].
  cbn [exact_loop contains attempt_bind existsb]. unfold dict_mem.
  destruct (dict_get key q) as [qv |] eqn:E; [| exact IH].
  cbn [get_method subscript attempt_bind]. rewrite E. cbn [attempt_bind].
  change (get_or f key PNone) with (get f key).
  destruct (py_ne (get f key) qv); [reflexivity | exact IH].
Qed.

Lemma price_block_dicts (f q : dict pyval) :
  price_block (PDict f) (PDict q) = Returns (price_rejects f q).
Proof.
  unfold price_block, price_rejects. cbn [contains attempt_bind]. unfold dict_mem.
  destruct (dict_get "price" q) as [qv |] eqn:E; [| reflexivity].
  cbn [subscript]. rewrite E. cbn [attempt_bind get_method].
  destruct (py_float qv) as [qp | e]; [| reflexivity]. cbn [lift attempt_bind bind].
  destruct (py_float (get_or f "price" (PStr "0"))); reflexivity.
Qed.

Lemma date_block_dicts (want : comparison) (key : string) (f q : dict pyval) :
  date_block want key (PDict f) (PDict q) =
  lift (match dict_get key q with
        | Some qv => py_order want (get f key) qv
        | None => Ok false
        end).
Proof.
  unfold date_block. cbn [contains attempt_bind]. unfold dict_mem.
  destruct (dict_get key q) as [qv |] eqn:E; [| reflexivity].
  cbn [get_method subscript attempt_bind]. rewrite E. reflexivity.
Qed.

(** On two dictionaries the evaluator on any value is the evaluator of
    the first part. *)
Lemma flight_matches_query_dicts (f q : dict pyval) :
  flight_matches_query_py (PDict f) (PDict q) = lift (flight_matches_query f q).
Proof.
  unfold flight_matches_query_py, flight_matches_query.
  rewrite exact_loop_dicts, price_block_dicts, !date_block_dicts.
  fold (exact_mismatch f q). cbn [attempt_bind].
  destruct (exact_mismatch f q); [reflexivity |].
  destruct (price_rejects f q); [reflexivity |].
  unfold departure_rejects, arrival_rejects, py_lt, py_gt.
  destruct (match dict_get "departure_datetime" q with
            | Some qv => py_order Lt (get f "departure_datetime") qv
            | None => Ok false
            end) as [[] | e]; try reflexivity.
  cbn [lift attempt_bind bind].
  destruct (match dict_get "arrival_datetime" q with
            | Some qv => py_order Gt (get f "arrival_datetime") qv
            | None => Ok false
            end) as [[] | e]; reflexivity.
Qed.

(** X11.  What a query that is no object does.  [load_queries] hands
    over the items of an array unchecked, and the evaluator only looks
    for the six keys with [in]: a query in which [in] finds none of
    them (an object without them, but also a string or an array that
    does not contain them) matches every record, whatever the record
    is, even one that is no object; a query that is null, a boolean or a
    number raises [TypeError] on every record. *)
Theorem stray_query_behaviour :
  forall f q : pyval,
    ((forall key, In key record_keys -> contains q key = Returns false) ->
     flight_matches_query_py f q = Returns true)
    /\ (scalar q = true ->
        flight_matches_query_py f q = Raises (Python TypeError)).
Proof.
  intros f q. split.
  - intros H. unfold flight_matches_query_py, price_block, date_block.
    cbn [exact_loop].
    rewrite !H by (cbn; tauto). reflexivity.
  - destruct q; try discriminate; reflexivity.
Qed.

Lemma stray_query_behaviour_witness :
  flight_matches_query_py (PInt 7) (PList [PStr "cheap"]) = Returns true
  /\ flight_matches_query_py (PDict (py_of_flight sample_flight)) PNone
     = Raises (Python TypeError).
Proof.
  split.
  - apply (stray_query_behaviour (PInt 7) (PList [PStr "cheap"])).
    intros key H. cbn in H.
    repeat (destruct H as [<- | H]; [reflexivity |]). destruct H.
  - apply (stray_query_behaviour (PDict (py_of_flight sample_flight)) PNone).
    reflexivity.
Defined.
(* ================================================================== *)
(** * The text that [json.dump] writes *)

Lemma pyval_induction (P : pyval -> Prop) :
  P PNone -> (forall b, P (PBool b)) -> (forall n, P (PInt n)) ->
  (forall x, P (PFloat x)) -> (forall s, P (PStr s)) ->
  (forall l, Forall P l -> P (PList l)) ->
  (forall d, Forall (fun kv => P (snd kv)) d -> P (PDict d)) ->
  forall v, P v.
Proof.
  intros HN HB HI HF HS HL HD. fix IH 1. intros [| b | n | x | s | l | d].
  - exact HN.
  - apply HB.
  - apply HI.
  - apply HF.
  - apply HS.
  - apply HL. induction l as [| a l IHl]; constructor; [apply IH | exact IHl].
  - apply HD. induction d as [| [k a] d IHd]; constructor; [apply IH | exact IHd].
Qed.

(** ** The general writer on a list of flights *)

Lemma insert_by_map_values {V W} (g : V -> W) (kv : string * V) (d : dict V) :
  insert_by key_leb (fst kv, g (snd kv)) (map (fun x => (fst x, g (snd x))) d) =
  map (fun x => (fst x, g (snd x))) (insert_by key_leb kv d).
Proof.
  induction d as [| y d IH]; [reflexivity |].
  cbn [map insert_by]. unfold key_leb at 1 3. cbn [fst].
  destruct (str_leb (fst kv) (fst y)); [reflexivity |].
  cbn [map]. now rewrite IH.
Qed.

Lemma sort_items_map_values {V W} (g : V -> W) (d : dict V) :
  sort_items (map (fun x => (fst x, g (snd x))) d) =
  map (fun x => (fst x, g (snd x))) (sort_items d).
Proof.
  unfold sort_items, sorted_by.
  induction d as [| kv d IH]; [reflexivity |].
  cbn [map fold_right]. rewrite IH. apply insert_by_map_values.
Qed.

Lemma dump_value_flight (f : flight) :
  dump_value 1 (PDict (py_of_flight f)) = dump_flight f.
Proof.
  cbn [dump_value]. unfold py_of_flight. rewrite map_map.
  rewrite (map_ext _ (fun x : string * string => (fst x, dump_str (snd x))))
    by (now intros [k v]).
  rewrite sort_items_map_values, map_map. unfold dump_flight, dump_block.
  destruct (sort_items f) as [| kv items]; [reflexivity |].
  cbn [map]. reflexivity.
Qed.

(** On the records of a parse the writer for any value is the writer
    of the first part. *)
Lemma json_dumps_py_flights (flights : list flight) :
  json_dumps_py (PList (py_of_flights flights)) = json_dumps flights.
Proof.
  unfold json_dumps_py, py_of_flights. cbn [dump_value]. rewrite map_map.
  rewrite (map_ext _ dump_flight) by (intros f; apply dump_value_flight).
  unfold json_dumps, dump_block.
  destruct flights as [| f fl]; reflexivity.
Qed.

(** ** Only printable ASCII and line feeds *)

Lemma code_ascii_of_N (n : N) : (n < 256)%N -> code (ascii_of_N n) = n.
Proof. intros H. unfold code. now apply N_ascii_embedding. Qed.

Lemma digit_char (n : N) : is_digit (ascii_of_N (48 + n mod 10)) = true.
Proof.
  assert (n mod 10 < 10)%N by (apply N.mod_lt; discriminate).
  unfold is_digit, in_range. rewrite code_ascii_of_N by lia.
  apply andb_true_iff. split; apply N.leb_le; [apply N.le_add_r | lia].
Qed.

Lemma digits_of_digits (fuel : nat) (n : N) (acc : string) :
  all_chars is_digit acc = true -> all_chars is_digit (digits_of fuel n acc) = true.
Proof.
  revert n acc. induction fuel as [| fuel IH]; intros n acc H; cbn [digits_of].
  - cbn [all_chars]. now rewrite digit_char.
  - destruct (n <? 10)%N.
    + cbn [all_chars]. now rewrite digit_char.
    + apply IH. cbn [all_chars]. now rewrite digit_char.
Qed.

Lemma str_of_nat_digits (n : N) : all_chars is_digit (str_of_nat n) = true.
Proof. apply digits_of_digits. reflexivity. Qed.

Lemma all_chars_weaken (p q : ascii -> bool) (s : string) :
  (forall c, p c = true -> q c = true) ->
  all_chars p s = true -> all_chars q s = true.
Proof.
  intros H. induction s as [| c r IH]; [reflexivity |]. cbn [all_chars].
  rewrite !andb_true_iff. intros [Hc Hr]. split; [now apply H | now apply IH].
Qed.

Lemma digit_plain (c : ascii) : is_digit c = true -> plain c = true.
Proof.
  unfold is_digit, plain, in_range. rewrite !andb_true_iff, !N.leb_le.
  intros [H1 H2]. apply orb_true_iff. left.
  apply andb_true_iff. split; apply N.leb_le; lia.
Qed.

Lemma str_of_nat_plain (n : N) : all_chars plain (str_of_nat n) = true.
Proof.
  apply (all_chars_weaken is_digit); [apply digit_plain | apply str_of_nat_digits].
Qed.

Lemma str_of_int_plain (n : Z) : all_chars plain (str_of_int n) = true.
Proof.
  unfold str_of_int. destruct (n <? 0); [| apply str_of_nat_plain].
  cbn [all_chars]. now rewrite str_of_nat_plain.
Qed.

Lemma rstrip_by_all (p q : ascii -> bool) (s : string) :
  all_chars q s = true -> all_chars q (rstrip_by p s) = true.
Proof.
  induction s as [| c r IH]; [reflexivity |]. cbn [all_chars rstrip_by].
  rewrite andb_true_iff. intros [Hc Hr].
  destruct (str_empty (rstrip_by p r) && p c); [reflexivity |].
  cbn [all_chars]. now rewrite Hc, IH.
Qed.

Lemma substring_all (q : ascii -> bool) (s : string) (i n : nat) :
  all_chars q s = true -> all_chars q (String.substring i n s) = true.
Proof.
  revert i n. induction s as [| c r IH]; intros i n H.
  - now destruct i, n.
  - cbn [all_chars] in H. apply andb_true_iff in H. destruct H as [Hc Hr].
    destruct i as [| i]; cbn [String.substring].
    + destruct n as [| n]; [reflexivity |]. cbn [all_chars]. now rewrite Hc, IH.
    + now apply IH.
Qed.

Lemma concat_repeat_S (c : ascii) (n : nat) :
  String.concat EmptyString (repeat (String c EmptyString) (S n)) =
  String c (String.concat EmptyString (repeat (String c EmptyString) n)).
Proof. destruct n; reflexivity. Qed.

Lemma concat_repeat_all (q : ascii -> bool) (c : ascii) (n : nat) :
  q c = true ->
  all_chars q (String.concat EmptyString (repeat (String c EmptyString) n)) = true.
Proof.
  intros H. induction n as [| n IH]; [reflexivity |].
  rewrite concat_repeat_S. cbn [all_chars]. now rewrite H, IH.
Qed.

Lemma zeros_plain (n : nat) : all_chars plain (zeros n) = true.
Proof. apply (concat_repeat_all plain "0" n). reflexivity. Qed.

Lemma newline_indent_plain (n : nat) : all_chars plain (newline_indent n) = true.
Proof.
  unfold newline_indent. cbn [all_chars].
  now rewrite (concat_repeat_all plain " " n).
Qed.

Lemma escape_char_plain (c : ascii) : all_chars plain (escape_char c) = true.
Proof. destruct c as [[] [] [] [] [] [] [] []]; reflexivity. Qed.

Lemma escape_plain (s : string) : all_chars plain (escape s) = true.
Proof.
  induction s as [| c r IH]; [reflexivity |]. cbn [escape].
  now rewrite all_chars_app, escape_char_plain, IH.
Qed.

Lemma dump_str_plain (s : string) : all_chars plain (dump_str s) = true.
Proof.
  unfold dump_str. cbn [all_chars].
  now rewrite all_chars_app, escape_plain.
Qed.

Lemma join_plain (sep : string) (l : list string) :
  all_chars plain sep = true ->
  Forall (fun x => all_chars plain x = true) l ->
  all_chars plain (join sep l) = true.
Proof.
  intros Hs H. induction H as [| x l Hx Hl IH]; [reflexivity |].
  destruct l as [| y l]; [exact Hx |].
  rewrite join_cons, !all_chars_app, Hx, Hs. exact IH.
Qed.

Lemma dump_block_plain (open close : string) (level : nat) (items : list string) :
  all_chars plain open = true -> all_chars plain close = true ->
  Forall (fun x => all_chars plain x = true) items ->
  all_chars plain (dump_block open close level items) = true.
Proof.
  intros Ho Hc H. unfold dump_block. destruct items as [| x items].
  - now rewrite all_chars_app, Ho, Hc.
  - rewrite !all_chars_app, Ho, Hc, !newline_indent_plain.
    rewrite join_plain; [reflexivity | | exact H].
    cbn [String.append all_chars]. now rewrite newline_indent_plain.
Qed.

Lemma repr_exponent_plain (x : Z) : all_chars plain (repr_exponent x) = true.
Proof.
  unfold repr_exponent. cbn [all_chars].
  destruct (x <? 0), (String.length _ <? 2)%nat; cbn [all_chars];
    now rewrite str_of_nat_plain.
Qed.

Lemma repr_layout_plain (ds : string) (decpt : Z) :
  all_chars plain ds = true -> all_chars plain (repr_layout ds decpt) = true.
Proof.
  intros H. unfold repr_layout.
  destruct ((decpt <=? -4) || (16 <? decpt)).
  - destruct ds as [| c rest]; [reflexivity |].
    cbn [all_chars] in H. apply andb_true_iff in H. destruct H as [Hc Hr].
    assert (He : all_chars plain ("e" ++ repr_exponent (decpt - 1)) = true).
    { cbn [String.append all_chars]. now rewrite repr_exponent_plain. }
    destruct rest as [| d rest].
    + change (str1 c ++ "e" ++ repr_exponent (decpt - 1))%string
        with (String c ("e" ++ repr_exponent (decpt - 1))).
      cbn [all_chars]. now rewrite Hc, He.
    + change (str1 c ++ "." ++ String d rest ++ "e" ++ repr_exponent (decpt - 1))%string
        with (String c (String "." (String d rest ++ "e" ++ repr_exponent (decpt - 1)))).
      cbn [all_chars]. rewrite Hc, all_chars_app, Hr, He. reflexivity.
  - destruct (decpt <=? 0).
    + cbn [String.append all_chars]. now rewrite all_chars_app, zeros_plain, H.
    + destruct (Z.of_nat (String.length ds) <=? decpt).
      * now rewrite !all_chars_app, H, zeros_plain.
      * rewrite !all_chars_app, !substring_all by exact H. reflexivity.
Qed.

Lemma float_repr_plain (x : spec_float) : all_chars plain (float_repr x) = true.
Proof.
  destruct x as [[] | [] | | s m e]; try reflexivity.
  unfold float_repr, repr_digits.
  destruct (shortest _ _ _ _ _ _) as [d k].
  rewrite all_chars_app, repr_layout_plain.
  - now destruct s.
  - apply rstrip_by_all, str_of_nat_plain.
Qed.

Lemma dump_float_plain (x : spec_float) : all_chars plain (dump_float x) = true.
Proof.
  destruct x as [[] | [] | | s m e]; try reflexivity.
  apply (float_repr_plain (S754_finite s m e)).
Qed.

Lemma dump_pair_plain (kv : string * string) :
  all_chars plain (snd kv) = true -> all_chars plain (dump_pair kv) = true.
Proof.
  intros H. unfold dump_pair.
  rewrite !all_chars_app, dump_str_plain, H. reflexivity.
Qed.

Lemma sort_items_forall {V} (P : string * V -> Prop) (d : dict V) :
  Forall P d -> Forall P (sort_items d).
Proof.
  intros H. apply Forall_forall. intros x Hx.
  apply (Permutation_in _ (sorted_by_perm key_leb d)) in Hx.
  revert x Hx. now apply Forall_forall.
Qed.

Lemma dump_value_plain (v : pyval) :
  forall level, all_chars plain (dump_value level v) = true.
Proof.
  induction v as [| b | n | x | s | l IH | d IH] using pyval_induction;
    intros level; cbn [dump_value].
  - reflexivity.
  - now destruct b.
  - apply str_of_int_plain.
  - apply dump_float_plain.
  - apply dump_str_plain.
  - apply dump_block_plain; [reflexivity | reflexivity |].
    apply Forall_map. revert IH. apply Forall_impl. intros a Ha. apply Ha.
  - apply dump_block_plain; [reflexivity | reflexivity |].
    apply Forall_map. apply Forall_impl with (P := fun kv => all_chars plain (snd kv) = true);
      [intros kv; apply dump_pair_plain |].
    apply sort_items_forall. apply Forall_map. revert IH. apply Forall_impl.
    intros kv Hkv. apply Hkv.
Qed.

Lemma utf8_encode_plain (s : string) :
  all_chars plain s = true -> utf8_encode s = s.
Proof.
  induction s as [| c r IH]; [reflexivity |]. cbn [all_chars utf8_encode].
  rewrite andb_true_iff. intros [Hc Hr]. rewrite (IH Hr).
  unfold utf8_char. replace (code c <? 128)%N with true; [reflexivity |].
  symmetry. apply N.ltb_lt. unfold plain, in_range in Hc.
  apply orb_true_iff in Hc. destruct Hc as [Hc | Hc].
  - apply andb_true_iff in Hc. destruct Hc as [_ Hc]. apply N.leb_le in Hc. lia.
  - apply Ascii.eqb_eq in Hc. subst c. reflexivity.
Qed.

Lemma utf8_decode_plain (s : string) :
  all_chars plain s = true -> utf8_decode s = Some s.
Proof.
  induction s as [| c r IH]; [reflexivity |]. cbn [all_chars utf8_decode].
  rewrite andb_true_iff. intros [Hc Hr]. rewrite (IH Hr).
  replace (code c <? 128)%N with true; [reflexivity |].
  symmetry. apply N.ltb_lt. unfold plain, in_range in Hc.
  apply orb_true_iff in Hc. destruct Hc as [Hc | Hc].
  - apply andb_true_iff in Hc. destruct Hc as [_ Hc]. apply N.leb_le in Hc. lia.
  - apply Ascii.eqb_eq in Hc. subst c. reflexivity.
Qed.

(** X12.  What [json.dump] writes is plain ASCII.  For every value the
    text written with [indent=2, sort_keys=True] contains only printable
    ASCII characters and line feeds, whatever characters the strings of
    the value hold; so its UTF-8 bytes are the text itself, and reading
    the bytes back gives the text.  This holds for the database (the
    list of the records) and for the response file. *)
Theorem written_json_is_ascii :
  forall v : pyval,
    all_chars plain (json_dumps_py v) = true
    /\ utf8_encode (json_dumps_py v) = json_dumps_py v
    /\ utf8_decode (utf8_encode (json_dumps_py v)) = Some (json_dumps_py v)
    /\ forall flights : list flight,
         json_dumps_py (PList (py_of_flights flights)) = json_dumps flights.
Proof.
  intros v. pose proof (dump_value_plain v 0) as H. fold (json_dumps_py v) in H.
  split; [exact H |]. split; [now apply utf8_encode_plain |].
  split; [| apply json_dumps_py_flights].
  rewrite utf8_encode_plain by exact H. now apply utf8_decode_plain.
Qed.
(* ================================================================== *)
(** * The error log *)




Lemma utf8_encode_app (s t : string) :
  utf8_encode (s ++ t) = (utf8_encode s ++ utf8_encode t)%string.
Proof.
  induction s as [| c r IH]; [reflexivity |].
  cbn [String.append utf8_encode]. now rewrite IH, append_assoc.
Qed.



Lemma utf8_char_one_line (c : ascii) :
  negb (Ascii.eqb c nl) = true -> one_line (utf8_char c) = true.
Proof. destruct c as [[] [] [] [] [] [] [] []]; intros H; try reflexivity; discriminate H. Qed.

Lemma utf8_encode_one_line (s : string) :
  one_line s = true -> one_line (utf8_encode s) = true.
Proof.
  unfold one_line. induction s as [| c r IH]; [reflexivity |].
  cbn [all_chars utf8_encode]. rewrite andb_true_iff. intros [Hc Hr].
  rewrite all_chars_app, IH by exact Hr.
  pose proof (utf8_char_one_line c Hc) as H0. unfold one_line in H0.
  now rewrite H0.
Qed.


(** ** [str] of an [int] can be read back *)







(** ** The bytes of a line of the log *)

Lemma error_line_bytes (ln : Z) (original why : string) :
  error_line (ln, original, why) =
  ("Line " ++ (str_of_int ln ++ String ":" (String " "
     (utf8_encode original ++ String " " (String (ascii_of_N 226)
        (String (ascii_of_N 134) (String (ascii_of_N 146) (String " "
           (utf8_encode why ++ str1 nl)))))))))%string.
Proof.
  unfold error_line, arrow.
  rewrite !utf8_encode_app.
  rewrite (utf8_encode_plain (str_of_int ln)) by apply str_of_int_plain.
  change (utf8_encode "Line ") with "Line ".
  change (utf8_encode ": ") with ": ".
  change (utf8_encode " ") with " ".
  change (utf8_encode (str1 nl)) with (str1 nl).
  rewrite !append_assoc. reflexivity.
Qed.





Lemma errors_bytes_cons (e : error_entry) (es : list error_entry) :
  errors_bytes (e :: es) = (error_line e ++ errors_bytes es)%string.
Proof.
  unfold errors_bytes. cbn [map String.concat].
  destruct (map error_line es) eqn:E; [now rewrite append_nil_r | reflexivity].
Qed.




(** ** One line of the log for every entry *)

Lemma count_char_app (c : ascii) (a b : string) :
  count_char c (a ++ b) = (count_char c a + count_char c b)%nat.
Proof.
  induction a as [| x a IH]; [reflexivity |].
  cbn [String.append count_char]. rewrite IH. lia.
Qed.

Lemma count_one_line (s : string) : one_line s = true -> count_char nl s = 0%nat.
Proof.
  unfold one_line. induction s as [| c r IH]; [reflexivity |].
  cbn [all_chars count_char]. rewrite andb_true_iff, negb_true_iff.
  intros [-> Hr]. now rewrite IH.
Qed.

Lemma str_of_int_one_line (n : Z) : one_line (str_of_int n) = true.
Proof.
  assert (H : forall k, one_line (str_of_nat k) = true).
  { intros k. apply (all_chars_weaken is_digit); [| apply str_of_nat_digits].
    intros c Hc. destruct (Ascii.eqb c nl) eqn:E; [| reflexivity].
    apply Ascii.eqb_eq in E. subst c. discriminate Hc. }
  unfold str_of_int. destruct (n <? 0); [| apply H].
  unfold one_line in *. cbn [all_chars]. now rewrite H.
Qed.

Lemma error_line_count (e : error_entry) :
  loggable e -> count_char nl (error_line e) = 1%nat.
Proof.
  destruct e as [[ln o] w]. unfold loggable, explanation. cbn [fst snd].
  intros [Ho Hw]. rewrite error_line_bytes.
  repeat first [rewrite count_char_app | progress cbn [count_char String.append str1]].
  rewrite (count_one_line _ (str_of_int_one_line ln)),
    (count_one_line _ (utf8_encode_one_line _ Ho)),
    (count_one_line _ (utf8_encode_one_line _ Hw)).
  reflexivity.
Qed.

Lemma errors_bytes_count (es : list error_entry) :
  Forall loggable es -> count_char nl (errors_bytes es) = List.length es.
Proof.
  intros H. induction H as [| e es He Hes IH]; [reflexivity |].
  rewrite errors_bytes_cons, count_char_app, (error_line_count e He), IH.
  reflexivity.
Qed.

Lemma rstrip_nl_one_line_cons (c : ascii) (h : string) :
  Ascii.eqb c nl = false ->
  one_line (rstrip_nl h) = true -> one_line (rstrip_nl (String c h)) = true.
Proof.
  intros E H. rewrite rstrip_nl_cons by exact E.
  unfold one_line in *. cbn [all_chars]. now rewrite E, H.
Qed.

Lemma cons_char_one_line (c : ascii) (l : list string) :
  Ascii.eqb c nl = false ->
  Forall (fun raw => one_line (rstrip_nl raw) = true) l ->
  Forall (fun raw => one_line (rstrip_nl raw) = true) (cons_char c l).
Proof.
  intros E H. destruct H as [| h t Hh Ht]; cbn [cons_char].
  - constructor; [| constructor].
    apply (rstrip_nl_one_line_cons c EmptyString E). reflexivity.
  - constructor; [now apply rstrip_nl_one_line_cons | exact Ht].
Qed.

(** No line that a file yields has a line feed before its end. *)
Lemma file_lines_one_line (t : string) :
  Forall (fun raw => one_line (rstrip_nl raw) = true) (file_lines t).
Proof.
  induction t as [| c | c d r IH1 IH2] using string_pair_ind.
  - constructor.
  - char_case c E1; [repeat constructor |].
    destruct (Ascii.eqb c cr) eqn:E2.
    + apply Ascii.eqb_eq in E2. subst c. repeat constructor.
    + change (str1 c) with (String c EmptyString).
      rewrite file_lines_char by assumption.
      apply cons_char_one_line; [exact E1 | constructor].
  - char_case c E1; [rewrite file_lines_lf; now constructor |].
    destruct (Ascii.eqb c cr) eqn:E2.
    + apply Ascii.eqb_eq in E2. subst c. char_case d E3.
      * rewrite file_lines_crlf. now constructor.
      * rewrite file_lines_cr by assumption. now constructor.
    + rewrite file_lines_char by assumption. now apply cons_char_one_line.
Qed.

Lemma join_all (q : ascii -> bool) (sep : string) (l : list string) :
  all_chars q sep = true ->
  Forall (fun x => all_chars q x = true) l ->
  all_chars q (join sep l) = true.
Proof.
  intros Hs H. induction H as [| x l Hx Hl IH]; [reflexivity |].
  destruct l as [| y l]; [exact Hx |].
  rewrite join_cons, !all_chars_app, Hx, Hs. exact IH.
Qed.

Lemma rule_reasons_one_line (a b c d e p : string) :
  Forall (fun x => one_line x = true) (rule_reasons a b c d e p).
Proof.
  assert (R : forall v r, one_line r = true ->
                           Forall (fun x => one_line x = true) (reason_if v r)).
  { intros [] r H; [constructor; [exact H | constructor] | constructor]. }
  unfold rule_reasons. rewrite !Forall_app.
  repeat split; apply R; reflexivity.
Qed.

Lemma explanation_one_line (raw why : string) :
  explanation_of raw = Some why -> one_line why = true.
Proof.
  unfold explanation_of, classify.
  destruct (str_empty (strip (rstrip_nl raw))); [discriminate |].
  destruct (startswith "#" (strip (rstrip_nl raw))); [now intros [= <-] |].
  destruct (fields_of (rstrip_nl raw)) as [| a [| b [| c [| d [| e [| p [| x l]]]]]]];
    try (now intros [= <-]).
  pose proof (rule_reasons_one_line a b c d e p) as H.
  destruct (rule_reasons a b c d e p) as [| r rs]; [discriminate |].
  intros [= <-]. change (one_line (join ", " (r :: rs)) = true).
  apply join_all; [reflexivity | exact H].
Qed.

(** X14.  Every entry takes one line of the log.  The entries that
    [parse_csv_file] returns have no line feed in the original line nor
    in the explanation, so the bytes [write_errors_txt] writes for them
    contain as many line feeds as there are entries: line [k] of
    [errors.txt] is entry [k]. *)
Theorem error_log_one_line_each :
  forall (fs : filesystem) (path : string) (n : Z)
         (valid : list flight) (errors : list error_entry) (m : Z),
    parse_csv_file fs path n = Ok (valid, errors, m) ->
    Forall loggable errors
    /\ count_char nl (errors_bytes errors) = List.length errors.
Proof.
  intros fs path n valid errors m H.
  assert (L : Forall loggable errors).
  { revert H. unfold parse_csv_file.
    destruct (fs path) as [text |] eqn:Hfs; [| discriminate].
    rewrite for_each_parse_line. cbn. intros [= _ <- _].
    apply Forall_forall. intros [[ln line] why] Hin.
    apply in_entries_from in Hin. destruct Hin as (i & raw & Hi & Hin).
    apply in_entry_of in Hin. destruct Hin as (why' & Hw & [= -> -> ->]).
    split; cbn [fst snd explanation].
    - pose proof (file_lines_one_line text) as F.
      rewrite Forall_forall in F. apply F. now apply nth_error_In in Hi.
    - now apply explanation_one_line in Hw. }
  split; [exact L | now apply errors_bytes_count].
Qed.

Lemma error_log_one_line_each_witness :
  Forall loggable
    [ (1, "#comment", "Comment");
      (4, "a,b", "Invalid number of fields");
      (5, " A!, jkf ,LAX,2025-12-01 09:00,2025-12-01 12:00,0",
       "Invalid flight_id, Invalid origin, Invalid price") ]
  /\ count_char nl
       (errors_bytes
          [ (1, "#comment", "Comment");
            (4, "a,b", "Invalid number of fields");
            (5, " A!, jkf ,LAX,2025-12-01 09:00,2025-12-01 12:00,0",
             "Invalid flight_id, Invalid origin, Invalid price") ])
     = List.length
         [ (1, "#comment", "Comment");
           (4, "a,b", "Invalid number of fields");
           (5, " A!, jkf ,LAX,2025-12-01 09:00,2025-12-01 12:00,0",
            "Invalid flight_id, Invalid origin, Invalid price") ].
Proof.
  apply (error_log_one_line_each sample_fs "a.csv" 1 [sample_flight]
           [ (1, "#comment", "Comment");
             (4, "a,b", "Invalid number of fields");
             (5, " A!, jkf ,LAX,2025-12-01 09:00,2025-12-01 12:00,0",
              "Invalid flight_id, Invalid origin, Invalid price") ] 6).
  vm_compute. reflexivity.
Defined.
(* ================================================================== *)
(** * The whole run *)













(** X16.  A run without a source.  With none of [-i], [-d] and [-j],
    a run with [-q] exits with status 2 before it writes anything; a
    run without [-q] still writes the database, the empty list [[]],
    over whatever [-o] (or [db.json]) held, touches nothing else and
    returns normally, unless the database cannot be opened for
    writing. *)
Theorem run_without_sources :
  forall (w : world) (dirs : directories) (now : datetime)
         (o q : option string),
    main w dirs now (mk_namespace (mk_args None None) o None q) =
    match given q with
    | Some _ => Exited 2 w
    | None =>
        match write_bytes w (db_path_of (mk_namespace (mk_args None None) o None q))
                (String "[" (String "]" EmptyString)) with
        | Some w' => Finished w' None
        | None => Exited 2 w
        end
    end.
Proof.
  intros w dirs now o q. unfold main, db_path_of.
  cbn [json_db parsing output_db query_file given parse_stage input_file input_dir].
  destruct (given q) as [qp |] eqn:Eq; [reflexivity |].
  unfold write_text. cbn [json_dumps].
  change (utf8_encode "[]") with "[]".
  destruct (write_bytes w _ "[]") as [w' |]; [| reflexivity].
  unfold errors_stage, query_stage. cbn [map query_file]. now rewrite Eq.
Qed.

Lemma evaluator_true_iff_witness :
  flight_matches_query (py_of_flight sample_flight)
    [("origin", PStr "JFK"); ("price", PInt 200)] = Ok true
  <-> query_holds (py_of_flight sample_flight)
        [("origin", PStr "JFK"); ("price", PInt 200)] = true.
Proof.
  apply (evaluator_true_iff (py_of_flight sample_flight)
           [("origin", PStr "JFK"); ("price", PInt 200)]).
  - apply sample_string_record.
  - intros qv rp qp Hq Hr Hp. vm_compute in Hq. injection Hq as <-.
    vm_compute in Hr. injection Hr as <-.
    vm_compute in Hp. injection Hp as <-. split; reflexivity.
Defined.
